(** * Arithmetic modernization rule (ADD / SUBTRACT / MULTIPLY / DIVIDE)

    A shallow embedding of [src/app/app.py] and the properties of its
    scanner.

    Modelling choices.
    - A Python [str] is a list of characters, and a character is its code
      point ([N]); offsets into a string are Python integers ([Z]) at the
      level of the string methods and naturals inside the
      regular-expression matcher.  What [str.isspace], [str.isalnum],
      [str.upper] and the classes [\s] and [\w] answer is read from the
      tables of Unicode 14.0.0, the version that CPython 3.11 ships.
    - [re] is modelled by a small backtracking matcher with ordered
      alternation, greedy repetition of one-character classes, named groups
      and the [IGNORECASE] and [MULTILINE] flags ([VERBOSE] only changes how
      the pattern text is read).  The literals of a pattern are characters
      below U+0100.
    - Operations that can raise in Python return a [result].
    - [Unit] instances live in an object store, so that "a new object is
      returned and the argument is left alone" can be stated. *)

From Stdlib Require Import List Ascii String NArith ZArith Lia Bool Arith Sorted.
Import ListNotations.

Set Implicit Arguments.

Open Scope string_scope.
Open Scope list_scope.
Open Scope Z_scope.

(* ================================================================== *)
(** * The Unicode character tables *)
(* ================================================================== *)

Module Unicode.

(** Membership in a table of code-point ranges, bounds included. *)
Definition in_range (c : N) (r : N * N) : bool :=
  (N.leb (fst r) c && N.leb c (snd r))%bool.

Definition in_ranges (rs : list (N * N)) (c : N) : bool :=
  existsb (in_range c) rs.

(** The characters for which [str.isspace] holds: bidirectional type WS, B
    or S, or general category Zs. *)
Definition Whitespace : list (N * N) :=
  [
   (0x9, 0xD); (0x1C, 0x20); (0x85, 0x85); (0xA0, 0xA0); (0x1680, 0x1680);
   (0x2000, 0x200A); (0x2028, 0x2029); (0x202F, 0x202F); (0x205F, 0x205F);
   (0x3000, 0x3000)
  ]%N.

(** The characters for which [str.isalnum] holds: letters and the
    characters with a decimal, digit or numeric value. *)
Definition Alphanumeric : list (N * N) :=
  [
   (0x30, 0x39); (0x41, 0x5A); (0x61, 0x7A); (0xAA, 0xAA); (0xB2, 0xB3);
   (0xB5, 0xB5); (0xB9, 0xBA); (0xBC, 0xBE); (0xC0, 0xD6); (0xD8, 0xF6);
   (0xF8, 0x2C1); (0x2C6, 0x2D1); (0x2E0, 0x2E4); (0x2EC, 0x2EC);
   (0x2EE, 0x2EE); (0x370, 0x374); (0x376, 0x377); (0x37A, 0x37D);
   (0x37F, 0x37F); (0x386, 0x386); (0x388, 0x38A); (0x38C, 0x38C);
   (0x38E, 0x3A1); (0x3A3, 0x3F5); (0x3F7, 0x481); (0x48A, 0x52F);
   (0x531, 0x556); (0x559, 0x559); (0x560, 0x588); (0x5D0, 0x5EA);
   (0x5EF, 0x5F2); (0x620, 0x64A); (0x660, 0x669); (0x66E, 0x66F);
   (0x671, 0x6D3); (0x6D5, 0x6D5); (0x6E5, 0x6E6); (0x6EE, 0x6FC);
   (0x6FF, 0x6FF); (0x710, 0x710); (0x712, 0x72F); (0x74D, 0x7A5);
   (0x7B1, 0x7B1); (0x7C0, 0x7EA); (0x7F4, 0x7F5); (0x7FA, 0x7FA);
   (0x800, 0x815); (0x81A, 0x81A); (0x824, 0x824); (0x828, 0x828);
   (0x840, 0x858); (0x860, 0x86A); (0x870, 0x887); (0x889, 0x88E);
   (0x8A0, 0x8C9); (0x904, 0x939); (0x93D, 0x93D); (0x950, 0x950);
   (0x958, 0x961); (0x966, 0x96F); (0x971, 0x980); (0x985, 0x98C);
   (0x98F, 0x990); (0x993, 0x9A8); (0x9AA, 0x9B0); (0x9B2, 0x9B2);
   (0x9B6, 0x9B9); (0x9BD, 0x9BD); (0x9CE, 0x9CE); (0x9DC, 0x9DD);
   (0x9DF, 0x9E1); (0x9E6, 0x9F1); (0x9F4, 0x9F9); (0x9FC, 0x9FC);
   (0xA05, 0xA0A); (0xA0F, 0xA10); (0xA13, 0xA28); (0xA2A, 0xA30);
   (0xA32, 0xA33); (0xA35, 0xA36); (0xA38, 0xA39); (0xA59, 0xA5C);
   (0xA5E, 0xA5E); (0xA66, 0xA6F); (0xA72, 0xA74); (0xA85, 0xA8D);
   (0xA8F, 0xA91); (0xA93, 0xAA8); (0xAAA, 0xAB0); (0xAB2, 0xAB3);
   (0xAB5, 0xAB9); (0xABD, 0xABD); (0xAD0, 0xAD0); (0xAE0, 0xAE1);
   (0xAE6, 0xAEF); (0xAF9, 0xAF9); (0xB05, 0xB0C); (0xB0F, 0xB10);
   (0xB13, 0xB28); (0xB2A, 0xB30); (0xB32, 0xB33); (0xB35, 0xB39);
   (0xB3D, 0xB3D); (0xB5C, 0xB5D); (0xB5F, 0xB61); (0xB66, 0xB6F);
   (0xB71, 0xB77); (0xB83, 0xB83); (0xB85, 0xB8A); (0xB8E, 0xB90);
   (0xB92, 0xB95); (0xB99, 0xB9A); (0xB9C, 0xB9C); (0xB9E, 0xB9F);
   (0xBA3, 0xBA4); (0xBA8, 0xBAA); (0xBAE, 0xBB9); (0xBD0, 0xBD0);
   (0xBE6, 0xBF2); (0xC05, 0xC0C); (0xC0E, 0xC10); (0xC12, 0xC28);
   (0xC2A, 0xC39); (0xC3D, 0xC3D); (0xC58, 0xC5A); (0xC5D, 0xC5D);
   (0xC60, 0xC61); (0xC66, 0xC6F); (0xC78, 0xC7E); (0xC80, 0xC80);
   (0xC85, 0xC8C); (0xC8E, 0xC90); (0xC92, 0xCA8); (0xCAA, 0xCB3);
   (0xCB5, 0xCB9); (0xCBD, 0xCBD); (0xCDD, 0xCDE); (0xCE0, 0xCE1);
   (0xCE6, 0xCEF); (0xCF1, 0xCF2); (0xD04, 0xD0C); (0xD0E, 0xD10);
   (0xD12, 0xD3A); (0xD3D, 0xD3D); (0xD4E, 0xD4E); (0xD54, 0xD56);
   (0xD58, 0xD61); (0xD66, 0xD78); (0xD7A, 0xD7F); (0xD85, 0xD96);
   (0xD9A, 0xDB1); (0xDB3, 0xDBB); (0xDBD, 0xDBD); (0xDC0, 0xDC6);
   (0xDE6, 0xDEF); (0xE01, 0xE30); (0xE32, 0xE33); (0xE40, 0xE46);
   (0xE50, 0xE59); (0xE81, 0xE82); (0xE84, 0xE84); (0xE86, 0xE8A);
   (0xE8C, 0xEA3); (0xEA5, 0xEA5); (0xEA7, 0xEB0); (0xEB2, 0xEB3);
   (0xEBD, 0xEBD); (0xEC0, 0xEC4); (0xEC6, 0xEC6); (0xED0, 0xED9);
   (0xEDC, 0xEDF); (0xF00, 0xF00); (0xF20, 0xF33); (0xF40, 0xF47);
   (0xF49, 0xF6C); (0xF88, 0xF8C); (0x1000, 0x102A); (0x103F, 0x1049);
   (0x1050, 0x1055); (0x105A, 0x105D); (0x1061, 0x1061); (0x1065, 0x1066);
   (0x106E, 0x1070); (0x1075, 0x1081); (0x108E, 0x108E); (0x1090, 0x1099);
   (0x10A0, 0x10C5); (0x10C7, 0x10C7); (0x10CD, 0x10CD); (0x10D0, 0x10FA);
   (0x10FC, 0x1248); (0x124A, 0x124D); (0x1250, 0x1256); (0x1258, 0x1258);
   (0x125A, 0x125D); (0x1260, 0x1288); (0x128A, 0x128D); (0x1290, 0x12B0);
   (0x12B2, 0x12B5); (0x12B8, 0x12BE); (0x12C0, 0x12C0); (0x12C2, 0x12C5);
   (0x12C8, 0x12D6); (0x12D8, 0x1310); (0x1312, 0x1315); (0x1318, 0x135A);
   (0x1369, 0x137C); (0x1380, 0x138F); (0x13A0, 0x13F5); (0x13F8, 0x13FD);
   (0x1401, 0x166C); (0x166F, 0x167F); (0x1681, 0x169A); (0x16A0, 0x16EA);
   (0x16EE, 0x16F8); (0x1700, 0x1711); (0x171F, 0x1731); (0x1740, 0x1751);
   (0x1760, 0x176C); (0x176E, 0x1770); (0x1780, 0x17B3); (0x17D7, 0x17D7);
   (0x17DC, 0x17DC); (0x17E0, 0x17E9); (0x17F0, 0x17F9); (0x1810, 0x1819);
   (0x1820, 0x1878); (0x1880, 0x1884); (0x1887, 0x18A8); (0x18AA, 0x18AA);
   (0x18B0, 0x18F5); (0x1900, 0x191E); (0x1946, 0x196D); (0x1970, 0x1974);
   (0x1980, 0x19AB); (0x19B0, 0x19C9); (0x19D0, 0x19DA); (0x1A00, 0x1A16);
   (0x1A20, 0x1A54); (0x1A80, 0x1A89); (0x1A90, 0x1A99); (0x1AA7, 0x1AA7);
   (0x1B05, 0x1B33); (0x1B45, 0x1B4C); (0x1B50, 0x1B59); (0x1B83, 0x1BA0);
   (0x1BAE, 0x1BE5); (0x1C00, 0x1C23); (0x1C40, 0x1C49); (0x1C4D, 0x1C7D);
   (0x1C80, 0x1C88); (0x1C90, 0x1CBA); (0x1CBD, 0x1CBF); (0x1CE9, 0x1CEC);
   (0x1CEE, 0x1CF3); (0x1CF5, 0x1CF6); (0x1CFA, 0x1CFA); (0x1D00, 0x1DBF);
   (0x1E00, 0x1F15); (0x1F18, 0x1F1D); (0x1F20, 0x1F45); (0x1F48, 0x1F4D);
   (0x1F50, 0x1F57); (0x1F59, 0x1F59); (0x1F5B, 0x1F5B); (0x1F5D, 0x1F5D);
   (0x1F5F, 0x1F7D); (0x1F80, 0x1FB4); (0x1FB6, 0x1FBC); (0x1FBE, 0x1FBE);
   (0x1FC2, 0x1FC4); (0x1FC6, 0x1FCC); (0x1FD0, 0x1FD3); (0x1FD6, 0x1FDB);
   (0x1FE0, 0x1FEC); (0x1FF2, 0x1FF4); (0x1FF6, 0x1FFC); (0x2070, 0x2071);
   (0x2074, 0x2079); (0x207F, 0x2089); (0x2090, 0x209C); (0x2102, 0x2102);
   (0x2107, 0x2107); (0x210A, 0x2113); (0x2115, 0x2115); (0x2119, 0x211D);
   (0x2124, 0x2124); (0x2126, 0x2126); (0x2128, 0x2128); (0x212A, 0x212D);
   (0x212F, 0x2139); (0x213C, 0x213F); (0x2145, 0x2149); (0x214E, 0x214E);
   (0x2150, 0x2189); (0x2460, 0x249B); (0x24EA, 0x24FF); (0x2776, 0x2793);
   (0x2C00, 0x2CE4); (0x2CEB, 0x2CEE); (0x2CF2, 0x2CF3); (0x2CFD, 0x2CFD);
   (0x2D00, 0x2D25); (0x2D27, 0x2D27); (0x2D2D, 0x2D2D); (0x2D30, 0x2D67);
   (0x2D6F, 0x2D6F); (0x2D80, 0x2D96); (0x2DA0, 0x2DA6); (0x2DA8, 0x2DAE);
   (0x2DB0, 0x2DB6); (0x2DB8, 0x2DBE); (0x2DC0, 0x2DC6); (0x2DC8, 0x2DCE);
   (0x2DD0, 0x2DD6); (0x2DD8, 0x2DDE); (0x2E2F, 0x2E2F); (0x3005, 0x3007);
   (0x3021, 0x3029); (0x3031, 0x3035); (0x3038, 0x303C); (0x3041, 0x3096);
   (0x309D, 0x309F); (0x30A1, 0x30FA); (0x30FC, 0x30FF); (0x3105, 0x312F);
   (0x3131, 0x318E); (0x3192, 0x3195); (0x31A0, 0x31BF); (0x31F0, 0x31FF);
   (0x3220, 0x3229); (0x3248, 0x324F); (0x3251, 0x325F); (0x3280, 0x3289);
   (0x32B1, 0x32BF); (0x3400, 0x4DBF); (0x4E00, 0xA48C); (0xA4D0, 0xA4FD);
   (0xA500, 0xA60C); (0xA610, 0xA62B); (0xA640, 0xA66E); (0xA67F, 0xA69D);
   (0xA6A0, 0xA6EF); (0xA717, 0xA71F); (0xA722, 0xA788); (0xA78B, 0xA7CA);
   (0xA7D0, 0xA7D1); (0xA7D3, 0xA7D3); (0xA7D5, 0xA7D9); (0xA7F2, 0xA801);
   (0xA803, 0xA805); (0xA807, 0xA80A); (0xA80C, 0xA822); (0xA830, 0xA835);
   (0xA840, 0xA873); (0xA882, 0xA8B3); (0xA8D0, 0xA8D9); (0xA8F2, 0xA8F7);
   (0xA8FB, 0xA8FB); (0xA8FD, 0xA8FE); (0xA900, 0xA925); (0xA930, 0xA946);
   (0xA960, 0xA97C); (0xA984, 0xA9B2); (0xA9CF, 0xA9D9); (0xA9E0, 0xA9E4);
   (0xA9E6, 0xA9FE); (0xAA00, 0xAA28); (0xAA40, 0xAA42); (0xAA44, 0xAA4B);
   (0xAA50, 0xAA59); (0xAA60, 0xAA76); (0xAA7A, 0xAA7A); (0xAA7E, 0xAAAF);
   (0xAAB1, 0xAAB1); (0xAAB5, 0xAAB6); (0xAAB9, 0xAABD); (0xAAC0, 0xAAC0);
   (0xAAC2, 0xAAC2); (0xAADB, 0xAADD); (0xAAE0, 0xAAEA); (0xAAF2, 0xAAF4);
   (0xAB01, 0xAB06); (0xAB09, 0xAB0E); (0xAB11, 0xAB16); (0xAB20, 0xAB26);
   (0xAB28, 0xAB2E); (0xAB30, 0xAB5A); (0xAB5C, 0xAB69); (0xAB70, 0xABE2);
   (0xABF0, 0xABF9); (0xAC00, 0xD7A3); (0xD7B0, 0xD7C6); (0xD7CB, 0xD7FB);
   (0xF900, 0xFA6D); (0xFA70, 0xFAD9); (0xFB00, 0xFB06); (0xFB13, 0xFB17);
   (0xFB1D, 0xFB1D); (0xFB1F, 0xFB28); (0xFB2A, 0xFB36); (0xFB38, 0xFB3C);
   (0xFB3E, 0xFB3E); (0xFB40, 0xFB41); (0xFB43, 0xFB44); (0xFB46, 0xFBB1);
   (0xFBD3, 0xFD3D); (0xFD50, 0xFD8F); (0xFD92, 0xFDC7); (0xFDF0, 0xFDFB);
   (0xFE70, 0xFE74); (0xFE76, 0xFEFC); (0xFF10, 0xFF19); (0xFF21, 0xFF3A);
   (0xFF41, 0xFF5A); (0xFF66, 0xFFBE); (0xFFC2, 0xFFC7); (0xFFCA, 0xFFCF);
   (0xFFD2, 0xFFD7); (0xFFDA, 0xFFDC); (0x10000, 0x1000B); (0x1000D, 0x10026);
   (0x10028, 0x1003A); (0x1003C, 0x1003D); (0x1003F, 0x1004D);
   (0x10050, 0x1005D); (0x10080, 0x100FA); (0x10107, 0x10133);
   (0x10140, 0x10178); (0x1018A, 0x1018B); (0x10280, 0x1029C);
   (0x102A0, 0x102D0); (0x102E1, 0x102FB); (0x10300, 0x10323);
   (0x1032D, 0x1034A); (0x10350, 0x10375); (0x10380, 0x1039D);
   (0x103A0, 0x103C3); (0x103C8, 0x103CF); (0x103D1, 0x103D5);
   (0x10400, 0x1049D); (0x104A0, 0x104A9); (0x104B0, 0x104D3);
   (0x104D8, 0x104FB); (0x10500, 0x10527); (0x10530, 0x10563);
   (0x10570, 0x1057A); (0x1057C, 0x1058A); (0x1058C, 0x10592);
   (0x10594, 0x10595); (0x10597, 0x105A1); (0x105A3, 0x105B1);
   (0x105B3, 0x105B9); (0x105BB, 0x105BC); (0x10600, 0x10736);
   (0x10740, 0x10755); (0x10760, 0x10767); (0x10780, 0x10785);
   (0x10787, 0x107B0); (0x107B2, 0x107BA); (0x10800, 0x10805);
   (0x10808, 0x10808); (0x1080A, 0x10835); (0x10837, 0x10838);
   (0x1083C, 0x1083C); (0x1083F, 0x10855); (0x10858, 0x10876);
   (0x10879, 0x1089E); (0x108A7, 0x108AF); (0x108E0, 0x108F2);
   (0x108F4, 0x108F5); (0x108FB, 0x1091B); (0x10920, 0x10939);
   (0x10980, 0x109B7); (0x109BC, 0x109CF); (0x109D2, 0x10A00);
   (0x10A10, 0x10A13); (0x10A15, 0x10A17); (0x10A19, 0x10A35);
   (0x10A40, 0x10A48); (0x10A60, 0x10A7E); (0x10A80, 0x10A9F);
   (0x10AC0, 0x10AC7); (0x10AC9, 0x10AE4); (0x10AEB, 0x10AEF);
   (0x10B00, 0x10B35); (0x10B40, 0x10B55); (0x10B58, 0x10B72);
   (0x10B78, 0x10B91); (0x10BA9, 0x10BAF); (0x10C00, 0x10C48);
   (0x10C80, 0x10CB2); (0x10CC0, 0x10CF2); (0x10CFA, 0x10D23);
   (0x10D30, 0x10D39); (0x10E60, 0x10E7E); (0x10E80, 0x10EA9);
   (0x10EB0, 0x10EB1); (0x10F00, 0x10F27); (0x10F30, 0x10F45);
   (0x10F51, 0x10F54); (0x10F70, 0x10F81); (0x10FB0, 0x10FCB);
   (0x10FE0, 0x10FF6); (0x11003, 0x11037); (0x11052, 0x1106F);
   (0x11071, 0x11072); (0x11075, 0x11075); (0x11083, 0x110AF);
   (0x110D0, 0x110E8); (0x110F0, 0x110F9); (0x11103, 0x11126);
   (0x11136, 0x1113F); (0x11144, 0x11144); (0x11147, 0x11147);
   (0x11150, 0x11172); (0x11176, 0x11176); (0x11183, 0x111B2);
   (0x111C1, 0x111C4); (0x111D0, 0x111DA); (0x111DC, 0x111DC);
   (0x111E1, 0x111F4); (0x11200, 0x11211); (0x11213, 0x1122B);
   (0x11280, 0x11286); (0x11288, 0x11288); (0x1128A, 0x1128D);
   (0x1128F, 0x1129D); (0x1129F, 0x112A8); (0x112B0, 0x112DE);
   (0x112F0, 0x112F9); (0x11305, 0x1130C); (0x1130F, 0x11310);
   (0x11313, 0x11328); (0x1132A, 0x11330); (0x11332, 0x11333);
   (0x11335, 0x11339); (0x1133D, 0x1133D); (0x11350, 0x11350);
   (0x1135D, 0x11361); (0x11400, 0x11434); (0x11447, 0x1144A);
   (0x11450, 0x11459); (0x1145F, 0x11461); (0x11480, 0x114AF);
   (0x114C4, 0x114C5); (0x114C7, 0x114C7); (0x114D0, 0x114D9);
   (0x11580, 0x115AE); (0x115D8, 0x115DB); (0x11600, 0x1162F);
   (0x11644, 0x11644); (0x11650, 0x11659); (0x11680, 0x116AA);
   (0x116B8, 0x116B8); (0x116C0, 0x116C9); (0x11700, 0x1171A);
   (0x11730, 0x1173B); (0x11740, 0x11746); (0x11800, 0x1182B);
   (0x118A0, 0x118F2); (0x118FF, 0x11906); (0x11909, 0x11909);
   (0x1190C, 0x11913); (0x11915, 0x11916); (0x11918, 0x1192F);
   (0x1193F, 0x1193F); (0x11941, 0x11941); (0x11950, 0x11959);
   (0x119A0, 0x119A7); (0x119AA, 0x119D0); (0x119E1, 0x119E1);
   (0x119E3, 0x119E3); (0x11A00, 0x11A00); (0x11A0B, 0x11A32);
   (0x11A3A, 0x11A3A); (0x11A50, 0x11A50); (0x11A5C, 0x11A89);
   (0x11A9D, 0x11A9D); (0x11AB0, 0x11AF8); (0x11C00, 0x11C08);
   (0x11C0A, 0x11C2E); (0x11C40, 0x11C40); (0x11C50, 0x11C6C);
   (0x11C72, 0x11C8F); (0x11D00, 0x11D06); (0x11D08, 0x11D09);
   (0x11D0B, 0x11D30); (0x11D46, 0x11D46); (0x11D50, 0x11D59);
   (0x11D60, 0x11D65); (0x11D67, 0x11D68); (0x11D6A, 0x11D89);
   (0x11D98, 0x11D98); (0x11DA0, 0x11DA9); (0x11EE0, 0x11EF2);
   (0x11FB0, 0x11FB0); (0x11FC0, 0x11FD4); (0x12000, 0x12399);
   (0x12400, 0x1246E); (0x12480, 0x12543); (0x12F90, 0x12FF0);
   (0x13000, 0x1342E); (0x14400, 0x14646); (0x16800, 0x16A38);
   (0x16A40, 0x16A5E); (0x16A60, 0x16A69); (0x16A70, 0x16ABE);
   (0x16AC0, 0x16AC9); (0x16AD0, 0x16AED); (0x16B00, 0x16B2F);
   (0x16B40, 0x16B43); (0x16B50, 0x16B59); (0x16B5B, 0x16B61);
   (0x16B63, 0x16B77); (0x16B7D, 0x16B8F); (0x16E40, 0x16E96);
   (0x16F00, 0x16F4A); (0x16F50, 0x16F50); (0x16F93, 0x16F9F);
   (0x16FE0, 0x16FE1); (0x16FE3, 0x16FE3); (0x17000, 0x187F7);
   (0x18800, 0x18CD5); (0x18D00, 0x18D08); (0x1AFF0, 0x1AFF3);
   (0x1AFF5, 0x1AFFB); (0x1AFFD, 0x1AFFE); (0x1B000, 0x1B122);
   (0x1B150, 0x1B152); (0x1B164, 0x1B167); (0x1B170, 0x1B2FB);
   (0x1BC00, 0x1BC6A); (0x1BC70, 0x1BC7C); (0x1BC80, 0x1BC88);
   (0x1BC90, 0x1BC99); (0x1D2E0, 0x1D2F3); (0x1D360, 0x1D378);
   (0x1D400, 0x1D454); (0x1D456, 0x1D49C); (0x1D49E, 0x1D49F);
   (0x1D4A2, 0x1D4A2); (0x1D4A5, 0x1D4A6); (0x1D4A9, 0x1D4AC);
   (0x1D4AE, 0x1D4B9); (0x1D4BB, 0x1D4BB); (0x1D4BD, 0x1D4C3);
   (0x1D4C5, 0x1D505); (0x1D507, 0x1D50A); (0x1D50D, 0x1D514);
   (0x1D516, 0x1D51C); (0x1D51E, 0x1D539); (0x1D53B, 0x1D53E);
   (0x1D540, 0x1D544); (0x1D546, 0x1D546); (0x1D54A, 0x1D550);
   (0x1D552, 0x1D6A5); (0x1D6A8, 0x1D6C0); (0x1D6C2, 0x1D6DA);
   (0x1D6DC, 0x1D6FA); (0x1D6FC, 0x1D714); (0x1D716, 0x1D734);
   (0x1D736, 0x1D74E); (0x1D750, 0x1D76E); (0x1D770, 0x1D788);
   (0x1D78A, 0x1D7A8); (0x1D7AA, 0x1D7C2); (0x1D7C4, 0x1D7CB);
   (0x1D7CE, 0x1D7FF); (0x1DF00, 0x1DF1E); (0x1E100, 0x1E12C);
   (0x1E137, 0x1E13D); (0x1E140, 0x1E149); (0x1E14E, 0x1E14E);
   (0x1E290, 0x1E2AD); (0x1E2C0, 0x1E2EB); (0x1E2F0, 0x1E2F9);
   (0x1E7E0, 0x1E7E6); (0x1E7E8, 0x1E7EB); (0x1E7ED, 0x1E7EE);
   (0x1E7F0, 0x1E7FE); (0x1E800, 0x1E8C4); (0x1E8C7, 0x1E8CF);
   (0x1E900, 0x1E943); (0x1E94B, 0x1E94B); (0x1E950, 0x1E959);
   (0x1EC71, 0x1ECAB); (0x1ECAD, 0x1ECAF); (0x1ECB1, 0x1ECB4);
   (0x1ED01, 0x1ED2D); (0x1ED2F, 0x1ED3D); (0x1EE00, 0x1EE03);
   (0x1EE05, 0x1EE1F); (0x1EE21, 0x1EE22); (0x1EE24, 0x1EE24);
   (0x1EE27, 0x1EE27); (0x1EE29, 0x1EE32); (0x1EE34, 0x1EE37);
   (0x1EE39, 0x1EE39); (0x1EE3B, 0x1EE3B); (0x1EE42, 0x1EE42);
   (0x1EE47, 0x1EE47); (0x1EE49, 0x1EE49); (0x1EE4B, 0x1EE4B);
   (0x1EE4D, 0x1EE4F); (0x1EE51, 0x1EE52); (0x1EE54, 0x1EE54);
   (0x1EE57, 0x1EE57); (0x1EE59, 0x1EE59); (0x1EE5B, 0x1EE5B);
   (0x1EE5D, 0x1EE5D); (0x1EE5F, 0x1EE5F); (0x1EE61, 0x1EE62);
   (0x1EE64, 0x1EE64); (0x1EE67, 0x1EE6A); (0x1EE6C, 0x1EE72);
   (0x1EE74, 0x1EE77); (0x1EE79, 0x1EE7C); (0x1EE7E, 0x1EE7E);
   (0x1EE80, 0x1EE89); (0x1EE8B, 0x1EE9B); (0x1EEA1, 0x1EEA3);
   (0x1EEA5, 0x1EEA9); (0x1EEAB, 0x1EEBB); (0x1F100, 0x1F10C);
   (0x1FBF0, 0x1FBF9); (0x20000, 0x2A6DF); (0x2A700, 0x2B738);
   (0x2B740, 0x2B81D); (0x2B820, 0x2CEA1); (0x2CEB0, 0x2EBE0);
   (0x2F800, 0x2FA1D); (0x30000, 0x3134A)
  ]%N.

(** The upper-case mappings onto one character, as runs
    [(first, last, step, target)]: the characters [first], [first + step],
    and so on up to [last] map onto [target], [target + step], and so
    on. *)
Definition Uppercase : list (N * N * N * N) :=
  [
   (0x61, 0x7A, 1, 0x41); (0xB5, 0xB5, 1, 0x39C); (0xE0, 0xF6, 1, 0xC0);
   (0xF8, 0xFE, 1, 0xD8); (0xFF, 0xFF, 1, 0x178); (0x101, 0x12F, 2, 0x100);
   (0x131, 0x131, 1, 0x49); (0x133, 0x137, 2, 0x132);
   (0x13A, 0x148, 2, 0x139); (0x14B, 0x177, 2, 0x14A);
   (0x17A, 0x17E, 2, 0x179); (0x17F, 0x17F, 1, 0x53);
   (0x180, 0x180, 1, 0x243); (0x183, 0x185, 2, 0x182);
   (0x188, 0x188, 1, 0x187); (0x18C, 0x18C, 1, 0x18B);
   (0x192, 0x192, 1, 0x191); (0x195, 0x195, 1, 0x1F6);
   (0x199, 0x199, 1, 0x198); (0x19A, 0x19A, 1, 0x23D);
   (0x19E, 0x19E, 1, 0x220); (0x1A1, 0x1A5, 2, 0x1A0);
   (0x1A8, 0x1A8, 1, 0x1A7); (0x1AD, 0x1AD, 1, 0x1AC);
   (0x1B0, 0x1B0, 1, 0x1AF); (0x1B4, 0x1B6, 2, 0x1B3);
   (0x1B9, 0x1B9, 1, 0x1B8); (0x1BD, 0x1BD, 1, 0x1BC);
   (0x1BF, 0x1BF, 1, 0x1F7); (0x1C5, 0x1C5, 1, 0x1C4);
   (0x1C6, 0x1C6, 1, 0x1C4); (0x1C8, 0x1C8, 1, 0x1C7);
   (0x1C9, 0x1C9, 1, 0x1C7); (0x1CB, 0x1CB, 1, 0x1CA);
   (0x1CC, 0x1CC, 1, 0x1CA); (0x1CE, 0x1DC, 2, 0x1CD);
   (0x1DD, 0x1DD, 1, 0x18E); (0x1DF, 0x1EF, 2, 0x1DE);
   (0x1F2, 0x1F2, 1, 0x1F1); (0x1F3, 0x1F3, 1, 0x1F1);
   (0x1F5, 0x1F5, 1, 0x1F4); (0x1F9, 0x21F, 2, 0x1F8);
   (0x223, 0x233, 2, 0x222); (0x23C, 0x23C, 1, 0x23B);
   (0x23F, 0x240, 1, 0x2C7E); (0x242, 0x242, 1, 0x241);
   (0x247, 0x24F, 2, 0x246); (0x250, 0x250, 1, 0x2C6F);
   (0x251, 0x251, 1, 0x2C6D); (0x252, 0x252, 1, 0x2C70);
   (0x253, 0x253, 1, 0x181); (0x254, 0x254, 1, 0x186);
   (0x256, 0x257, 1, 0x189); (0x259, 0x259, 1, 0x18F);
   (0x25B, 0x25B, 1, 0x190); (0x25C, 0x25C, 1, 0xA7AB);
   (0x260, 0x260, 1, 0x193); (0x261, 0x261, 1, 0xA7AC);
   (0x263, 0x263, 1, 0x194); (0x265, 0x265, 1, 0xA78D);
   (0x266, 0x266, 1, 0xA7AA); (0x268, 0x268, 1, 0x197);
   (0x269, 0x269, 1, 0x196); (0x26A, 0x26A, 1, 0xA7AE);
   (0x26B, 0x26B, 1, 0x2C62); (0x26C, 0x26C, 1, 0xA7AD);
   (0x26F, 0x26F, 1, 0x19C); (0x271, 0x271, 1, 0x2C6E);
   (0x272, 0x272, 1, 0x19D); (0x275, 0x275, 1, 0x19F);
   (0x27D, 0x27D, 1, 0x2C64); (0x280, 0x280, 1, 0x1A6);
   (0x282, 0x282, 1, 0xA7C5); (0x283, 0x283, 1, 0x1A9);
   (0x287, 0x287, 1, 0xA7B1); (0x288, 0x288, 1, 0x1AE);
   (0x289, 0x289, 1, 0x244); (0x28A, 0x28B, 1, 0x1B1);
   (0x28C, 0x28C, 1, 0x245); (0x292, 0x292, 1, 0x1B7);
   (0x29D, 0x29D, 1, 0xA7B2); (0x29E, 0x29E, 1, 0xA7B0);
   (0x345, 0x345, 1, 0x399); (0x371, 0x373, 2, 0x370);
   (0x377, 0x377, 1, 0x376); (0x37B, 0x37D, 1, 0x3FD);
   (0x3AC, 0x3AC, 1, 0x386); (0x3AD, 0x3AF, 1, 0x388);
   (0x3B1, 0x3C1, 1, 0x391); (0x3C2, 0x3C2, 1, 0x3A3);
   (0x3C3, 0x3CB, 1, 0x3A3); (0x3CC, 0x3CC, 1, 0x38C);
   (0x3CD, 0x3CE, 1, 0x38E); (0x3D0, 0x3D0, 1, 0x392);
   (0x3D1, 0x3D1, 1, 0x398); (0x3D5, 0x3D5, 1, 0x3A6);
   (0x3D6, 0x3D6, 1, 0x3A0); (0x3D7, 0x3D7, 1, 0x3CF);
   (0x3D9, 0x3EF, 2, 0x3D8); (0x3F0, 0x3F0, 1, 0x39A);
   (0x3F1, 0x3F1, 1, 0x3A1); (0x3F2, 0x3F2, 1, 0x3F9);
   (0x3F3, 0x3F3, 1, 0x37F); (0x3F5, 0x3F5, 1, 0x395);
   (0x3F8, 0x3F8, 1, 0x3F7); (0x3FB, 0x3FB, 1, 0x3FA);
   (0x430, 0x44F, 1, 0x410); (0x450, 0x45F, 1, 0x400);
   (0x461, 0x481, 2, 0x460); (0x48B, 0x4BF, 2, 0x48A);
   (0x4C2, 0x4CE, 2, 0x4C1); (0x4CF, 0x4CF, 1, 0x4C0);
   (0x4D1, 0x52F, 2, 0x4D0); (0x561, 0x586, 1, 0x531);
   (0x10D0, 0x10FA, 1, 0x1C90); (0x10FD, 0x10FF, 1, 0x1CBD);
   (0x13F8, 0x13FD, 1, 0x13F0); (0x1C80, 0x1C80, 1, 0x412);
   (0x1C81, 0x1C81, 1, 0x414); (0x1C82, 0x1C82, 1, 0x41E);
   (0x1C83, 0x1C84, 1, 0x421); (0x1C85, 0x1C85, 1, 0x422);
   (0x1C86, 0x1C86, 1, 0x42A); (0x1C87, 0x1C87, 1, 0x462);
   (0x1C88, 0x1C88, 1, 0xA64A); (0x1D79, 0x1D79, 1, 0xA77D);
   (0x1D7D, 0x1D7D, 1, 0x2C63); (0x1D8E, 0x1D8E, 1, 0xA7C6);
   (0x1E01, 0x1E95, 2, 0x1E00); (0x1E9B, 0x1E9B, 1, 0x1E60);
   (0x1EA1, 0x1EFF, 2, 0x1EA0); (0x1F00, 0x1F07, 1, 0x1F08);
   (0x1F10, 0x1F15, 1, 0x1F18); (0x1F20, 0x1F27, 1, 0x1F28);
   (0x1F30, 0x1F37, 1, 0x1F38); (0x1F40, 0x1F45, 1, 0x1F48);
   (0x1F51, 0x1F57, 2, 0x1F59); (0x1F60, 0x1F67, 1, 0x1F68);
   (0x1F70, 0x1F71, 1, 0x1FBA); (0x1F72, 0x1F75, 1, 0x1FC8);
   (0x1F76, 0x1F77, 1, 0x1FDA); (0x1F78, 0x1F79, 1, 0x1FF8);
   (0x1F7A, 0x1F7B, 1, 0x1FEA); (0x1F7C, 0x1F7D, 1, 0x1FFA);
   (0x1FB0, 0x1FB1, 1, 0x1FB8); (0x1FBE, 0x1FBE, 1, 0x399);
   (0x1FD0, 0x1FD1, 1, 0x1FD8); (0x1FE0, 0x1FE1, 1, 0x1FE8);
   (0x1FE5, 0x1FE5, 1, 0x1FEC); (0x214E, 0x214E, 1, 0x2132);
   (0x2170, 0x217F, 1, 0x2160); (0x2184, 0x2184, 1, 0x2183);
   (0x24D0, 0x24E9, 1, 0x24B6); (0x2C30, 0x2C5F, 1, 0x2C00);
   (0x2C61, 0x2C61, 1, 0x2C60); (0x2C65, 0x2C65, 1, 0x23A);
   (0x2C66, 0x2C66, 1, 0x23E); (0x2C68, 0x2C6C, 2, 0x2C67);
   (0x2C73, 0x2C73, 1, 0x2C72); (0x2C76, 0x2C76, 1, 0x2C75);
   (0x2C81, 0x2CE3, 2, 0x2C80); (0x2CEC, 0x2CEE, 2, 0x2CEB);
   (0x2CF3, 0x2CF3, 1, 0x2CF2); (0x2D00, 0x2D25, 1, 0x10A0);
   (0x2D27, 0x2D27, 1, 0x10C7); (0x2D2D, 0x2D2D, 1, 0x10CD);
   (0xA641, 0xA66D, 2, 0xA640); (0xA681, 0xA69B, 2, 0xA680);
   (0xA723, 0xA72F, 2, 0xA722); (0xA733, 0xA76F, 2, 0xA732);
   (0xA77A, 0xA77C, 2, 0xA779); (0xA77F, 0xA787, 2, 0xA77E);
   (0xA78C, 0xA78C, 1, 0xA78B); (0xA791, 0xA793, 2, 0xA790);
   (0xA794, 0xA794, 1, 0xA7C4); (0xA797, 0xA7A9, 2, 0xA796);
   (0xA7B5, 0xA7C3, 2, 0xA7B4); (0xA7C8, 0xA7CA, 2, 0xA7C7);
   (0xA7D1, 0xA7D1, 1, 0xA7D0); (0xA7D7, 0xA7D9, 2, 0xA7D6);
   (0xA7F6, 0xA7F6, 1, 0xA7F5); (0xAB53, 0xAB53, 1, 0xA7B3);
   (0xAB70, 0xABBF, 1, 0x13A0); (0xFF41, 0xFF5A, 1, 0xFF21);
   (0x10428, 0x1044F, 1, 0x10400); (0x104D8, 0x104FB, 1, 0x104B0);
   (0x10597, 0x105A1, 1, 0x10570); (0x105A3, 0x105B1, 1, 0x1057C);
   (0x105B3, 0x105B9, 1, 0x1058C); (0x105BB, 0x105BC, 1, 0x10594);
   (0x10CC0, 0x10CF2, 1, 0x10C80); (0x118C0, 0x118DF, 1, 0x118A0);
   (0x16E60, 0x16E7F, 1, 0x16E40); (0x1E922, 0x1E943, 1, 0x1E900)
  ]%N.

(** The upper-case mappings onto more than one character. *)
Definition Uppercase_full : list (N * list N) :=
  [
   (0xDF, [0x53; 0x53]); (0x149, [0x2BC; 0x4E]); (0x1F0, [0x4A; 0x30C]);
   (0x390, [0x399; 0x308; 0x301]); (0x3B0, [0x3A5; 0x308; 0x301]);
   (0x587, [0x535; 0x552]); (0x1E96, [0x48; 0x331]); (0x1E97, [0x54; 0x308]);
   (0x1E98, [0x57; 0x30A]); (0x1E99, [0x59; 0x30A]); (0x1E9A, [0x41; 0x2BE]);
   (0x1F50, [0x3A5; 0x313]); (0x1F52, [0x3A5; 0x313; 0x300]);
   (0x1F54, [0x3A5; 0x313; 0x301]); (0x1F56, [0x3A5; 0x313; 0x342]);
   (0x1F80, [0x1F08; 0x399]); (0x1F81, [0x1F09; 0x399]);
   (0x1F82, [0x1F0A; 0x399]); (0x1F83, [0x1F0B; 0x399]);
   (0x1F84, [0x1F0C; 0x399]); (0x1F85, [0x1F0D; 0x399]);
   (0x1F86, [0x1F0E; 0x399]); (0x1F87, [0x1F0F; 0x399]);
   (0x1F88, [0x1F08; 0x399]); (0x1F89, [0x1F09; 0x399]);
   (0x1F8A, [0x1F0A; 0x399]); (0x1F8B, [0x1F0B; 0x399]);
   (0x1F8C, [0x1F0C; 0x399]); (0x1F8D, [0x1F0D; 0x399]);
   (0x1F8E, [0x1F0E; 0x399]); (0x1F8F, [0x1F0F; 0x399]);
   (0x1F90, [0x1F28; 0x399]); (0x1F91, [0x1F29; 0x399]);
   (0x1F92, [0x1F2A; 0x399]); (0x1F93, [0x1F2B; 0x399]);
   (0x1F94, [0x1F2C; 0x399]); (0x1F95, [0x1F2D; 0x399]);
   (0x1F96, [0x1F2E; 0x399]); (0x1F97, [0x1F2F; 0x399]);
   (0x1F98, [0x1F28; 0x399]); (0x1F99, [0x1F29; 0x399]);
   (0x1F9A, [0x1F2A; 0x399]); (0x1F9B, [0x1F2B; 0x399]);
   (0x1F9C, [0x1F2C; 0x399]); (0x1F9D, [0x1F2D; 0x399]);
   (0x1F9E, [0x1F2E; 0x399]); (0x1F9F, [0x1F2F; 0x399]);
   (0x1FA0, [0x1F68; 0x399]); (0x1FA1, [0x1F69; 0x399]);
   (0x1FA2, [0x1F6A; 0x399]); (0x1FA3, [0x1F6B; 0x399]);
   (0x1FA4, [0x1F6C; 0x399]); (0x1FA5, [0x1F6D; 0x399]);
   (0x1FA6, [0x1F6E; 0x399]); (0x1FA7, [0x1F6F; 0x399]);
   (0x1FA8, [0x1F68; 0x399]); (0x1FA9, [0x1F69; 0x399]);
   (0x1FAA, [0x1F6A; 0x399]); (0x1FAB, [0x1F6B; 0x399]);
   (0x1FAC, [0x1F6C; 0x399]); (0x1FAD, [0x1F6D; 0x399]);
   (0x1FAE, [0x1F6E; 0x399]); (0x1FAF, [0x1F6F; 0x399]);
   (0x1FB2, [0x1FBA; 0x399]); (0x1FB3, [0x391; 0x399]);
   (0x1FB4, [0x386; 0x399]); (0x1FB6, [0x391; 0x342]);
   (0x1FB7, [0x391; 0x342; 0x399]); (0x1FBC, [0x391; 0x399]);
   (0x1FC2, [0x1FCA; 0x399]); (0x1FC3, [0x397; 0x399]);
   (0x1FC4, [0x389; 0x399]); (0x1FC6, [0x397; 0x342]);
   (0x1FC7, [0x397; 0x342; 0x399]); (0x1FCC, [0x397; 0x399]);
   (0x1FD2, [0x399; 0x308; 0x300]); (0x1FD3, [0x399; 0x308; 0x301]);
   (0x1FD6, [0x399; 0x342]); (0x1FD7, [0x399; 0x308; 0x342]);
   (0x1FE2, [0x3A5; 0x308; 0x300]); (0x1FE3, [0x3A5; 0x308; 0x301]);
   (0x1FE4, [0x3A1; 0x313]); (0x1FE6, [0x3A5; 0x342]);
   (0x1FE7, [0x3A5; 0x308; 0x342]); (0x1FF2, [0x1FFA; 0x399]);
   (0x1FF3, [0x3A9; 0x399]); (0x1FF4, [0x38F; 0x399]);
   (0x1FF6, [0x3A9; 0x342]); (0x1FF7, [0x3A9; 0x342; 0x399]);
   (0x1FFC, [0x3A9; 0x399]); (0xFB00, [0x46; 0x46]); (0xFB01, [0x46; 0x49]);
   (0xFB02, [0x46; 0x4C]); (0xFB03, [0x46; 0x46; 0x49]);
   (0xFB04, [0x46; 0x46; 0x4C]); (0xFB05, [0x53; 0x54]);
   (0xFB06, [0x53; 0x54]); (0xFB13, [0x544; 0x546]); (0xFB14, [0x544; 0x535]);
   (0xFB15, [0x544; 0x53B]); (0xFB16, [0x54E; 0x546]);
   (0xFB17, [0x544; 0x53D])
  ]%N.

Definition in_run (c : N) (r : N * N * N * N) : option N :=
  match r with
  | (first, last, step, target) =>
      if (N.leb first c && N.leb c last
          && N.eqb (N.modulo (c - first) step) 0)%bool
      then Some (target + (c - first))%N
      else None
  end.

Fixpoint simple (t : list (N * N * N * N)) (c : N) : option N :=
  match t with
  | [] => None
  | r :: t' =>
      match in_run c r with
      | Some u => Some u
      | None => simple t' c
      end
  end.

Fixpoint full (t : list (N * list N)) (c : N) : option (list N) :=
  match t with
  | [] => None
  | (c', l) :: t' => if N.eqb c' c then Some l else full t' c
  end.

(** The upper-case form of one character. *)
Definition to_upper (c : N) : list N :=
  match full Uppercase_full c with
  | Some l => l
  | None =>
      match simple Uppercase c with
      | Some u => [u]
      | None => [c]
      end
  end.

End Unicode.

(* ================================================================== *)
(** * Python strings *)
(* ================================================================== *)

Module Py.

(** A character, as its code point. *)
Definition char : Type := N.

Definition str : Type := list char.

(** The code point of a character below U+0100. *)
Definition ord (c : ascii) : char := N_of_ascii c.

(** A string literal of the program (all of them are ASCII). *)
Definition chars (s : string) : list char := map ord (list_ascii_of_string s).

Definition LF : char := 10%N.

Definition between (lo hi : N) (c : char) : bool :=
  (N.leb lo c && N.leb c hi)%bool.

(** [str.isspace] on one character, which is also what [\s] tests and
    what [strip] removes. *)
Definition isspace (c : char) : bool :=
  Unicode.in_ranges Unicode.Whitespace c.

(** [str.isalnum] on one character. *)
Definition isalnum (c : char) : bool :=
  Unicode.in_ranges Unicode.Alphanumeric c.

(** What [\w] tests: an alphanumeric character or the underscore. *)
Definition isword (c : char) : bool :=
  (isalnum c || N.eqb c 95)%bool.

(** [c.upper()] for a one-character string [c]; the outcome can have more
    than one character. *)
Definition upper_char (c : char) : str := Unicode.to_upper c.

Definition eqc (a b : char) : bool := N.eqb a b.

(** [a == b] on strings *)
Fixpoint eqs (a b : str) : bool :=
  match a, b with
  | [], [] => true
  | x :: a', y :: b' => (eqc x y && eqs a' b')%bool
  | _, _ => false
  end.

(** [s.upper()]: character by character, whatever stands around. *)
Definition upper (s : str) : str := flat_map upper_char s.

(** [s.startswith(p)] *)
Fixpoint startswith (s p : str) {struct p} : bool :=
  match p, s with
  | [], _ => true
  | _ :: _, [] => false
  | b :: p', a :: s' => (eqc a b && startswith s' p')%bool
  end.

(** [s.lstrip()], [s.rstrip()] and [s.strip()] *)
Fixpoint lstrip (s : str) : str :=
  match s with
  | c :: s' => if isspace c then lstrip s' else s
  | [] => []
  end.

Definition rstrip (s : str) : str := rev (lstrip (rev s)).

Definition strip (s : str) : str := rstrip (lstrip s).

(** [s.count(c)] for a one-character [c] *)
Fixpoint count (c : char) (s : str) : Z :=
  match s with
  | [] => 0
  | a :: s' => (if eqc a c then 1 else 0) + count c s'
  end.

(** [len(s)] *)
Definition len (s : str) : Z := Z.of_nat (List.length s).

(** How a slice bound is read: a negative bound counts from the end, and
    the outcome is clipped to [0 .. len]. *)
Definition clip (n i : Z) : Z :=
  let j := if i <? 0 then i + n else i in
  Z.max 0 (Z.min n j).

(** [s[i:j]] *)
Definition slice (s : str) (i j : Z) : str :=
  let a := clip (len s) i in
  let b := clip (len s) j in
  firstn (Z.to_nat (b - a)) (skipn (Z.to_nat a) s).

(** First index of [c] in [s], counted from [i]; [-1] when there is none. *)
Fixpoint index_from (c : char) (s : str) (i : Z) : Z :=
  match s with
  | [] => -1
  | a :: s' => if eqc a c then i else index_from c s' (i + 1)
  end.

(** Last index of [c] in [s], counted from [i]; [-1] when there is none. *)
Fixpoint rindex_from (c : char) (s : str) (i : Z) : Z :=
  match s with
  | [] => -1
  | a :: s' =>
      let r := rindex_from c s' (i + 1) in
      if 0 <=? r then r else if eqc a c then i else -1
  end.

(** [s.find(c, start)] for a one-character [c] *)
Definition find (c : char) (s : str) (start : Z) : Z :=
  let a := clip (len s) start in
  if len s <? start then -1
  else index_from c (skipn (Z.to_nat a) s) a.

(** [s.rfind(c, start, stop)] for a one-character [c] *)
Definition rfind (c : char) (s : str) (start stop : Z) : Z :=
  let a := clip (len s) start in
  let b := clip (len s) stop in
  if len s <? start then -1
  else rindex_from c (firstn (Z.to_nat (b - a)) (skipn (Z.to_nat a) s)) a.

(** [s.replace(c, by)] for a one-character [c] *)
Fixpoint replace (c : char) (by_ : str) (s : str) : str :=
  match s with
  | [] => []
  | a :: s' => if eqc a c then by_ ++ replace c by_ s' else a :: replace c by_ s'
  end.

(** What an f-string prints for a value that may be [None]. *)
Definition fmt (o : option str) : str :=
  match o with
  | Some s => s
  | None => chars "None"
  end.

(** Exceptions that the modelled operations can raise. *)
Inductive exn : Type :=
| KeyError
| IndexError
| AttributeError
| ReferenceError.

Inductive result (A : Type) : Type :=
| Ok (a : A)
| Raise (e : exn).

Arguments Ok {A} a.
Arguments Raise {A} e.

Definition bind {A B : Type} (r : result A) (f : A -> result B) : result B :=
  match r with
  | Ok a => f a
  | Raise e => Raise e
  end.

(** [d[k]] on a dict literal with string keys *)
Fixpoint getitem {V : Type} (d : list (str * V)) (k : str) : result V :=
  match d with
  | [] => Raise KeyError
  | (k', v) :: d' => if eqs k' k then Ok v else getitem d' k
  end.

End Py.

Coercion Py.chars : string >-> list.

Notation "x <- r ;; k" := (Py.bind r (fun x => k))
  (at level 61, r at next level, right associativity).

Import Py.

Arguments isspace : simpl never.
Arguments isalnum : simpl never.
Arguments isword : simpl never.
Arguments upper_char : simpl never.

(* ================================================================== *)
(** * The [re] module: patterns, matching, [finditer] *)
(* ================================================================== *)

Module Re.

(** One-character classes of the pattern language. *)
Inductive cls : Type :=
| Space   (* \s *)
| Word.   (* \w *)

Definition in_cls (k : cls) (c : char) : bool :=
  match k with
  | Space => isspace c
  | Word => isword c
  end.

(** Pattern syntax, as far as [ARITH_RE] uses it. *)
Inductive regex : Type :=
| Eps
| Bol                              (* ^ *)
| Lit (c : ascii)                  (* one literal character *)
| Star (k : cls)                   (* k*, greedy *)
| Plus (k : cls)                   (* k+, greedy *)
| Cat (r1 r2 : regex)              (* r1 r2 *)
| Alt (r1 r2 : regex)              (* r1 | r2, tried in this order *)
| Grp (name : string) (r : regex). (* (?P<name> r) *)

(** A compiled pattern: its syntax tree and the flags given to [compile]. *)
Record Pattern : Type := {
  re : regex;
  IGNORECASE : bool;
  MULTILINE : bool
}.

(** Spans of the groups that took part in a match, most recent first. *)
Definition marks : Type := list (string * (nat * nat)).

(** A match object: the searched string, the span of the whole match, and
    the group spans, together with the names the pattern declares. *)
Record Match : Type := {
  m_string : str;
  m_start : nat;
  m_end : nat;
  m_marks : marks;
  m_names : list string
}.

Fixpoint names (r : regex) : list string :=
  match r with
  | Cat r1 r2 | Alt r1 r2 => names r1 ++ names r2
  | Grp n r1 => n :: names r1
  | _ => []
  end.

(** The characters beyond the two cases of a letter that a literal takes
    when case is ignored: [re] puts the character of the text in lower
    case and compares it with the literal in lower case and with the
    "extra cases" of that letter.  So the literal [I] also takes U+0130
    (capital I with dot above) and U+0131 (dotless i), [S] the long s
    U+017F, [K] the Kelvin sign U+212A. *)
Definition extra_cases (n : char) : list char :=
  (if N.eqb n 0x49 || N.eqb n 0x69 then [0x130; 0x131]
   else if N.eqb n 0x4B || N.eqb n 0x6B then [0x212A]
   else if N.eqb n 0x53 || N.eqb n 0x73 then [0x17F]
   else if N.eqb n 0xB5 then [0x39C; 0x3BC]
   else if N.eqb n 0xC5 || N.eqb n 0xE5 then [0x212B]
   else if N.eqb n 0xDF then [0x1E9E]
   else if N.eqb n 0xFF then [0x178]
   else [])%N%bool.

(** The characters that the literal [c] takes when case is ignored. *)
Definition ignorecase (c : ascii) : list char :=
  let n := ord c in
  ((if between 0x41 0x5A n
       || (between 0xC0 0xDE n && negb (N.eqb n 0xD7))
    then [n; n + 32]
    else if between 0x61 0x7A n
            || (between 0xE0 0xFE n && negb (N.eqb n 0xF7))
    then [n - 32; n]
    else [n]) ++ extra_cases n)%N%bool.

Section Matching.

Variable p : Pattern.
Variable src : str.
Variable R : Type.

(** [^]: the start of the text, and with [MULTILINE] also the position just
    after a line feed. *)
Definition at_bol (pos : nat) : bool :=
  match pos with
  | O => true
  | S q => (MULTILINE p && match nth_error src q with
                           | Some c => eqc c LF
                           | None => false
                           end)%bool
  end.

(** A literal against a character of the text. *)
Definition lit_eq (c : ascii) (x : char) : bool :=
  if IGNORECASE p then existsb (eqc x) (ignorecase c) else eqc x (ord c).

(** Greedy repetition: take as many characters of the class as there are,
    and give back one at a time while the continuation fails. *)
Fixpoint many (k : cls) (pos : nat) (rest : str)
    (cont : nat -> str -> option R) : option R :=
  match rest with
  | c :: rest' =>
      if in_cls k c then
        match many k (S pos) rest' cont with
        | Some r => Some r
        | None => cont pos rest
        end
      else cont pos rest
  | [] => cont pos rest
  end.

(** The backtracking matcher, in continuation-passing style: [pos] is the
    offset reached in [src], [rest] the text from there on, [ms] the group
    spans set so far. *)
Fixpoint run (r : regex) (pos : nat) (rest : str) (ms : marks)
    (cont : nat -> str -> marks -> option R) {struct r} : option R :=
  match r with
  | Eps => cont pos rest ms
  | Bol => if at_bol pos then cont pos rest ms else None
  | Lit c =>
      match rest with
      | x :: rest' => if lit_eq c x then cont (S pos) rest' ms else None
      | [] => None
      end
  | Star k => many k pos rest (fun pos' rest' => cont pos' rest' ms)
  | Plus k =>
      match rest with
      | x :: rest' =>
          if in_cls k x
          then many k (S pos) rest' (fun pos' rest' => cont pos' rest' ms)
          else None
      | [] => None
      end
  | Cat r1 r2 =>
      run r1 pos rest ms (fun pos' rest' ms' => run r2 pos' rest' ms' cont)
  | Alt r1 r2 =>
      match run r1 pos rest ms cont with
      | Some x => Some x
      | None => run r2 pos rest ms cont
      end
  | Grp n r1 =>
      run r1 pos rest ms
        (fun pos' rest' ms' => cont pos' rest' ((n, (pos, pos')) :: ms'))
  end.

End Matching.

(** One attempt of the pattern at offset [pos], where [rest] is the text
    from [pos] on. *)
Definition match_at (p : Pattern) (src : str) (pos : nat) (rest : str)
    : option Match :=
  run p src (re p) pos rest []
    (fun pos' _ ms =>
       Some {| m_string := src; m_start := pos; m_end := pos';
               m_marks := ms; m_names := names (re p) |}).

(** The scan behind [finditer]: offsets are tried from left to right; an
    offset inside the previous match (below [resume]) is passed over, and
    after a match the scan goes on from its end. *)
Fixpoint scan (p : Pattern) (src : str) (pos : nat) (rest : str)
    (resume : nat) : list Match :=
  let here := if Nat.ltb pos resume then None else match_at p src pos rest in
  match here, rest with
  | Some m, _ :: rest' =>
      m :: scan p src (S pos) rest' (Nat.max (m_end m) (S pos))
  | Some m, [] => [m]
  | None, _ :: rest' => scan p src (S pos) rest' resume
  | None, [] => []
  end.

(** [p.finditer(src)], as the list of its matches. *)
Definition finditer (p : Pattern) (src : str) : list Match :=
  scan p src 0 src 0.

Fixpoint lookup (ms : marks) (n : string) : option (nat * nat) :=
  match ms with
  | [] => None
  | (n', sp) :: ms' => if String.eqb n' n then Some sp else lookup ms' n
  end.

(** [m.group(name)]: the text of the group, [None] when the group took no
    part in the match, [IndexError] when the pattern has no such group. *)
Definition group (m : Match) (n : string) : result (option str) :=
  if existsb (String.eqb n) (m_names m) then
    Ok (match lookup (m_marks m) n with
        | Some (a, b) => Some (slice (m_string m) (Z.of_nat a) (Z.of_nat b))
        | None => None
        end)
  else Raise IndexError.

(** [m.start()] and [m.end()] *)
Definition start (m : Match) : Z := Z.of_nat (m_start m).
Definition end_ (m : Match) : Z := Z.of_nat (m_end m).

End Re.

(* ================================================================== *)
(** * Models *)
(* ================================================================== *)

Record Finding : Type := {
  prog_name : option str;
  incl_name : option str;
  types : option str;
  blockname : option str;
  starting_line : option Z;
  ending_line : option Z;
  issues_type : option str;
  severity : option str;
  message : option str;
  suggestion : option str;
  snippet : option str
}.

Record Unit : Type := {
  pgm_name : str;
  inc_name : str;
  type : str;
  name : option str;
  class_implementation : option str;
  start_line : Z;
  end_line : Z;
  code : option str;
  findings : option (list Finding)
}.

(* ================================================================== *)
(** * Regex *)
(* ================================================================== *)

Import Re.

(** The characters of a keyword, one literal after the other. *)
Definition word (s : string) : regex :=
  fold_right (fun c r => Cat (Lit c) r) Eps (list_ascii_of_string s).

(** [KEYWORD\s+(?P<val>\w+)\s+LINK\s+(?P<target>\w+)] *)
Definition form (keyword val link target : string) : regex :=
  Cat (word keyword)
   (Cat (Plus Space)
    (Cat (Grp val (Plus Word))
     (Cat (Plus Space)
      (Cat (word link)
       (Cat (Plus Space)
        (Grp target (Plus Word))))))).

Definition ARITH_RE : Pattern := {|
  re :=
    Cat Bol
     (Cat (Star Space)
      (Cat (Grp "stmt"
             (Alt (form "ADD" "add_val" "TO" "add_target")
              (Alt (form "SUBTRACT" "sub_val" "FROM" "sub_target")
               (Alt (form "MULTIPLY" "mul_val" "BY" "mul_target")
                    (form "DIVIDE" "div_val" "BY" "div_target")))))
           (Lit ".")));
  IGNORECASE := true;
  MULTILINE := true
|}.

(* ================================================================== *)
(** * Helper *)
(* ================================================================== *)

Definition extract_exact_line (src : str) (start : Z) : str :=
  let line_start := rfind LF src 0 start in
  let line_start := if line_start =? -1 then 0 else line_start + 1 in
  let line_end := find LF src start in
  let line_end := if line_end =? -1 then len src else line_end in
  slice src line_start line_end.

(** The dict literal inside the suggestion's f-string. *)
Definition operators : list (str * str) :=
  [ (chars "ADD", chars "+=");
    (chars "SUBTRACT", chars "-=");
    (chars "MULTIPLY", chars "*=");
    (chars "DIVIDE", chars "/=") ].

Definition make_finding (unit : Unit) (src : str) (start end_ : Z)
    (stmt_type : str) (value target : option str) (original_stmt : str)
    : result Finding :=
  let abs_start := start_line unit + count LF (slice src 0 start) in
  let abs_end := abs_start in
  let snippet := replace LF (chars "\n") (extract_exact_line src start) in
  op <- getitem operators stmt_type ;;
  let suggestion :=
    "Replace '" ++ original_stmt ++ "' with '" ++ fmt target ++ " " ++ op
      ++ " " ++ fmt value ++ "'." in
  Ok {| prog_name := Some (pgm_name unit);
        incl_name := Some (inc_name unit);
        types := Some (type unit);
        blockname := name unit;
        starting_line := Some abs_start;
        ending_line := Some abs_end;
        issues_type := Some ("Obsolete" ++ stmt_type ++ "Usage");
        severity := Some (chars "error");
        message := Some ("Obsolete '" ++ stmt_type ++ "' statement detected.");
        suggestion := Some suggestion;
        snippet := Some snippet |}.

(* ================================================================== *)
(** * Scanner *)
(* ================================================================== *)

(** [m.group("stmt").strip()]: [None] has no [strip]. *)
Definition stripped (g : option str) : result str :=
  match g with
  | Some s => Ok (strip s)
  | None => Raise AttributeError
  end.

(** The [if]/[elif] chain of the loop body: the statement type with the two
    operands read from the match, or [None] where the body says
    [continue]. *)
Definition classify (m : Match) (stmt : str)
    : result (option (str * option str * option str)) :=
  if startswith (upper stmt) "ADD" then
    value <- group m "add_val" ;;
    target <- group m "add_target" ;;
    Ok (Some (chars "ADD", value, target))
  else if startswith (upper stmt) "SUBTRACT" then
    value <- group m "sub_val" ;;
    target <- group m "sub_target" ;;
    Ok (Some (chars "SUBTRACT", value, target))
  else if startswith (upper stmt) "MULTIPLY" then
    value <- group m "mul_val" ;;
    target <- group m "mul_target" ;;
    Ok (Some (chars "MULTIPLY", value, target))
  else if startswith (upper stmt) "DIVIDE" then
    value <- group m "div_val" ;;
    target <- group m "div_target" ;;
    Ok (Some (chars "DIVIDE", value, target))
  else Ok None.

(** One turn of the loop over the matches: [findings] is the list built so
    far. *)
Definition scan_match (unit : Unit) (src : str) (findings : list Finding)
    (m : Match) : result (list Finding) :=
  g <- group m "stmt" ;;
  stmt <- stripped g ;;
  let start := Re.start m in
  let end_ := Re.end_ m in
  c <- classify m stmt ;;
  match c with
  | Some (stmt_type, value, target) =>
      f <- make_finding unit src start end_ stmt_type value target stmt ;;
      Ok (findings ++ [f])
  | None => Ok findings
  end.

(** The whole loop [for m in ARITH_RE.finditer(src)]. *)
Fixpoint scan_matches (unit : Unit) (src : str) (findings : list Finding)
    (ms : list Match) : result (list Finding) :=
  match ms with
  | [] => Ok findings
  | m :: ms' =>
      findings' <- scan_match unit src findings m ;;
      scan_matches unit src findings' ms'
  end.

(** [x or s] on an optional string, for the empty string [s]: [None] and
    the empty string are falsy. *)
Definition or_empty (x : option str) : str :=
  match x with
  | Some (c :: s) => c :: s
  | _ => []
  end.

(** [x if x else None] on a list. *)
Definition if_any {A : Type} (x : list A) : option (list A) :=
  match x with
  | [] => None
  | _ :: _ => Some x
  end.

(** ** The object store

    A [Unit] instance is a cell of the store and is passed around by
    reference; instances are created by [new] and changed by attribute
    assignment. *)

Definition ref : Type := nat.
Definition store : Type := list Unit.
Definition M (A : Type) : Type := store -> result (A * store).

Definition ret {A : Type} (a : A) : M A := fun h => Ok (a, h).

Definition bindM {A B : Type} (c : M A) (f : A -> M B) : M B :=
  fun h => match c h with
           | Ok (a, h') => f a h'
           | Raise e => Raise e
           end.

Definition lift {A : Type} (r : result A) : M A :=
  fun h => match r with
           | Ok a => Ok (a, h)
           | Raise e => Raise e
           end.

Notation "x <~ c ;; k" := (bindM c (fun x => k))
  (at level 61, c at next level, right associativity).

(** Reading the attributes of the instance behind [r]. *)
Definition load (r : ref) : M Unit :=
  fun h => match nth_error h r with
           | Some u => Ok (u, h)
           | None => Raise ReferenceError
           end.

(** The constructor call on dumped field values: a new instance. *)
Definition new (fields : Unit) : M ref :=
  fun h => Ok (List.length h, h ++ [fields]).

Fixpoint update (h : store) (r : ref) (f : Unit -> Unit) : option store :=
  match h, r with
  | [], _ => None
  | u :: h', O => Some (f u :: h')
  | u :: h', S r' => option_map (cons u) (update h' r' f)
  end.

Definition with_findings (v : option (list Finding)) (u : Unit) : Unit :=
  {| pgm_name := pgm_name u;
     inc_name := inc_name u;
     type := type u;
     name := name u;
     class_implementation := class_implementation u;
     start_line := start_line u;
     end_line := end_line u;
     code := code u;
     findings := v |}.

(** [r.findings = v] *)
Definition set_findings (r : ref) (v : option (list Finding)) : M unit :=
  fun h => match update h r (with_findings v) with
           | Some h' => Ok (tt, h')
           | None => Raise ReferenceError
           end.

(** [unit.model_dump()]: the field values of the instance. *)
Definition model_dump (u : Unit) : Unit := u.

(** The loop reads the attributes of [unit] and writes nothing to the
    store, so the instance is read once, before the loop. *)
Definition scan_unit (unit : ref) : M ref :=
  u <~ load unit ;;
  let src := or_empty (code u) in
  findings <~ lift (scan_matches u src [] (finditer ARITH_RE src)) ;;
  out <~ new (model_dump u) ;;
  _ <~ set_findings out (if_any findings) ;;
  ret out.

(* ================================================================== *)
(** * Endpoints *)
(* ================================================================== *)

(** [if res.findings:] *)
Definition truthy {A : Type} (x : option (list A)) : bool :=
  match x with
  | Some (_ :: _) => true
  | _ => false
  end.

Fixpoint arithmetic_array_loop (units : list ref) (results : list ref)
    : M (list ref) :=
  match units with
  | [] => ret results
  | u :: units' =>
      res <~ scan_unit u ;;
      r <~ load res ;;
      arithmetic_array_loop units'
        (if truthy (findings r) then results ++ [res] else results)
  end.

Definition arithmetic_array (units : list ref) : M (list ref) :=
  arithmetic_array_loop units [].

Definition arithmetic_single (unit : ref) : M ref := scan_unit unit.

(* ================================================================== *)
(** * Vocabulary of the properties *)
(* ================================================================== *)

(** The [Unit] that [scan_unit] returns for the instance behind [unit], read
    from the store after the call. *)
Definition scanUnit (h : store) (unit : ref) : result Unit :=
  match (out <~ scan_unit unit ;; load out) h with
  | Ok (u', _) => Ok u'
  | Raise e => Raise e
  end.

(** The text that [scan_unit] scans for the unit [u]. *)
Definition source (u : Unit) : str := or_empty (code u).

(** The unit that a scan of [u] returns, as a value. *)
Definition scanned (u : Unit) : Unit :=
  with_findings
    (if_any (match scan_matches u (source u) [] (finditer ARITH_RE (source u)) with
             | Ok fs => fs
             | Raise _ => []
             end)) u.

(** The loop of the scan over the text of [u] ends with the list [fs] of
    findings. *)
Definition detects (u : Unit) (fs : list Finding) : Prop :=
  scan_matches u (source u) [] (finditer ARITH_RE (source u)) = Ok fs.

(** The references that the batch keeps, when the copies of the units [us]
    are created from address [base] on. *)
Fixpoint kept (base : nat) (us : list Unit) : list ref :=
  match us with
  | [] => []
  | u :: us' =>
      (if truthy (findings (scanned u)) then [base] else [])
        ++ kept (S base) us'
  end.

(** ** What a pattern can consume *)

(** [den p src r pos rest ms pos' rest' ms']: the pattern [r] can take the
    matcher from offset [pos] (text [rest], groups [ms]) to offset [pos']
    (text [rest'], groups [ms']). *)
Fixpoint den (p : Pattern) (src : str) (r : regex) (pos : nat) (rest : str)
    (ms : marks) (pos' : nat) (rest' : str) (ms' : marks) : Prop :=
  match r with
  | Eps => pos' = pos /\ rest' = rest /\ ms' = ms
  | Bol => at_bol p src pos = true /\ pos' = pos /\ rest' = rest /\ ms' = ms
  | Lit c =>
      exists x, rest = x :: rest' /\ lit_eq p c x = true
                /\ pos' = S pos /\ ms' = ms
  | Star k =>
      exists w, rest = w ++ rest' /\ forallb (in_cls k) w = true
                /\ pos' = (pos + List.length w)%nat /\ ms' = ms
  | Plus k =>
      exists w, rest = w ++ rest' /\ forallb (in_cls k) w = true
                /\ w <> [] /\ pos' = (pos + List.length w)%nat /\ ms' = ms
  | Cat r1 r2 =>
      exists pos1 rest1 ms1,
        den p src r1 pos rest ms pos1 rest1 ms1 /\ den p src r2 pos1 rest1 ms1 pos' rest' ms'
  | Alt r1 r2 =>
      den p src r1 pos rest ms pos' rest' ms' \/ den p src r2 pos rest ms pos' rest' ms'
  | Grp n r1 =>
      exists ms1, den p src r1 pos rest ms pos' rest' ms1
                  /\ ms' = (n, (pos, pos')) :: ms1
  end.

(** The text [rest] does not go on with a character of class [k]. *)
Definition stops (k : cls) (rest : str) : Prop :=
  match rest with
  | [] => True
  | c :: _ => in_cls k c = false
  end.

(** The character that ends a statement. *)
Definition period : char := ord ".".

(** A blank or a word character; the period is neither. *)
Definition plain (c : char) : bool := (isspace c || isword c)%bool.

(** ** Statements *)

(** The kinds of statement the rule knows. *)
Inductive kind : Type := ADD | SUBTRACT | MULTIPLY | DIVIDE.

Definition keyword (k : kind) : string :=
  match k with
  | ADD => "ADD" | SUBTRACT => "SUBTRACT"
  | MULTIPLY => "MULTIPLY" | DIVIDE => "DIVIDE"
  end.

Definition link (k : kind) : string :=
  match k with
  | ADD => "TO" | SUBTRACT => "FROM" | MULTIPLY => "BY" | DIVIDE => "BY"
  end.

Definition val_group (k : kind) : string :=
  match k with
  | ADD => "add_val" | SUBTRACT => "sub_val"
  | MULTIPLY => "mul_val" | DIVIDE => "div_val"
  end.

Definition target_group (k : kind) : string :=
  match k with
  | ADD => "add_target" | SUBTRACT => "sub_target"
  | MULTIPLY => "mul_target" | DIVIDE => "div_target"
  end.

(** The compound assignment that replaces a statement of kind [k]. *)
Definition operator (k : kind) : string :=
  match k with
  | ADD => "+=" | SUBTRACT => "-=" | MULTIPLY => "*=" | DIVIDE => "/="
  end.

(** An ASCII capital letter as a small letter; any other character as it
    is. *)
Definition small (c : char) : char :=
  if between 65 90 c then (c + 32)%N else c.

(** [w] spells [s] in ASCII letters, whatever their case. *)
Definition spells (w : str) (s : string) : Prop :=
  map small w = map small (chars s).

(** [w] is what the pattern reads as [s]: character by character, the
    literal takes the character of [w]. *)
Definition reads (w : str) (s : string) : Prop :=
  Forall2 (fun x c => lit_eq ARITH_RE c x = true) w (list_ascii_of_string s).

(** A non-empty run of characters of one class. *)
Definition run_of (k : cls) (w : str) : Prop :=
  forallb (in_cls k) w = true /\ w <> [].

(** The pieces of one statement, in the order of the text: keyword, blanks,
    value, blanks, linking word, blanks, target. *)
Record Statement : Type := {
  s_kind : kind;
  s_keyword : str;
  s_gap1 : str;
  s_value : str;
  s_gap2 : str;
  s_link : str;
  s_gap3 : str;
  s_target : str
}.

(** The statement as written, without its period. *)
Definition text (s : Statement) : str :=
  s_keyword s ++ s_gap1 s ++ s_value s ++ s_gap2 s ++ s_link s
    ++ s_gap3 s ++ s_target s.

Record well_formed (s : Statement) : Prop := {
  wf_keyword : spells (s_keyword s) (keyword (s_kind s));
  wf_gap1 : run_of Space (s_gap1 s);
  wf_value : run_of Word (s_value s);
  wf_gap2 : run_of Space (s_gap2 s);
  wf_link : spells (s_link s) (link (s_kind s));
  wf_gap3 : run_of Space (s_gap3 s);
  wf_target : run_of Word (s_target s)
}.

(** A statement as the pattern takes it: the keyword and the linking word
    may be written with any character that their literals take. *)
Record written (s : Statement) : Prop := {
  wr_keyword : reads (s_keyword s) (keyword (s_kind s));
  wr_gap1 : run_of Space (s_gap1 s);
  wr_value : run_of Word (s_value s);
  wr_gap2 : run_of Space (s_gap2 s);
  wr_link : reads (s_link s) (link (s_kind s));
  wr_gap3 : run_of Space (s_gap3 s);
  wr_target : run_of Word (s_target s)
}.

Definition form_of (k : kind) : regex :=
  form (keyword k) (val_group k) (link k) (target_group k).

(** ** Matches and findings of a statement *)

(** The group spans that a match of the statement [s] sets, when the
    statement starts at offset [a]. *)
Definition spans (s : Statement) (a : nat) : marks :=
  let v := (a + List.length (s_keyword s) + List.length (s_gap1 s))%nat in
  let t := (v + List.length (s_value s) + List.length (s_gap2 s)
              + List.length (s_link s) + List.length (s_gap3 s))%nat in
  [ ("stmt", (a, (a + List.length (text s))%nat));
    (target_group (s_kind s), (t, (t + List.length (s_target s))%nat));
    (val_group (s_kind s), (v, (v + List.length (s_value s))%nat)) ].

Definition group_names : list string :=
  ["stmt"; "add_val"; "add_target"; "sub_val"; "sub_target";
   "mul_val"; "mul_target"; "div_val"; "div_target"].

(** The match object of statement [s] found at offset [pos] after the
    blanks [lead]. *)
Definition match_of (src : str) (pos : nat) (lead : str) (s : Statement)
    : Match :=
  {| m_string := src;
     m_start := pos;
     m_end := S (pos + List.length lead + List.length (text s));
     m_marks := spans s (pos + List.length lead);
     m_names := group_names |}.

(** [m] is the match of the statement [s], which stands in [src] after the
    text [pre] and the blanks [lead], at the start of a line, is written as
    the pattern takes it and is followed by a period. *)
Record occurrence (src : str) (m : Match) (pre lead : str) (s : Statement)
    (post : str) : Prop := {
  occ_src : src = pre ++ lead ++ text s ++ period :: post;
  occ_bol : at_bol ARITH_RE src (List.length pre) = true;
  occ_lead : forallb isspace lead = true;
  occ_wr : written s;
  occ_match : m = match_of src (List.length pre) lead s
}.

(** The finding that the scanner is to build for the statement [s] of the
    unit [unit], matched after the text [pre] of [src]. *)
Definition finding_of (unit : Unit) (src pre : str) (s : Statement) : Finding :=
  let k := keyword (s_kind s) in
  let line := start_line unit + count LF pre in
  {| prog_name := Some (pgm_name unit);
     incl_name := Some (inc_name unit);
     types := Some (type unit);
     blockname := name unit;
     starting_line := Some line;
     ending_line := Some line;
     issues_type := Some ("Obsolete" ++ k ++ "Usage");
     severity := Some (chars "error");
     message := Some ("Obsolete '" ++ k ++ "' statement detected.");
     suggestion :=
       Some ("Replace '" ++ text s ++ "' with '" ++ s_target s ++ " "
               ++ operator (s_kind s) ++ " " ++ s_value s ++ "'.");
     snippet :=
       Some (replace LF (chars "\n") (extract_exact_line src (len pre))) |}.

(** U+0130, the capital letter I with a dot above.  When case is ignored
    the literal [I] takes it, and [upper] leaves it as it is. *)
Definition dotted_I : char := 0x130%N.

Fixpoint takewhile (P : char -> bool) (s : str) : str :=
  match s with
  | c :: s' => if P c then c :: takewhile P s' else []
  | [] => []
  end.

(** The keyword of a match as the text has it: the group [stmt] up to its
    first blank. *)
Definition keyword_text (m : Match) : str :=
  match group m "stmt" with
  | Ok (Some t) => takewhile (fun c => negb (isspace c)) t
  | _ => []
  end.

(** The matches that the loop passes over: those whose keyword is written
    with U+0130. *)
Definition skipped (m : Match) : bool := existsb (eqc dotted_I) (keyword_text m).

(** The matches that get a finding. *)
Definition reported (ms : list Match) : list Match :=
  filter (fun m => negb (skipped m)) ms.

(** [f] is the finding for the match [m]. *)
Definition reports (unit : Unit) (src : str) (m : Match) (f : Finding) : Prop :=
  exists pre lead s post,
    occurrence src m pre lead s post /\ f = finding_of unit src pre s.

(** The match of the statement: its groups are those of [s], found after
    blanks that end where [lead] ends. *)
Definition found (src pre lead : str) (s : Statement) (post : str)
    (m : Match) : Prop :=
  exists pre0 lead0,
    occurrence src m pre0 lead0 s post /\ pre0 ++ lead0 = pre ++ lead.

(** What the scan yields from an offset at or before the start of the
    line of the statement: matches that end before that line, the match
    of the statement, and matches that start after it. *)
Definition yields (src pre lead : str) (s : Statement) (post : str)
    (ms : list Match) : Prop :=
  exists ms1 m ms2,
    ms = ms1 ++ m :: ms2
    /\ found src pre lead s post m
    /\ (forall m', In m' ms1 -> (m_end m' <= List.length pre)%nat)
    /\ (forall m', In m' ms2 -> (m_end m <= m_start m')%nat).

(** ** Sample units *)

Definition sample (start : Z) (text : str) : Unit :=
  {| pgm_name := chars "P1";
     inc_name := chars "I1";
     type := chars "FORM";
     name := Some (chars "MAIN");
     class_implementation := None;
     start_line := start;
     end_line := start + 1;
     code := Some text;
     findings := None |}.

(** Two statements on consecutive lines. *)
Definition two_statement_unit : Unit :=
  sample 100 (chars "ADD 1 TO X." ++ LF :: chars "SUBTRACT 2 FROM Y.").

(** One statement, with a line feed after its keyword. *)
Definition two_line_unit : Unit :=
  sample 7 (chars "ADD" ++ LF :: chars " 1 TO X.").

(** No statement of the four kinds. *)
Definition compute_unit : Unit := sample 1 (chars "COMPUTE X = 1 + 2.").

(** One statement, after an empty line. *)
Definition blank_line_unit : Unit := sample 10 (LF :: chars "ADD 1 TO X.").

(** Two statements with an empty line between them. *)
Definition spaced_unit : Unit :=
  sample 10 (chars "ADD 1 TO X." ++ LF :: LF :: chars "ADD 2 TO Y.").

Definition sample_store : store :=
  [two_statement_unit; two_line_unit; compute_unit; blank_line_unit].

(** The statement [ADD 1 TO X]. *)
Definition add_1_to_x : Statement :=
  {| s_kind := ADD;
     s_keyword := chars "ADD"; s_gap1 := chars " ";
     s_value := chars "1"; s_gap2 := chars " ";
     s_link := chars "TO"; s_gap3 := chars " ";
     s_target := chars "X" |}.

(** The statement [subtract Rate], line feed, [from TOTAL_2], in mixed
    case and over two lines. *)
Definition subtract_rate : Statement :=
  {| s_kind := SUBTRACT;
     s_keyword := chars "Subtract"; s_gap1 := chars "  ";
     s_value := chars "Rate"; s_gap2 := [LF; ord " "];
     s_link := chars "from"; s_gap3 := chars " ";
     s_target := chars "TOTAL_2" |}.

(** ** Order of matches and findings *)

(** [m1] ends before [m2] starts. *)
Definition precedes (m1 m2 : Match) : Prop := (m_end m1 <= m_start m2)%nat.

(** The line of [f] is not after the line of [g]. *)
Definition line_le (f g : Finding) : Prop :=
  exists a b, starting_line f = Some a /\ starting_line g = Some b /\ a <= b.

(** ** Texts made of statements *)

(** One line of such a text: blanks, a statement, its period, a line
    feed. *)
Definition render (l : str * Statement) : str :=
  fst l ++ text (snd l) ++ period :: [LF].

(** The text of the lines [ls]. *)
Definition program (ls : list (str * Statement)) : str :=
  List.concat (map render ls).

(** Only blanks stand before the statement of the line, and the statement
    is well formed. *)
Definition well_formed_line (l : str * Statement) : Prop :=
  forallb isspace (fst l) = true /\ well_formed (snd l).

(** The matches of the lines [ls], the first of which starts at offset
    [pos] of [src]. *)
Fixpoint matches_at (src : str) (pos : nat) (ls : list (str * Statement))
    : list Match :=
  match ls with
  | [] => []
  | l :: ls' =>
      match_of src pos (fst l) (snd l)
        :: matches_at src (pos + List.length (render l)) ls'
  end.

(** The findings of the lines [ls], which follow the text [pre] in
    [src]. *)
Fixpoint findings_at (unit : Unit) (src pre : str)
    (ls : list (str * Statement)) : list Finding :=
  match ls with
  | [] => []
  | l :: ls' =>
      finding_of unit src pre (snd l)
        :: findings_at unit src (pre ++ render l) ls'
  end.

(** ** Units that differ in what the scan does not read *)

(** [v] has the program name, include name, type, name and code of [u],
    and starts [d] lines further down. *)
Record moved (d : Z) (u v : Unit) : Prop := {
  moved_pgm : pgm_name v = pgm_name u;
  moved_inc : inc_name v = inc_name u;
  moved_type : type v = type u;
  moved_name : name v = name u;
  moved_code : code v = code u;
  moved_line : start_line v = start_line u + d
}.

(** The finding [f], [d] lines further down. *)
Definition move_finding (d : Z) (f : Finding) : Finding :=
  {| prog_name := prog_name f;
     incl_name := incl_name f;
     types := types f;
     blockname := blockname f;
     starting_line := option_map (fun a => a + d) (starting_line f);
     ending_line := option_map (fun a => a + d) (ending_line f);
     issues_type := issues_type f;
     severity := severity f;
     message := message f;
     suggestion := suggestion f;
     snippet := snippet f |}.

(** ** The lines of a text *)

(** The text cut at its line feeds, as [src.split] does with a line feed
    for separator: the empty text has one empty line, and a text that ends
    with a line feed has an empty last line. *)
Fixpoint lines_of (src : str) : list str :=
  match src with
  | [] => [[]]
  | c :: src' =>
      if eqc c LF then [] :: lines_of src'
      else match lines_of src' with
           | l :: ls => (c :: l) :: ls
           | [] => [[c]]
           end
  end.

(** ** More sample data *)

(** Two lines of statements, the second one indented. *)
Definition statements : list (str * Statement) :=
  [([], add_1_to_x); (chars "   ", subtract_rate)].

(** The unit of those two lines. *)
Definition statements_unit : Unit := sample 5 (program statements).

(** [two_statement_unit] at another place of its file, with other values
    in the fields that the scan does not read. *)
Definition moved_unit : Unit :=
  {| pgm_name := chars "P1";
     inc_name := chars "I1";
     type := chars "FORM";
     name := Some (chars "MAIN");
     class_implementation := Some (chars "LCL_MAIN");
     start_line := 250;
     end_line := 0;
     code := code two_statement_unit;
     findings := Some [] |}.

(** The statement [DIVIDE 1 BY X.] with U+0130 in place of both letters
    I of its keyword. *)
Definition dotted_unit : Unit :=
  sample 1 (chars "D" ++ dotted_I :: chars "V" ++ dotted_I
              :: chars "DE 1 BY X.").

(** The statement [ADD e TO X.] with U+00E9, the letter e with an acute
    accent, for value, after a line that holds a no-break space
    (U+00A0). *)
Definition accent_unit : Unit :=
  sample 1 (0xA0%N :: LF :: chars "ADD " ++ 0xE9%N :: chars " TO X.").

(** The statement of [dotted_unit]. *)
Definition dotted_divide : Statement :=
  {| s_kind := DIVIDE;
     s_keyword := chars "D" ++ dotted_I :: chars "V" ++ dotted_I :: chars "DE";
     s_gap1 := chars " ";
     s_value := chars "1"; s_gap2 := chars " ";
     s_link := chars "BY"; s_gap3 := chars " ";
     s_target := chars "X" |}.

Definition unicode_store : store := [dotted_unit; accent_unit].

(** A text of three lines. *)
Definition three_lines : str :=
  chars "first" ++ LF :: chars "second" ++ LF :: chars "third".

(** ** Reading the character tables *)

(** The code points of a table of ranges, one by one. *)
Definition points (rs : list (N * N)) : list N :=
  flat_map (fun r => map N.of_nat
                       (seq (N.to_nat (fst r))
                            (S (N.to_nat (snd r)) - N.to_nat (fst r))))
           rs.

(** The letters that the keywords and the linking words are made of. *)
Definition letters : list ascii := list_ascii_of_string "ABCDEFILMOPRSTUVY".

(** The first letter of the keyword of a kind. *)
Definition initial (k : kind) : ascii :=
  match k with
  | ADD => "A" | SUBTRACT => "S" | MULTIPLY => "M" | DIVIDE => "D"
  end.

(** Checking by computation that a sample statement is well formed. *)
Ltac well_formed_by_computation :=
  constructor; unfold spells, run_of;
  try (vm_compute; reflexivity);
  (split; [vm_compute; reflexivity | discriminate]).

(* ================================================================== *)
(** * What a successful run of the matcher consumed *)
(* ================================================================== *)

Module ReFacts.

Section Denotation.

Variable p : Pattern.
Variable src : str.

Lemma many_sound (R : Type) (k : cls) (rest : str) :
  forall (pos : nat) (cont : nat -> str -> option R) (x : R),
    many k pos rest cont = Some x ->
    exists w rest',
      rest = w ++ rest' /\ forallb (in_cls k) w = true
      /\ cont (pos + List.length w)%nat rest' = Some x.
Proof.
  induction rest as [|c rest IH]; intros pos cont x H; simpl in H.
  - exists [], []. simpl. rewrite Nat.add_0_r. auto.
  - destruct (in_cls k c) eqn:Hc.
    + destruct (many k (S pos) rest cont) as [y|] eqn:Hm.
      * injection H as ->. apply IH in Hm.
        destruct Hm as (w & rest' & -> & Hw & Hk).
        exists (c :: w), rest'. simpl. rewrite Hc, Hw.
        replace (pos + S (List.length w))%nat with (S pos + List.length w)%nat by lia.
        auto.
      * exists [], (c :: rest). simpl. rewrite Nat.add_0_r. auto.
    + exists [], (c :: rest). simpl. rewrite Nat.add_0_r. auto.
Qed.

Lemma run_sound (R : Type) (r : regex) :
  forall (pos : nat) (rest : str) (ms : marks)
         (cont : nat -> str -> marks -> option R) (x : R),
    run p src r pos rest ms cont = Some x ->
    exists pos' rest' ms',
      den p src r pos rest ms pos' rest' ms' /\ cont pos' rest' ms' = Some x.
Proof.
  induction r as [| |c|k|k|r1 IH1 r2 IH2|r1 IH1 r2 IH2|n r1 IH1];
    intros pos rest ms cont x H; simpl in H.
  - exists pos, rest, ms. simpl. auto.
  - destruct (at_bol p src pos) eqn:Hb; [|discriminate].
    exists pos, rest, ms. simpl. auto.
  - destruct rest as [|a rest]; [discriminate|].
    destruct (lit_eq p c a) eqn:Hl; [|discriminate].
    exists (S pos), rest, ms. simpl. split; [exists a|]; auto.
  - apply many_sound in H. destruct H as (w & rest' & -> & Hw & Hk).
    exists (pos + List.length w)%nat, rest', ms. simpl. split; [exists w|]; auto.
  - destruct rest as [|a rest]; [discriminate|].
    destruct (in_cls k a) eqn:Ha; [|discriminate].
    apply many_sound in H. destruct H as (w & rest' & -> & Hw & Hk).
    exists (S pos + List.length w)%nat, rest', ms. simpl. split; [|auto].
    exists (a :: w). simpl. rewrite Ha, Hw.
    repeat split; auto; try discriminate; lia.
  - apply IH1 in H. destruct H as (p1 & s1 & m1 & D1 & H).
    apply IH2 in H. destruct H as (p2 & s2 & m2 & D2 & H).
    exists p2, s2, m2. simpl. split; [exists p1, s1, m1|]; auto.
  - destruct (run p src r1 pos rest ms cont) as [y|] eqn:H1.
    + injection H as ->. apply IH1 in H1.
      destruct H1 as (p1 & s1 & m1 & D1 & H1).
      exists p1, s1, m1. simpl. auto.
    + apply IH2 in H. destruct H as (p2 & s2 & m2 & D2 & H).
      exists p2, s2, m2. simpl. auto.
  - apply IH1 in H. destruct H as (p1 & s1 & m1 & D1 & H).
    exists p1, s1, ((n, (pos, p1)) :: m1). simpl. split; [exists m1|]; auto.
Qed.

Lemma den_consumes (r : regex) :
  forall pos rest ms pos' rest' ms',
    den p src r pos rest ms pos' rest' ms' ->
    exists w, rest = w ++ rest' /\ pos' = (pos + List.length w)%nat.
Proof.
  induction r as [| |c|k|k|r1 IH1 r2 IH2|r1 IH1 r2 IH2|n r1 IH1];
    simpl; intros pos rest ms pos' rest' ms' H.
  - destruct H as (-> & -> & _). exists []. simpl. split; [reflexivity | lia].
  - destruct H as (_ & -> & -> & _). exists []. simpl. split; [reflexivity | lia].
  - destruct H as (x & -> & _ & -> & _). exists [x]. simpl. split; [reflexivity | lia].
  - destruct H as (w & -> & _ & -> & _). exists w. auto.
  - destruct H as (w & -> & _ & _ & -> & _). exists w. auto.
  - destruct H as (p1 & s1 & m1 & D1 & D2).
    apply IH1 in D1. apply IH2 in D2.
    destruct D1 as (w1 & -> & ->). destruct D2 as (w2 & -> & ->).
    exists (w1 ++ w2). rewrite length_app, app_assoc. split; [reflexivity | lia].
  - destruct H as [H|H]; [apply IH1 in H | apply IH2 in H]; exact H.
  - destruct H as (m1 & D & _). apply IH1 in D. exact D.
Qed.

End Denotation.

End ReFacts.

(* ================================================================== *)
(** * The four statement forms *)
(* ================================================================== *)

Module Shape.

Import ReFacts.

Lemma den_word (src : str) (l : list ascii) :
  forall pos rest ms pos' rest' ms',
    den ARITH_RE src (fold_right (fun c r => Cat (Lit c) r) Eps l)
        pos rest ms pos' rest' ms' ->
    exists w, rest = w ++ rest' /\ pos' = (pos + List.length w)%nat
              /\ ms' = ms
              /\ Forall2 (fun x c => lit_eq ARITH_RE c x = true) w l.
Proof.
  induction l as [|c l IH]; simpl; intros pos rest ms pos' rest' ms' H.
  - destruct H as (-> & -> & ->). exists []. simpl.
    repeat split; auto.
  - destruct H as (p1 & s1 & m1 & (x & -> & Hx & -> & ->) & D).
    apply IH in D. destruct D as (w & -> & -> & -> & Hw).
    exists (x :: w). simpl. split; [reflexivity|]. split; [lia|].
    split; [reflexivity|]. constructor; assumption.
Qed.

Lemma den_form (src : str) (k : kind) :
  forall pos rest ms pos' rest' ms',
    den ARITH_RE src
        (form (keyword k) (val_group k) (link k) (target_group k))
        pos rest ms pos' rest' ms' ->
    exists s, s_kind s = k /\ written s
              /\ rest = text s ++ rest'
              /\ pos' = (pos + List.length (text s))%nat
              /\ ms' = tl (spans s pos) ++ ms.
Proof.
  intros pos rest ms pos' rest' ms' H. unfold form in H.
  destruct H as (p1 & r1 & m1 & D1 & p2 & r2 & m2 & D2 & p3 & r3 & m3 & D3
                 & p4 & r4 & m4 & D4 & p5 & r5 & m5 & D5 & p6 & r6 & m6 & D6
                 & D7).
  apply den_word in D1. destruct D1 as (kw & -> & -> & -> & Hkw).
  destruct D2 as (g1 & -> & Hg1 & Ng1 & -> & ->).
  destruct D3 as (m3' & (v & -> & Hv & Nv & -> & ->) & ->).
  destruct D4 as (g2 & -> & Hg2 & Ng2 & -> & ->).
  apply den_word in D5. destruct D5 as (lk & -> & -> & -> & Hlk).
  destruct D6 as (g3 & -> & Hg3 & Ng3 & -> & ->).
  destruct D7 as (m7' & (t & -> & Ht & Nt & -> & ->) & ->).
  exists {| s_kind := k; s_keyword := kw; s_gap1 := g1; s_value := v;
            s_gap2 := g2; s_link := lk; s_gap3 := g3; s_target := t |}.
  split; [reflexivity|]. split; [constructor; simpl; unfold run_of, reads; auto|].
  unfold text, spans; simpl. rewrite !length_app, <- !app_assoc.
  split; [reflexivity|]. split; [lia|].
  repeat f_equal; lia.
Qed.

End Shape.

(* ================================================================== *)
(** * Facts about characters and the string operations *)
(* ================================================================== *)

Module PyFacts.

Lemma clip_id (n i : Z) : 0 <= i <= n -> clip n i = i.
Proof. unfold clip. intros H. destruct (Z.ltb_spec i 0); lia. Qed.

Lemma slice_mid (a b c : str) :
  slice (a ++ b ++ c) (len a) (len a + len b) = b.
Proof.
  unfold slice, len. rewrite !length_app.
  rewrite !clip_id by lia.
  replace (Z.to_nat (Z.of_nat (List.length a) + Z.of_nat (List.length b)
                     - Z.of_nat (List.length a))) with (List.length b) by lia.
  rewrite Nat2Z.id, skipn_app, skipn_all, Nat.sub_diag. simpl.
  rewrite firstn_app, firstn_all, Nat.sub_diag. simpl. apply app_nil_r.
Qed.

Lemma slice_prefix (a b : str) : slice (a ++ b) 0 (len a) = a.
Proof. apply (slice_mid [] a b). Qed.

Lemma slice_whole (s : str) : slice s 0 (len s) = s.
Proof. pose proof (slice_prefix s []) as H. rewrite app_nil_r in H. exact H. Qed.

Lemma count_app (c : char) (a b : str) : count c (a ++ b) = count c a + count c b.
Proof. induction a as [|x a IH]; simpl; [reflexivity | rewrite IH; lia]. Qed.

Lemma count_nonneg (c : char) (a : str) : 0 <= count c a.
Proof. induction a as [|x a IH]; simpl; [lia | destruct (eqc x c); lia]. Qed.

Lemma eqc_true (a b : char) : eqc a b = true <-> a = b.
Proof. apply N.eqb_eq. Qed.

Lemma eqc_false (a b : char) : eqc a b = false <-> a <> b.
Proof. apply N.eqb_neq. Qed.

Lemma eqc_refl (a : char) : eqc a a = true.
Proof. apply N.eqb_refl. Qed.

(** A character that a table of ranges holds is one of its points. *)
Lemma in_ranges_points (rs : list (N * N)) (c : N) :
  Unicode.in_ranges rs c = true -> In c (points rs).
Proof.
  unfold Unicode.in_ranges, points. intros H.
  apply existsb_exists in H. destruct H as ([lo hi] & Hin & Hr).
  apply in_flat_map. exists (lo, hi). split; [exact Hin|].
  unfold Unicode.in_range in Hr. cbn [fst snd] in *.
  apply andb_true_iff in Hr. destruct Hr as [H1 H2].
  apply N.leb_le in H1, H2.
  rewrite <- (N2Nat.id c). apply in_map, in_seq. lia.
Qed.

Lemma in_existsb (x : char) (l : list char) :
  existsb (eqc x) l = true <-> In x l.
Proof.
  rewrite existsb_exists. split.
  - intros (y & Hy & E). apply eqc_true in E. subst y. exact Hy.
  - intros H. exists x. split; [exact H | apply eqc_refl].
Qed.

Lemma space_not_word (c : char) : isspace c = true -> isword c = false.
Proof.
  intros H. apply in_ranges_points in H.
  assert (F : forallb (fun x => negb (isword x)) (points Unicode.Whitespace)
              = true) by (vm_compute; reflexivity).
  rewrite forallb_forall in F. apply F in H.
  destruct (isword c); [discriminate | reflexivity].
Qed.

Lemma word_not_space (c : char) : isword c = true -> isspace c = false.
Proof.
  intros H. destruct (isspace c) eqn:E; [|reflexivity].
  apply space_not_word in E. congruence.
Qed.

(** What a literal of [ARITH_RE] takes. *)
Lemma lit_eq_in (c : ascii) (x : char) :
  lit_eq ARITH_RE c x = true <-> In x (ignorecase c).
Proof. unfold lit_eq. cbn [IGNORECASE ARITH_RE]. apply in_existsb. Qed.

(** The literal period takes the period only. *)
Lemma lit_period (x : char) : lit_eq ARITH_RE "." x = true -> x = period.
Proof.
  intros H. apply lit_eq_in in H. vm_compute in H.
  destruct H as [<- | []]. reflexivity.
Qed.

Lemma period_not_plain : plain period = false.
Proof. vm_compute. reflexivity. Qed.

(** A property of all the characters that the letters of the keywords
    take can be checked by computation. *)
Lemma all_letters (P : ascii -> char -> bool) :
  forallb (fun c => forallb (P c) (ignorecase c)) letters = true ->
  forall c x, In c letters -> lit_eq ARITH_RE c x = true -> P c x = true.
Proof.
  intros H c x Hc Hx. rewrite forallb_forall in H. specialize (H c Hc).
  rewrite forallb_forall in H. apply H, lit_eq_in, Hx.
Qed.

Lemma letter_word (c : ascii) (x : char) :
  In c letters -> lit_eq ARITH_RE c x = true -> isword x = true.
Proof.
  apply (all_letters (fun _ x => isword x)). vm_compute. reflexivity.
Qed.

(** Put in upper case, a character that a letter of the keywords takes is
    that letter, unless it is U+0130, which stays as it is. *)
Lemma letter_upper (c : ascii) (x : char) :
  In c letters -> lit_eq ARITH_RE c x = true ->
  upper_char x = [if eqc x dotted_I then dotted_I else ord c].
Proof.
  intros Hc Hx.
  assert (H : eqs (upper_char x) [if eqc x dotted_I then dotted_I else ord c]
              = true).
  { revert c x Hc Hx.
    apply (all_letters
             (fun c x => eqs (upper_char x)
                             [if eqc x dotted_I then dotted_I else ord c])).
    vm_compute. reflexivity. }
  destruct (upper_char x) as [|y [|z l]]; simpl in H;
    rewrite ?andb_true_r, ?andb_false_r in H; try discriminate.
  apply eqc_true in H. subst y. reflexivity.
Qed.

(** No letter of the pattern is U+0130. *)
Lemma ord_not_dotted (c : ascii) : eqc dotted_I (ord c) = false.
Proof.
  apply eqc_false. unfold dotted_I, ord. pose proof (N_ascii_bounded c). lia.
Qed.

(** A letter in either case is taken by the literal of that letter. *)
Lemma small_letter (c : ascii) (x : char) :
  In c letters -> small x = small (ord c) -> lit_eq ARITH_RE c x = true.
Proof.
  intros Hc Hx. apply lit_eq_in.
  assert (E : x = ord c \/ x = (ord c + 32)%N).
  { assert (U : between 65 90 (ord c) = true).
    { revert Hc. generalize c.
      assert (F : forallb (fun c => between 65 90 (ord c)) letters = true)
        by (vm_compute; reflexivity).
      rewrite forallb_forall in F. exact F. }
    unfold small in Hx. rewrite U in Hx.
    destruct (between 65 90 x); [left; lia | right; exact Hx]. }
  assert (F : forallb (fun c => existsb (eqc (ord c)) (ignorecase c)
                                && existsb (eqc (ord c + 32)%N) (ignorecase c))
                      letters = true) by (vm_compute; reflexivity).
  rewrite forallb_forall in F. specialize (F c Hc).
  apply andb_true_iff in F. destruct F as [F1 F2].
  destruct E as [-> | ->]; apply in_existsb; assumption.
Qed.

(** In ASCII letters, a word is spelled without U+0130. *)
Lemma small_not_dotted (c : ascii) (x : char) :
  small x = small (ord c) -> eqc dotted_I x = false.
Proof.
  intros Hx. apply eqc_false. intros <-.
  unfold small in Hx. change (between 65 90 dotted_I) with false in Hx.
  cbv iota in Hx. pose proof (N_ascii_bounded c) as B. unfold ord in Hx.
  unfold dotted_I in Hx. destruct (between 65 90 (N_of_ascii c)); lia.
Qed.

Lemma lstrip_id (s : str) :
  match s with c :: _ => isspace c = false | [] => True end -> lstrip s = s.
Proof. destruct s as [|c s]; simpl; [reflexivity | intros ->; reflexivity]. Qed.

Lemma strip_id (s : str) (a z : char) (mid : str) :
  s = a :: mid ++ [z] \/ (s = [a] /\ z = a) ->
  isspace a = false -> isspace z = false -> strip s = s.
Proof.
  intros Hs Ha Hz. unfold strip, rstrip.
  assert (L : lstrip s = s)
    by (destruct Hs as [-> | [-> _]]; simpl; rewrite Ha; reflexivity).
  rewrite L.
  assert (R : lstrip (rev s) = rev s).
  { destruct Hs as [-> | [-> ->]]; simpl.
    - rewrite rev_app_distr. simpl. rewrite Hz. reflexivity.
    - rewrite Ha. reflexivity. }
  rewrite R. apply rev_involutive.
Qed.

Lemma upper_app (a b : str) : upper (a ++ b) = upper a ++ upper b.
Proof. apply flat_map_app. Qed.

Lemma upper_cons (c : char) (s : str) : upper (c :: s) = upper_char c ++ upper s.
Proof. reflexivity. Qed.

Lemma takewhile_app (P : char -> bool) (a b : str) :
  forallb P a = true ->
  match b with c :: _ => P c = false | [] => True end ->
  takewhile P (a ++ b) = a.
Proof.
  intros Ha Hb. induction a as [|x a IH]; simpl in *.
  - destruct b as [|c b]; [reflexivity|]. simpl. rewrite Hb. reflexivity.
  - apply andb_true_iff in Ha. destruct Ha as [Hx Ha].
    rewrite Hx, IH by exact Ha. reflexivity.
Qed.

Lemma index_from_spec (c : char) (s : str) :
  forall i,
    (~ In c s /\ index_from c s i = -1)
    \/ (exists a b, s = a ++ c :: b /\ ~ In c a /\ index_from c s i = i + len a).
Proof.
  induction s as [|x s IH]; intros i; simpl.
  - left. split; [tauto | reflexivity].
  - destruct (eqc x c) eqn:E.
    + apply eqc_true in E. subst x. right. exists [], s. simpl.
      split; [reflexivity|]. split; [tauto|]. unfold len. simpl. lia.
    + apply eqc_false in E. destruct (IH (i + 1)) as [[Hn Hi] | (a & b & -> & Hn & Hi)].
      * left. split; [|exact Hi]. intros [H|H]; [congruence | tauto].
      * right. exists (x :: a), b. split; [reflexivity|].
        split; [intros [H|H]; [congruence | tauto]|].
        rewrite Hi. unfold len. simpl List.length. lia.
Qed.

Lemma rindex_from_spec (c : char) (s : str) :
  forall i, 0 <= i ->
    (~ In c s /\ rindex_from c s i = -1)
    \/ (exists a b, s = a ++ c :: b /\ ~ In c b /\ rindex_from c s i = i + len a).
Proof.
  induction s as [|x s IH]; intros i Hi; simpl.
  - left. split; [tauto | reflexivity].
  - destruct (IH (i + 1)) as [[Hn Hr] | (a & b & -> & Hn & Hr)]; [lia| |].
    + rewrite Hr. simpl. destruct (eqc x c) eqn:E.
      * apply eqc_true in E. subst x. right. exists [], s. simpl.
        split; [reflexivity|]. split; [exact Hn|]. unfold len. simpl. lia.
      * apply eqc_false in E. left. split; [|reflexivity].
        intros [H|H]; [congruence | tauto].
    + rewrite Hr. assert (L : 0 <= len a) by (unfold len; lia).
      destruct (Z.leb_spec 0 (i + 1 + len a)); [|lia].
      right. exists (x :: a), b. split; [reflexivity|]. split; [exact Hn|].
      unfold len. simpl List.length. unfold len in L. lia.
Qed.

Lemma len_app (a b : str) : len (a ++ b) = len a + len b.
Proof. unfold len. rewrite length_app. lia. Qed.

Lemma len_nonneg (a : str) : 0 <= len a.
Proof. unfold len. lia. Qed.

Lemma rfind_prefix (c : char) (pre suf : str) :
  rfind c (pre ++ suf) 0 (len pre) = rindex_from c pre 0.
Proof.
  unfold rfind. pose proof (len_nonneg pre). pose proof (len_nonneg suf).
  rewrite len_app. rewrite !clip_id by lia.
  destruct (Z.ltb_spec (len pre + len suf) 0); [lia|].
  rewrite Z.sub_0_r. unfold len at 1. rewrite Nat2Z.id. simpl skipn.
  rewrite firstn_app, firstn_all, Nat.sub_diag. simpl. rewrite app_nil_r.
  reflexivity.
Qed.

Lemma find_suffix (c : char) (pre suf : str) :
  find c (pre ++ suf) (len pre) = index_from c suf (len pre).
Proof.
  unfold find. pose proof (len_nonneg pre). pose proof (len_nonneg suf).
  rewrite len_app. rewrite !clip_id by lia.
  destruct (Z.ltb_spec (len pre + len suf) (len pre)); [lia|].
  unfold len at 1. rewrite Nat2Z.id.
  rewrite skipn_app, skipn_all, Nat.sub_diag. reflexivity.
Qed.

Lemma slice_eq (s a b c : str) (i j : Z) :
  s = a ++ b ++ c -> i = len a -> j = len a + len b -> slice s i j = b.
Proof. intros -> -> ->. apply slice_mid. Qed.

Lemma replace_absent (c : char) (by_ s : str) : ~ In c s -> replace c by_ s = s.
Proof.
  induction s as [|x s IH]; simpl; intros H; [reflexivity|].
  destruct (eqc x c) eqn:E.
  - apply eqc_true in E. tauto.
  - rewrite IH by tauto. reflexivity.
Qed.

End PyFacts.
(* ================================================================== *)
(** * Every match of [ARITH_RE] is a statement at the start of a line *)
(* ================================================================== *)

Module Matches.

Import ReFacts PyFacts Shape.

Lemma ARITH_RE_forms :
  re ARITH_RE =
  Cat Bol
   (Cat (Star Space)
    (Cat (Grp "stmt"
           (Alt (form_of ADD)
            (Alt (form_of SUBTRACT) (Alt (form_of MULTIPLY) (form_of DIVIDE)))))
         (Lit "."))).
Proof. reflexivity. Qed.

Lemma match_at_sound (src : str) (pos : nat) (rest : str) (m : Match) :
  match_at ARITH_RE src pos rest = Some m ->
  exists lead s rest',
    at_bol ARITH_RE src pos = true
    /\ forallb isspace lead = true
    /\ written s
    /\ rest = lead ++ text s ++ period :: rest'
    /\ m = match_of src pos lead s.
Proof.
  unfold match_at. intros H. apply run_sound in H.
  destruct H as (pos' & rest' & ms' & D & H). injection H as <-.
  rewrite ARITH_RE_forms in D. cbn [den] in D.
  destruct D as (p1 & r1 & m1 & (Hb & -> & -> & ->) & p2 & r2 & m2
                 & (lead & -> & Hlead & -> & ->) & p3 & r3 & m3
                 & (m3' & D & ->) & (x & -> & Hx & -> & ->)).
  assert (F : exists k, den ARITH_RE src (form_of k) (pos + List.length lead)%nat
                            r2 [] p3 (x :: rest') m3').
  { destruct D as [D|[D|[D|D]]];
      [exists ADD | exists SUBTRACT | exists MULTIPLY | exists DIVIDE]; exact D. }
  destruct F as (k & F). apply den_form in F.
  destruct F as (s & Hk & Hwf & -> & -> & ->).
  apply lit_period in Hx. subst x.
  exists lead, s, rest'.
  split; [exact Hb|]. split; [exact Hlead|]. split; [exact Hwf|].
  split; [reflexivity|].
  unfold match_of. rewrite app_nil_r. unfold spans. reflexivity.
Qed.

(** Every match that the scan yields was found by an attempt at its own
    start offset. *)
Lemma scan_in (p : Pattern) (src : str) (m : Match) :
  forall rest pos resume,
    rest = skipn pos src ->
    In m (scan p src pos rest resume) ->
    exists q, (pos <= q)%nat /\ (resume <= q)%nat
              /\ match_at p src q (skipn q src) = Some m.
Proof.
  induction rest as [|c rest IH]; intros pos resume Hr Hin; simpl in Hin.
  - destruct (Nat.ltb_spec pos resume) as [L|L]; [destruct Hin|].
    destruct (match_at p src pos []) as [m'|] eqn:E; [|destruct Hin].
    destruct Hin as [<-|[]]. exists pos. rewrite <- Hr. auto.
  - assert (Hr' : rest = skipn (S pos) src).
    { replace (S pos) with (1 + pos)%nat by lia.
      rewrite <- skipn_skipn, <- Hr. reflexivity. }
    destruct (Nat.ltb_spec pos resume) as [L|L].
    + apply IH in Hin; [|exact Hr'].
      destruct Hin as (q & Hq & Hq' & Hm). exists q. repeat split; auto; lia.
    + destruct (match_at p src pos (c :: rest)) as [m'|] eqn:E.
      * destruct Hin as [<-|Hin].
        -- exists pos. rewrite <- Hr. auto.
        -- apply IH in Hin; [|exact Hr'].
           destruct Hin as (q & Hq & Hq' & Hm). exists q. repeat split; auto; lia.
      * apply IH in Hin; [|exact Hr'].
        destruct Hin as (q & Hq & Hq' & Hm). exists q. repeat split; auto; lia.
Qed.

Lemma match_at_occurrence (src : str) (q : nat) (m : Match) :
  match_at ARITH_RE src q (skipn q src) = Some m ->
  exists pre lead s post, occurrence src m pre lead s post /\ List.length pre = q.
Proof.
  intros H. pose proof (match_at_sound _ _ _ H) as (lead & s & post & Hb & Hl & Hwf & Hr & ->).
  assert (Hq : (q < List.length src)%nat).
  { destruct (Nat.ltb_spec q (List.length src)) as [L|L]; [exact L|].
    rewrite skipn_all2 in Hr by lia.
    destruct lead; [destruct Hwf as [_ _ _ _ _ _ [_ N]]|]; simpl in Hr.
    - destruct (text s) eqn:T; discriminate.
    - discriminate. }
  exists (firstn q src), lead, s, post.
  assert (Hlen : List.length (firstn q src) = q) by (rewrite length_firstn; lia).
  split; [|exact Hlen].
  constructor; rewrite ?Hlen; auto.
  rewrite <- Hr. symmetry. apply firstn_skipn.
Qed.

Lemma finditer_occurrence (src : str) (m : Match) :
  In m (finditer ARITH_RE src) ->
  exists pre lead s post, occurrence src m pre lead s post.
Proof.
  intros H. apply scan_in in H; [|reflexivity].
  destruct H as (q & _ & _ & H). apply match_at_occurrence in H.
  destruct H as (pre & lead & s & post & H & _). eauto.
Qed.

Lemma slice_at (a b c : str) (i j : nat) :
  i = List.length a -> j = (i + List.length b)%nat ->
  slice (a ++ b ++ c) (Z.of_nat i) (Z.of_nat j) = b.
Proof.
  intros -> ->. rewrite Nat2Z.inj_add. apply slice_mid.
Qed.

Section Groups.

Variables (src : str) (m : Match) (pre lead : str) (s : Statement) (post : str).
Hypothesis occ : occurrence src m pre lead s post.

Lemma group_stmt : group m "stmt" = Ok (Some (text s)).
Proof.
  destruct occ as [Hsrc _ _ _ ->]. unfold group, match_of. cbn [m_names m_marks m_string].
  change (existsb (String.eqb "stmt") group_names) with true. cbv iota.
  unfold spans. cbn [lookup]. rewrite String.eqb_refl.
  do 2 f_equal. rewrite Hsrc at 1. rewrite (app_assoc pre lead).
  apply slice_at; rewrite ?length_app; reflexivity.
Qed.

Lemma group_value : group m (val_group (s_kind s)) = Ok (Some (s_value s)).
Proof.
  destruct occ as [Hsrc _ _ _ ->]. unfold group, match_of. cbn [m_names m_marks m_string].
  assert (E : existsb (String.eqb (val_group (s_kind s))) group_names = true)
    by (destruct (s_kind s); reflexivity).
  rewrite E. unfold spans.
  assert (L : forall a b c : nat * nat,
             lookup [("stmt", a); (target_group (s_kind s), b);
                     (val_group (s_kind s), c)] (val_group (s_kind s)) = Some c)
    by (intros; destruct (s_kind s); reflexivity).
  rewrite L. do 2 f_equal. rewrite Hsrc at 1. unfold text.
  rewrite (app_assoc pre lead), <- !app_assoc.
  rewrite (app_assoc (s_keyword s)), (app_assoc pre), (app_assoc (pre ++ lead)).
  apply slice_at; rewrite ?length_app; lia.
Qed.

Lemma group_target : group m (target_group (s_kind s)) = Ok (Some (s_target s)).
Proof.
  destruct occ as [Hsrc _ _ _ ->]. unfold group, match_of. cbn [m_names m_marks m_string].
  assert (E : existsb (String.eqb (target_group (s_kind s))) group_names = true)
    by (destruct (s_kind s); reflexivity).
  rewrite E. unfold spans.
  assert (L : forall a b c : nat * nat,
             lookup [("stmt", a); (target_group (s_kind s), b);
                     (val_group (s_kind s), c)] (target_group (s_kind s)) = Some b)
    by (intros; destruct (s_kind s); reflexivity).
  rewrite L. do 2 f_equal. rewrite Hsrc at 1. unfold text.
  rewrite <- !app_assoc.
  replace (pre ++ lead ++ s_keyword s ++ s_gap1 s ++ s_value s ++ s_gap2 s
             ++ s_link s ++ s_gap3 s ++ s_target s ++ period :: post)
    with ((pre ++ lead ++ s_keyword s ++ s_gap1 s ++ s_value s ++ s_gap2 s
             ++ s_link s ++ s_gap3 s) ++ s_target s ++ period :: post)
    by (rewrite <- !app_assoc; reflexivity).
  apply slice_at; rewrite ?length_app; lia.
Qed.

Lemma match_start : Re.start m = len pre.
Proof. destruct occ as [_ _ _ _ ->]. reflexivity. Qed.

End Groups.

End Matches.

(* ================================================================== *)
(** * The loop over the matches *)
(* ================================================================== *)

Module Loop.

Import PyFacts Matches.

Lemma in_letters (c : ascii) :
  existsb (Ascii.eqb c) letters = true -> In c letters.
Proof.
  intros H. apply existsb_exists in H. destruct H as (y & Hy & E).
  apply Ascii.eqb_eq in E. subst y. exact Hy.
Qed.

Lemma all_in_letters (l : list ascii) :
  forallb (fun c => existsb (Ascii.eqb c) letters) l = true ->
  Forall (fun c => In c letters) l.
Proof.
  intros H. apply Forall_forall. intros c Hc.
  rewrite forallb_forall in H. apply in_letters, H, Hc.
Qed.

Lemma keyword_letters (k : kind) :
  Forall (fun c => In c letters) (list_ascii_of_string (keyword k)).
Proof. apply all_in_letters. destruct k; vm_compute; reflexivity. Qed.

Lemma link_letters (k : kind) :
  Forall (fun c => In c letters) (list_ascii_of_string (link k)).
Proof. apply all_in_letters. destruct k; vm_compute; reflexivity. Qed.

Lemma initial_letter (k : kind) : In (initial k) letters.
Proof. apply in_letters. destruct k; vm_compute; reflexivity. Qed.

Lemma keyword_initial (k : kind) :
  exists l, list_ascii_of_string (keyword k) = initial k :: l.
Proof. destruct k; eexists; reflexivity. Qed.

(** What the pattern reads as a keyword or a linking word is made of word
    characters. *)
Lemma reads_word (l : list ascii) (w : str) :
  Forall (fun c => In c letters) l ->
  Forall2 (fun x c => lit_eq ARITH_RE c x = true) w l ->
  forallb isword w = true.
Proof.
  intros Hl H. induction H as [|x c w l Hx H IH]; [reflexivity|].
  inversion Hl; subst. simpl. rewrite (@letter_word c x H2 Hx). apply IH, H3.
Qed.

(** A word spelled in ASCII letters is read by the pattern. *)
Lemma spells_reads (l : list ascii) (w : str) :
  Forall (fun c => In c letters) l ->
  map small w = map small (map ord l) ->
  Forall2 (fun x c => lit_eq ARITH_RE c x = true) w l.
Proof.
  intros Hl. revert w. induction Hl as [|c l Hc Hl IH]; intros [|x w] H;
    simpl in H; try discriminate; constructor.
  - injection H as Hx _. apply small_letter; assumption.
  - injection H as _ Hw. apply IH, Hw.
Qed.

Lemma spells_dotless (l : list ascii) (w : str) :
  map small w = map small (map ord l) -> existsb (eqc dotted_I) w = false.
Proof.
  revert l. induction w as [|x w IH]; intros [|c l] H; simpl in H;
    try discriminate; [reflexivity|].
  injection H as Hx Hw. cbn [existsb].
  rewrite (small_not_dotted c x Hx). apply (IH l), Hw.
Qed.

Lemma well_formed_written (s : Statement) : well_formed s -> written s.
Proof.
  intros [Hk Hg1 Hv Hg2 Hl Hg3 Ht].
  constructor; try assumption.
  - apply spells_reads; [apply keyword_letters | exact Hk].
  - apply spells_reads; [apply link_letters | exact Hl].
Qed.

Lemma well_formed_dotless (s : Statement) :
  well_formed s -> existsb (eqc dotted_I) (s_keyword s) = false.
Proof.
  intros Hwf. eapply spells_dotless. exact (wf_keyword Hwf).
Qed.

(** The first character of a statement is the first letter of its
    keyword, in a form that [upper] turns into that letter. *)
Lemma keyword_head (s : Statement) :
  written s ->
  exists x w, s_keyword s = x :: w
              /\ isword x = true
              /\ upper_char x = [ord (initial (s_kind s))].
Proof.
  intros [Hk _ _ _ _ _ _]. unfold reads in Hk.
  destruct (keyword_initial (s_kind s)) as (l & E). rewrite E in Hk.
  inversion Hk as [|x c w l' Hx Hw]; subst.
  exists x, w. split; [reflexivity|].
  pose proof (initial_letter (s_kind s)) as Hi.
  split; [exact (@letter_word _ _ Hi Hx)|].
  rewrite (@letter_upper _ _ Hi Hx).
  assert (N : eqc x dotted_I = false).
  { apply lit_eq_in in Hx. destruct (s_kind s); vm_compute in Hx;
      repeat (destruct Hx as [<- | Hx]; [reflexivity|]); destruct Hx. }
  rewrite N. reflexivity.
Qed.

Lemma run_last (k : cls) (w : str) :
  run_of k w -> exists w' z, w = w' ++ [z] /\ in_cls k z = true.
Proof.
  intros [Hw Hn]. destruct (exists_last Hn) as (w' & z & ->).
  exists w', z. split; [reflexivity|].
  rewrite forallb_app in Hw. apply andb_true_iff in Hw. destruct Hw as [_ Hz].
  simpl in Hz. rewrite andb_true_r in Hz. exact Hz.
Qed.

Lemma strip_text (s : Statement) : written s -> strip (text s) = text s.
Proof.
  intros Hwr. destruct (keyword_head Hwr) as (x & w & Hkw & Hx & _).
  destruct (run_last (wr_target Hwr)) as (t' & z & Ht & Hz).
  apply (@strip_id _ x z
           (w ++ s_gap1 s ++ s_value s ++ s_gap2 s ++ s_link s ++ s_gap3 s ++ t')).
  - left. unfold text. rewrite Hkw, Ht. simpl. rewrite <- !app_assoc. reflexivity.
  - apply word_not_space. exact Hx.
  - apply word_not_space. exact Hz.
Qed.

(** The test for the keyword of the statement succeeds unless the keyword
    is written with U+0130. *)
Lemma upper_reads (l : list ascii) (w rest : str) :
  Forall (fun c => In c letters) l ->
  Forall2 (fun x c => lit_eq ARITH_RE c x = true) w l ->
  startswith (upper (w ++ rest)) (map ord l)
  = negb (existsb (eqc dotted_I) w).
Proof.
  intros Hl H. induction H as [|x c w l Hx H IH]; [reflexivity|].
  inversion Hl; subst.
  change ((x :: w) ++ rest) with (x :: (w ++ rest)).
  rewrite upper_cons, (@letter_upper c x H2 Hx).
  cbn [app map startswith existsb]. rewrite (IH H3).
  destruct (eqc x dotted_I) eqn:E.
  - apply eqc_true in E. subst x. rewrite ord_not_dotted, eqc_refl. reflexivity.
  - rewrite eqc_refl.
    assert (E' : eqc dotted_I x = false)
      by (apply eqc_false; apply eqc_false in E; congruence).
    rewrite E'. reflexivity.
Qed.

Lemma upper_own (s : Statement) :
  written s ->
  startswith (upper (text s)) (chars (keyword (s_kind s)))
  = negb (existsb (eqc dotted_I) (s_keyword s)).
Proof.
  intros Hwr. unfold text, chars.
  apply upper_reads; [apply keyword_letters | exact (wr_keyword Hwr)].
Qed.

(** The test for the keyword of another kind fails on the first
    character. *)
Lemma upper_other (s : Statement) (k' : kind) :
  written s -> k' <> s_kind s ->
  startswith (upper (text s)) (chars (keyword k')) = false.
Proof.
  intros Hwr Hk. destruct (keyword_head Hwr) as (x & w & Hkw & _ & Hu).
  unfold text. rewrite Hkw.
  change ((x :: w) ++ ?r) with (x :: (w ++ r)).
  rewrite upper_cons, Hu.
  destruct k', (s_kind s); try congruence; reflexivity.
Qed.

Section Body.

Variables (unit : Unit) (src : str) (m : Match) (pre lead : str)
          (s : Statement) (post : str).
Hypothesis occ : occurrence src m pre lead s post.

Lemma keyword_text_occ : keyword_text m = s_keyword s.
Proof.
  unfold keyword_text. rewrite (group_stmt occ). unfold text.
  pose proof (occ_wr occ) as Hwr.
  apply takewhile_app.
  - pose proof (reads_word (keyword_letters _) (wr_keyword Hwr)) as W.
    rewrite forallb_forall in *. intros c Hc.
    rewrite (word_not_space _ (W c Hc)). reflexivity.
  - destruct (wr_gap1 Hwr) as [Hg Hn].
    destruct (s_gap1 s) as [|c g]; [congruence|]. simpl in *.
    apply andb_true_iff in Hg. destruct Hg as [Hc _]. rewrite Hc. reflexivity.
Qed.

Lemma skipped_occ : skipped m = existsb (eqc dotted_I) (s_keyword s).
Proof. unfold skipped. rewrite keyword_text_occ. reflexivity. Qed.

(** What the [if]/[elif] chain makes of a match. *)
Lemma classify_occ :
  classify m (text s)
  = Ok (if skipped m then None
        else Some (chars (keyword (s_kind s)),
                   Some (s_value s), Some (s_target s))).
Proof.
  pose proof (group_value occ) as Hv. pose proof (group_target occ) as Ht.
  pose proof (occ_wr occ) as Hwr.
  pose proof (upper_own Hwr) as Own.
  pose proof (@upper_other s ADD Hwr) as OA.
  pose proof (@upper_other s SUBTRACT Hwr) as OS.
  pose proof (@upper_other s MULTIPLY Hwr) as OM.
  pose proof (@upper_other s DIVIDE Hwr) as OD.
  rewrite skipped_occ. unfold classify.
  destruct (s_kind s); cbn [keyword val_group target_group] in *;
    rewrite ?OA, ?OS, ?OM, ?OD by discriminate; rewrite Own;
    destruct (existsb (eqc dotted_I) (s_keyword s)); cbn [negb];
    rewrite ?Hv, ?Ht; reflexivity.
Qed.

Lemma make_finding_ok (e : Z) :
  make_finding unit src (len pre) e (chars (keyword (s_kind s)))
               (Some (s_value s)) (Some (s_target s)) (text s)
  = Ok (finding_of unit src pre s).
Proof.
  unfold make_finding, finding_of.
  assert (G : getitem operators (chars (keyword (s_kind s)))
              = Ok (chars (operator (s_kind s))))
    by (destruct (s_kind s); reflexivity).
  assert (P : slice src 0 (len pre) = pre)
    by (rewrite (occ_src occ); apply slice_prefix).
  rewrite G, P. reflexivity.
Qed.

(** One turn of the loop: a finding for the match, or nothing when the
    match is passed over. *)
Lemma scan_match_occ (fs : list Finding) :
  scan_match unit src fs m
  = Ok (if skipped m then fs else fs ++ [finding_of unit src pre s]).
Proof.
  unfold scan_match. rewrite (group_stmt occ). cbn [bind stripped].
  rewrite (strip_text (occ_wr occ)), classify_occ. cbn [bind].
  destruct (skipped m); [reflexivity|].
  rewrite (match_start occ), make_finding_ok. reflexivity.
Qed.

Lemma skipped_well_formed : well_formed s -> skipped m = false.
Proof. intros Hwf. rewrite skipped_occ. apply well_formed_dotless, Hwf. Qed.

Lemma classify_ok :
  well_formed s ->
  classify m (text s)
  = Ok (Some (chars (keyword (s_kind s)), Some (s_value s), Some (s_target s))).
Proof. intros Hwf. rewrite classify_occ, (skipped_well_formed Hwf). reflexivity. Qed.

Lemma scan_match_ok (fs : list Finding) :
  well_formed s ->
  scan_match unit src fs m = Ok (fs ++ [finding_of unit src pre s]).
Proof. intros Hwf. rewrite scan_match_occ, (skipped_well_formed Hwf). reflexivity. Qed.

End Body.

Lemma scan_matches_ok (unit : Unit) (src : str) (ms : list Match) :
  (forall m, In m ms -> exists pre lead s post, occurrence src m pre lead s post) ->
  forall fs, exists fs',
    scan_matches unit src fs ms = Ok (fs ++ fs')
    /\ Forall2 (reports unit src) (reported ms) fs'.
Proof.
  induction ms as [|m ms IH]; intros H fs.
  - exists []. rewrite app_nil_r. split; [reflexivity | constructor].
  - destruct (H m (or_introl eq_refl)) as (pre & lead & s & post & Hocc).
    cbn [scan_matches reported filter]. rewrite (scan_match_occ unit Hocc).
    cbn [bind]. fold (reported ms).
    destruct (skipped m); cbn [negb].
    + apply IH. intros m' Hm'. apply H. right. exact Hm'.
    + destruct (IH (fun m' Hm' => H m' (or_intror Hm'))
                   (fs ++ [finding_of unit src pre s])) as (fs' & Hfs & F).
      exists (finding_of unit src pre s :: fs'). split.
      * rewrite Hfs, <- app_assoc. reflexivity.
      * constructor; [|exact F]. exists pre, lead, s, post. auto.
Qed.

(** The findings of a unit: the scan of its text never raises, and reports
    the matches of [finditer] in order, except those that it passes
    over. *)
Lemma findings_ok (unit : Unit) :
  let src := or_empty (code unit) in
  exists fs,
    scan_matches unit src [] (finditer ARITH_RE src) = Ok fs
    /\ Forall2 (reports unit src) (reported (finditer ARITH_RE src)) fs.
Proof.
  intros src.
  destruct (@scan_matches_ok unit src (finditer ARITH_RE src)
              (@finditer_occurrence src) []) as (fs & H & F).
  exists fs. auto.
Qed.

Lemma update_last (h : store) (u : Unit) (f : Unit -> Unit) :
  update (h ++ [u]) (List.length h) f = Some (h ++ [f u]).
Proof.
  induction h as [|x h IH]; simpl; [reflexivity | rewrite IH; reflexivity].
Qed.

(** What one call of [scan_unit] does to the store. *)
Lemma scan_unit_run (h : store) (r : ref) (u : Unit) :
  nth_error h r = Some u ->
  exists fs,
    scan_matches u (or_empty (code u)) [] (finditer ARITH_RE (or_empty (code u)))
      = Ok fs
    /\ scan_unit r h = Ok (List.length h, h ++ [with_findings (if_any fs) u]).
Proof.
  intros Hr. destruct (findings_ok u) as (fs & Hfs & _).
  exists fs. split; [exact Hfs|].
  unfold scan_unit, bindM, load, lift, new, set_findings, ret, model_dump.
  rewrite Hr, Hfs, update_last. reflexivity.
Qed.

(** The line around an offset: [extract_exact_line] at the end of [pre]
    gives the end of [pre] after its last line feed and the start of [suf]
    before its first one. *)
Lemma extract_exact_line_spec (pre suf : str) :
  exists a l1 l2 b,
    pre = a ++ l1 /\ suf = l2 ++ b
    /\ extract_exact_line (pre ++ suf) (len pre) = l1 ++ l2
    /\ ~ In LF (l1 ++ l2)
    /\ (a = [] \/ exists a', a = a' ++ [LF])
    /\ (b = [] \/ exists b', b = LF :: b').
Proof.
  unfold extract_exact_line. rewrite rfind_prefix, find_suffix.
  pose proof (len_nonneg pre) as Lp.
  destruct (@rindex_from_spec LF pre 0 (Z.le_refl 0))
    as [[Hn1 ->] | (a0 & l1 & Hpre & Hn1 & ->)];
  destruct (index_from_spec LF suf (len pre))
    as [[Hn2 ->] | (l2 & b0 & Hsuf & Hn2 & ->)].
  - exists [], pre, suf, []. simpl. rewrite app_nil_r.
    repeat split; auto.
    + apply slice_whole.
    + rewrite in_app_iff. tauto.
  - exists [], pre, l2, (LF :: b0). simpl.
    pose proof (len_nonneg l2).
    destruct (Z.eqb_spec (len pre + len l2) (-1)); [lia|].
    repeat split; eauto.
    + apply (@slice_eq _ [] (pre ++ l2) (LF :: b0)).
      * rewrite Hsuf, <- app_assoc. reflexivity.
      * reflexivity.
      * rewrite len_app. reflexivity.
    + rewrite in_app_iff. tauto.
  - exists (a0 ++ [LF]), l1, suf, []. rewrite app_nil_r.
    pose proof (len_nonneg a0).
    destruct (Z.eqb_spec (0 + len a0) (-1)); [lia|].
    change (-1 =? -1) with true. cbv iota.
    repeat split; eauto.
    + rewrite Hpre, <- app_assoc. reflexivity.
    + apply (@slice_eq _ (a0 ++ [LF]) (l1 ++ suf) []).
      * rewrite Hpre, app_nil_r, <- !app_assoc. reflexivity.
      * rewrite len_app. unfold len. simpl. lia.
      * rewrite Hpre, !len_app. unfold len. simpl List.length. lia.
    + rewrite in_app_iff. tauto.
  - exists (a0 ++ [LF]), l1, l2, (LF :: b0).
    pose proof (len_nonneg a0). pose proof (len_nonneg l2).
    destruct (Z.eqb_spec (0 + len a0) (-1)); [lia|].
    destruct (Z.eqb_spec (len pre + len l2) (-1)); [lia|].
    repeat split; eauto.
    + rewrite Hpre, <- app_assoc. reflexivity.
    + apply (@slice_eq _ (a0 ++ [LF]) (l1 ++ l2) (LF :: b0)).
      * rewrite Hpre, Hsuf, <- !app_assoc. reflexivity.
      * rewrite len_app. unfold len. simpl. lia.
      * rewrite Hpre, !len_app. unfold len. simpl List.length. lia.
    + rewrite in_app_iff. tauto.
Qed.

End Loop.

(* ================================================================== *)
(** * A statement at the start of a line is matched *)
(* ================================================================== *)

Module Complete.

Import ReFacts PyFacts Shape Matches Loop.

Lemma many_greedy (R : Type) (k : cls) (w : str) :
  forall (pos : nat) (rest : str) (cont : nat -> str -> option R) (x : R),
    forallb (in_cls k) w = true ->
    stops k rest ->
    cont (pos + List.length w)%nat rest = Some x ->
    many k pos (w ++ rest) cont = Some x.
Proof.
  induction w as [|c w IH]; intros pos rest cont x Hw Hs Hc.
  - simpl in *. rewrite Nat.add_0_r in Hc.
    destruct rest as [|c rest]; simpl; [exact Hc|].
    simpl in Hs. rewrite Hs. exact Hc.
  - simpl in Hw. apply andb_true_iff in Hw. destruct Hw as [Hc0 Hw].
    simpl. rewrite Hc0.
    rewrite (IH (S pos) rest cont x Hw Hs); [reflexivity|].
    simpl in Hc. rewrite Nat.add_succ_r in Hc. exact Hc.
Qed.

Lemma plus_greedy (R : Type) (src : str) (k : cls) (w : str) :
  forall (pos : nat) (rest : str) (ms : marks)
         (cont : nat -> str -> marks -> option R) (x : R),
    run_of k w ->
    stops k rest ->
    cont (pos + List.length w)%nat rest ms = Some x ->
    run ARITH_RE src (Plus k) pos (w ++ rest) ms cont = Some x.
Proof.
  intros pos rest ms cont x [Hw Hn] Hs Hc.
  destruct w as [|c w]; [congruence|].
  simpl in Hw. apply andb_true_iff in Hw. destruct Hw as [Hc0 Hw].
  simpl. rewrite Hc0.
  apply many_greedy; [exact Hw | exact Hs|].
  simpl in Hc. rewrite Nat.add_succ_r in Hc. exact Hc.
Qed.

Lemma word_run (R : Type) (src : str) (l : list ascii) :
  forall (w : str) (pos : nat) (rest : str) (ms : marks)
         (cont : nat -> str -> marks -> option R),
    Forall2 (fun x c => lit_eq ARITH_RE c x = true) w l ->
    run ARITH_RE src (fold_right (fun c r => Cat (Lit c) r) Eps l)
        pos (w ++ rest) ms cont
    = cont (pos + List.length w)%nat rest ms.
Proof.
  induction l as [|c l IH]; intros w pos rest ms cont H;
    inversion H as [|x c' w' l' Hx Hw]; subst.
  - simpl. rewrite Nat.add_0_r. reflexivity.
  - cbn [fold_right app run]. rewrite Hx.
    rewrite (IH w' (S pos) rest ms cont Hw). simpl.
    rewrite Nat.add_succ_r. reflexivity.
Qed.

(** The first character of a run of one class stops a run of the other. *)
Lemma stops_space (w rest : str) : run_of Word w -> stops Space (w ++ rest).
Proof.
  intros [Hw Hn]. destruct w as [|c w]; [congruence|].
  simpl in *. apply andb_true_iff in Hw. apply word_not_space, Hw.
Qed.

Lemma stops_word (w rest : str) : run_of Space w -> stops Word (w ++ rest).
Proof.
  intros [Hw Hn]. destruct w as [|c w]; [congruence|].
  simpl in *. apply andb_true_iff in Hw. apply space_not_word, Hw.
Qed.

Lemma spelled_run (k : kind) (w : str) (s : string) :
  s = keyword k \/ s = link k -> reads w s -> run_of Word w.
Proof.
  intros Hs H. unfold reads in H.
  assert (L : Forall (fun c => In c letters) (list_ascii_of_string s))
    by (destruct Hs as [-> | ->]; [apply keyword_letters | apply link_letters]).
  split; [exact (reads_word L H)|].
  intros ->. inversion H as [E|]. destruct Hs as [-> | ->]; destruct k; discriminate.
Qed.

Lemma run_Cat (R : Type) (src : str) (r1 r2 : regex) (pos : nat) (rest : str)
    (ms : marks) (cont : nat -> str -> marks -> option R) :
  run ARITH_RE src (Cat r1 r2) pos rest ms cont
  = run ARITH_RE src r1 pos rest ms
      (fun pos' rest' ms' => run ARITH_RE src r2 pos' rest' ms' cont).
Proof. reflexivity. Qed.

Lemma run_Grp (R : Type) (src : str) (n : string) (r : regex) (pos : nat)
    (rest : str) (ms : marks) (cont : nat -> str -> marks -> option R) :
  run ARITH_RE src (Grp n r) pos rest ms cont
  = run ARITH_RE src r pos rest ms
      (fun pos' rest' ms' => cont pos' rest' ((n, (pos, pos')) :: ms')).
Proof. reflexivity. Qed.

Lemma form_run (R : Type) (src : str) (s : Statement) :
  forall (pos : nat) (rest : str) (ms : marks)
         (cont : nat -> str -> marks -> option R) (x : R),
    written s ->
    stops Word rest ->
    cont (pos + List.length (text s))%nat rest (tl (spans s pos) ++ ms) = Some x ->
    run ARITH_RE src (form_of (s_kind s)) pos (text s ++ rest) ms cont = Some x.
Proof.
  intros pos rest ms cont x Hwr Hs Hc.
  destruct Hwr as [Hkw Hg1 Hv Hg2 Hlk Hg3 Ht].
  assert (Hlk' : run_of Word (s_link s))
    by (eapply spelled_run; [right; reflexivity | exact Hlk]).
  unfold form_of, form, word, text. rewrite <- !app_assoc.
  rewrite run_Cat. erewrite word_run by exact Hkw.
  rewrite run_Cat.
  apply plus_greedy; [exact Hg1 | apply stops_space, Hv|].
  rewrite run_Cat, run_Grp.
  apply plus_greedy; [exact Hv | apply stops_word, Hg2|].
  rewrite run_Cat.
  apply plus_greedy; [exact Hg2 | apply stops_space, Hlk'|].
  rewrite run_Cat. erewrite word_run by exact Hlk.
  rewrite run_Cat.
  apply plus_greedy; [exact Hg3 | apply stops_space, Ht|].
  rewrite run_Grp.
  apply plus_greedy; [exact Ht | exact Hs|].
  rewrite <- Hc. unfold text, spans. cbn [tl app s_kind].
  rewrite !length_app. f_equal. lia.
Qed.

(** A form of another kind fails on the first letter of the statement. *)
Lemma form_fail (R : Type) (src : str) (s : Statement) (k' : kind) :
  forall (pos : nat) (rest : str) (ms : marks)
         (cont : nat -> str -> marks -> option R),
    written s ->
    k' <> s_kind s ->
    run ARITH_RE src (form_of k') pos (text s ++ rest) ms cont = None.
Proof.
  intros pos rest ms cont Hwr Hk. pose proof (wr_keyword Hwr) as Hkw.
  unfold reads in Hkw. unfold text.
  destruct (keyword_initial (s_kind s)) as (l & E). rewrite E in Hkw.
  inversion Hkw as [|x c w l' Hx Hw Ew El]; subst.
  unfold form_of, form, word. rewrite run_Cat.
  destruct (keyword_initial k') as (l0 & E0). rewrite E0.
  cbn [fold_right]. rewrite run_Cat. cbn [run app].
  assert (N : lit_eq ARITH_RE (initial k') x = false).
  { destruct (lit_eq ARITH_RE (initial k') x) eqn:N; [|reflexivity].
    exfalso. apply lit_eq_in in Hx, N.
    destruct k', (s_kind s); try congruence; vm_compute in Hx, N;
      repeat (destruct Hx as [<- | Hx]; [|]); try destruct Hx;
      repeat (destruct N as [N | N]; [discriminate N|]); destruct N. }
  rewrite N. reflexivity.
Qed.

Lemma alternatives_run (R : Type) (src : str) (s : Statement) :
  forall (pos : nat) (rest : str) (ms : marks)
         (cont : nat -> str -> marks -> option R) (x : R),
    written s ->
    stops Word rest ->
    cont (pos + List.length (text s))%nat rest (tl (spans s pos) ++ ms) = Some x ->
    run ARITH_RE src
        (Alt (form_of ADD)
          (Alt (form_of SUBTRACT) (Alt (form_of MULTIPLY) (form_of DIVIDE))))
        pos (text s ++ rest) ms cont = Some x.
Proof.
  intros pos rest ms cont x Hwf Hs Hc.
  pose proof (form_run src pos rest ms cont Hwf Hs Hc) as F.
  destruct (s_kind s) eqn:K; cbn [run].
  - rewrite F. reflexivity.
  - rewrite (@form_fail _ src s ADD) by (auto; congruence).
    rewrite F. reflexivity.
  - rewrite (@form_fail _ src s ADD) by (auto; congruence).
    rewrite (@form_fail _ src s SUBTRACT) by (auto; congruence).
    rewrite F. reflexivity.
  - rewrite (@form_fail _ src s ADD) by (auto; congruence).
    rewrite (@form_fail _ src s SUBTRACT) by (auto; congruence).
    rewrite (@form_fail _ src s MULTIPLY) by (auto; congruence).
    exact F.
Qed.

(** An attempt at the start of a line succeeds when only blanks stand
    between that offset and a statement with its period. *)
Lemma match_at_complete (src pre lead : str) (s : Statement) (post : str) :
  at_bol ARITH_RE src (List.length pre) = true ->
  forallb isspace lead = true ->
  written s ->
  match_at ARITH_RE src (List.length pre) (lead ++ text s ++ period :: post)
  = Some (match_of src (List.length pre) lead s).
Proof.
  intros Hb Hl Hwf. unfold match_at. rewrite ARITH_RE_forms.
  rewrite run_Cat. cbn [run]. rewrite Hb.
  apply many_greedy; [exact Hl| |].
  { assert (Hk : run_of Word (s_keyword s))
      by (eapply spelled_run; [left; reflexivity | exact (wr_keyword Hwf)]).
    unfold text. rewrite <- !app_assoc. apply stops_space, Hk. }
  apply alternatives_run; [exact Hwf | reflexivity|].
  unfold match_of, spans. cbn. reflexivity.
Qed.

End Complete.

(* ================================================================== *)
(** * A match that reaches into a statement is the match of that statement *)
(* ================================================================== *)

Module Unique.

Import ReFacts PyFacts Shape Matches Loop Complete.

Lemma split_run (k : cls) (a : str) :
  forall a' r r',
    a ++ r = a' ++ r' ->
    forallb (in_cls k) a = true -> forallb (in_cls k) a' = true ->
    stops k r -> stops k r' ->
    a = a' /\ r = r'.
Proof.
  induction a as [|c a IH]; intros [|c' a'] r r' E Ha Ha' Hr Hr'; simpl in *.
  - auto.
  - subst r. simpl in Hr. apply andb_true_iff in Ha'. destruct Ha'. congruence.
  - subst r'. simpl in Hr'. apply andb_true_iff in Ha. destruct Ha. congruence.
  - injection E as -> E. apply andb_true_iff in Ha. apply andb_true_iff in Ha'.
    destruct (IH a' r r' E) as [-> ->]; tauto.
Qed.

Lemma run_of_rev (k : cls) (w : str) : run_of k w -> run_of k (rev w).
Proof.
  intros [Hw Hn]. split.
  - rewrite forallb_forall in *. intros c Hc. apply Hw, in_rev, Hc.
  - intros E. apply Hn. rewrite <- (rev_involutive w), E. reflexivity.
Qed.

Lemma forallb_rev (P : char -> bool) (w : str) :
  forallb P w = true -> forallb P (rev w) = true.
Proof.
  intros Hw. rewrite forallb_forall in *. intros c Hc. apply Hw, in_rev, Hc.
Qed.

Lemma plain_run (k : cls) (w : str) :
  forallb (in_cls k) w = true -> forallb plain w = true.
Proof.
  intros H. rewrite forallb_forall in *. intros c Hc. specialize (H c Hc).
  unfold plain. destruct k; simpl in H; rewrite H; auto using orb_true_r.
Qed.

Lemma plain_text (lead : str) (s : Statement) :
  forallb isspace lead = true -> written s ->
  forallb plain (lead ++ text s) = true.
Proof.
  intros Hl Hwf. unfold text. rewrite !forallb_app.
  rewrite (@plain_run Space lead Hl).
  rewrite (@plain_run Word (s_keyword s));
    [|exact (reads_word (keyword_letters _) (wr_keyword Hwf))].
  rewrite (@plain_run Space (s_gap1 s) (proj1 (wr_gap1 Hwf))).
  rewrite (@plain_run Word (s_value s) (proj1 (wr_value Hwf))).
  rewrite (@plain_run Space (s_gap2 s) (proj1 (wr_gap2 Hwf))).
  rewrite (@plain_run Word (s_link s));
    [|exact (reads_word (link_letters _) (wr_link Hwf))].
  rewrite (@plain_run Space (s_gap3 s) (proj1 (wr_gap3 Hwf))).
  rewrite (@plain_run Word (s_target s) (proj1 (wr_target Hwf))).
  reflexivity.
Qed.

(** Two texts without a period that are followed by a period are the same
    text as soon as they end at the same place. *)
Lemma split_period (x y post post' : str) :
  x ++ period :: post' = y ++ period :: post ->
  forallb plain x = true -> forallb plain y = true ->
  x = y /\ post' = post.
Proof.
  revert y. induction x as [|c x IH]; intros [|c' y] E Hx Hy;
    cbn [app forallb] in *.
  - injection E as ->. auto.
  - injection E as <- _. change 46%N with period in Hy.
    rewrite period_not_plain in Hy. discriminate.
  - injection E as -> _. change 46%N with period in Hx.
    rewrite period_not_plain in Hx. discriminate.
  - injection E as -> E. apply andb_true_iff in Hx. apply andb_true_iff in Hy.
    destruct (IH y E) as [-> ->]; tauto.
Qed.

Lemma same_kind (w : str) (k k' : kind) :
  reads w (keyword k) -> reads w (keyword k') -> k = k'.
Proof.
  unfold reads. intros H H'.
  destruct (keyword_initial k) as (l & E). rewrite E in H.
  destruct (keyword_initial k') as (l' & E'). rewrite E' in H'.
  inversion H as [|x c w0 l0 Hx Hw]; subst.
  inversion H' as [|x' c' w1 l1 Hx' Hw']; subst.
  apply lit_eq_in in Hx, Hx'.
  destruct k, k'; try reflexivity; exfalso; vm_compute in Hx, Hx';
    repeat (destruct Hx as [<- | Hx]; [|]); try destruct Hx;
    repeat (destruct Hx' as [Hx' | Hx']; [discriminate Hx'|]); destruct Hx'.
Qed.

Lemma app_split (a b c d : str) :
  a ++ b = c ++ d -> (List.length a <= List.length c)%nat ->
  exists e, c = a ++ e /\ b = e ++ d.
Proof.
  revert c. induction a as [|x a IH]; intros c E L; simpl in *.
  - exists c. auto.
  - destruct c as [|y c]; simpl in *; [lia|].
    injection E as -> E. destruct (IH c E) as (e & -> & ->); [lia|].
    exists e. auto.
Qed.

Section Overlap.

Variables (src pre lead : str) (s : Statement) (post : str).
Hypothesis Hsrc : src = pre ++ lead ++ text s ++ period :: post.
Hypothesis Hpre : pre = [] \/ exists p, pre = p ++ [LF].
Hypothesis Hlead : forallb isspace lead = true.
Hypothesis Hwf : written s.

Lemma overlap (m' : Match) (pre' lead' : str) (s' : Statement) (post' : str) :
  occurrence src m' pre' lead' s' post' ->
  (List.length pre' <= List.length pre)%nat ->
  (List.length pre < m_end m')%nat ->
  s' = s /\ post' = post /\ pre' ++ lead' = pre ++ lead.
Proof.
  intros [Hsrc' Hb' Hlead' Hwf' ->] Hle Hlt. cbn [m_end match_of] in Hlt.
  rewrite Hsrc in Hsrc'.
  destruct (@app_split _ _ _ _ (eq_sym Hsrc') Hle) as (d & Hd & E).
  assert (Ld : (List.length d <= List.length (lead' ++ text s'))%nat).
  { rewrite Hd, !length_app in *. lia. }
  rewrite (app_assoc lead') in E. symmetry in E.
  destruct (@app_split _ _ _ _ E Ld) as (x2 & Hx & E2).
  assert (P' : forallb plain (lead' ++ text s') = true)
    by (apply plain_text; assumption).
  assert (P2 : forallb plain x2 = true).
  { rewrite Hx, forallb_app in P'. apply andb_true_iff in P'. tauto. }
  rewrite (app_assoc lead) in E2. symmetry in E2.
  destruct (@split_period _ _ _ _ E2 P2 (@plain_text lead s Hlead Hwf))
    as [-> ->].
  (* lead' ++ text s' = d ++ lead ++ text s : align the pieces from the end *)
  assert (R : rev (text s') ++ rev lead' = rev (text s) ++ rev (d ++ lead)).
  { rewrite <- !rev_app_distr. f_equal. rewrite Hx, <- app_assoc. reflexivity. }
  unfold text in R. rewrite !rev_app_distr, <- !app_assoc in R.
  destruct Hwf as [Hkw Hg1 Hv Hg2 Hlk Hg3 Ht].
  destruct Hwf' as [Hkw' Hg1' Hv' Hg2' Hlk' Hg3' Ht'].
  assert (Wk : run_of Word (s_keyword s))
    by (eapply spelled_run; [left; reflexivity | exact Hkw]).
  assert (Wk' : run_of Word (s_keyword s'))
    by (eapply spelled_run; [left; reflexivity | exact Hkw']).
  assert (Wl : run_of Word (s_link s))
    by (eapply spelled_run; [right; reflexivity | exact Hlk]).
  assert (Wl' : run_of Word (s_link s'))
    by (eapply spelled_run; [right; reflexivity | exact Hlk']).
  assert (S1 : stops Word (rev lead')).
  { pose proof (@forallb_rev _ _ Hlead') as F. destruct (rev lead'); simpl in *;
      [exact I|]. apply andb_true_iff in F. apply space_not_word, F. }
  assert (S2 : stops Word (rev lead ++ rev d)).
  { pose proof (@forallb_rev _ _ Hlead) as F. destruct (rev lead) as [|c l]; simpl in *.
    - destruct d as [|c d] using rev_ind; [exact I|].
      rewrite rev_app_distr. simpl.
      destruct Hpre as [Hp | (p & Hp)].
      + exfalso. rewrite Hp in Hd. apply (f_equal (@List.length char)) in Hd.
        rewrite !length_app in Hd. simpl in Hd. lia.
      + rewrite Hp, app_assoc in Hd. apply app_inj_tail in Hd.
        destruct Hd as [_ <-]. reflexivity.
    - apply andb_true_iff in F. apply space_not_word, F. }
  apply run_of_rev in Hg1, Hv, Hg2, Hg3, Ht, Hg1', Hv', Hg2', Hg3', Ht', Wk, Wk', Wl, Wl'.
  apply split_run with (k := Word) in R;
    [|apply Ht' | apply Ht | apply stops_word, Hg3' | apply stops_word, Hg3].
  destruct R as [Et R].
  apply split_run with (k := Space) in R;
    [|apply Hg3' | apply Hg3 | apply stops_space, Wl' | apply stops_space, Wl].
  destruct R as [Eg3 R].
  apply split_run with (k := Word) in R;
    [|apply Wl' | apply Wl | apply stops_word, Hg2' | apply stops_word, Hg2].
  destruct R as [El R].
  apply split_run with (k := Space) in R;
    [|apply Hg2' | apply Hg2 | apply stops_space, Hv' | apply stops_space, Hv].
  destruct R as [Eg2 R].
  apply split_run with (k := Word) in R;
    [|apply Hv' | apply Hv | apply stops_word, Hg1' | apply stops_word, Hg1].
  destruct R as [Ev R].
  apply split_run with (k := Space) in R;
    [|apply Hg1' | apply Hg1 | apply stops_space, Wk' | apply stops_space, Wk].
  destruct R as [Eg1 R].
  apply split_run with (k := Word) in R;
    [|apply Wk' | apply Wk | exact S1 | exact S2].
  destruct R as [Ek Eld].
  assert (I : forall a b : str, rev a = rev b -> a = b).
  { intros a b H. rewrite <- (rev_involutive a), H. apply rev_involutive. }
  rewrite <- rev_app_distr in Eld.
  apply I in Et, Eg3, El, Eg2, Ev, Eg1, Ek, Eld.
  assert (K : s_kind s' = s_kind s).
  { rewrite Ek in Hkw'. eapply same_kind; eassumption. }
  split; [|split].
  - destruct s, s'. simpl in *. subst. reflexivity.
  - reflexivity.
  - rewrite Eld, Hd, <- app_assoc. reflexivity.
Qed.

Lemma bol_pre : at_bol ARITH_RE src (List.length pre) = true.
Proof.
  destruct Hpre as [-> | (p & ->)]; [reflexivity|].
  rewrite length_app, Nat.add_1_r. cbn [at_bol MULTILINE ARITH_RE andb].
  rewrite Hsrc, <- app_assoc, nth_error_app2, Nat.sub_diag by lia. reflexivity.
Qed.

Lemma after_resume (pos : nat) (rest : str) (resume : nat) (m : Match) :
  rest = skipn pos src ->
  In m (scan ARITH_RE src pos rest resume) -> (resume <= m_start m)%nat.
Proof.
  intros Hr Hin. apply scan_in in Hin; [|exact Hr].
  destruct Hin as (q & _ & Hq & Hm). apply match_at_sound in Hm.
  destruct Hm as (l0 & s0 & r0 & _ & _ & _ & _ & ->). exact Hq.
Qed.

Lemma scan_step (pos : nat) (c : char) (rest : str) (resume : nat) :
  (pos <= List.length pre)%nat ->
  (resume <= List.length pre)%nat ->
  c :: rest = skipn pos src ->
  (forall resume', (S pos <= List.length pre)%nat ->
                   (resume' <= List.length pre)%nat ->
                   yields src pre lead s post (scan ARITH_RE src (S pos) rest resume')) ->
  yields src pre lead s post (scan ARITH_RE src pos (c :: rest) resume).
Proof.
  intros Hpos Hres Hrest IH.
  assert (Hrest' : rest = skipn (S pos) src).
  { replace (S pos) with (1 + pos)%nat by lia.
    rewrite <- skipn_skipn, <- Hrest. reflexivity. }
  cbn [scan]. destruct (Nat.ltb_spec pos resume) as [L|L].
  - apply IH; lia.
  - destruct (match_at ARITH_RE src pos (c :: rest)) as [m'|] eqn:Em.
    + rewrite Hrest in Em. pose proof Em as Hocc.
      apply match_at_occurrence in Hocc.
      destruct Hocc as (pre' & lead' & s' & post' & Hocc & Hlen).
      assert (Hend : (pos < m_end m')%nat).
      { rewrite (occ_match Hocc). cbn [m_end match_of]. lia. }
      destruct (Nat.le_gt_cases (m_end m') (List.length pre)) as [Le|Gt].
      * destruct (IH (Nat.max (m_end m') (S pos))) as (ms1 & m & ms2 & E & F & B & A);
          [lia | lia |].
        exists (m' :: ms1), m, ms2. rewrite E. split; [reflexivity|].
        split; [exact F|]. split; [|exact A].
        intros m0 [<-|H0]; [exact Le | apply B, H0].
      * assert (Hle : (List.length pre' <= List.length pre)%nat) by lia.
        destruct (overlap Hocc Hle Gt) as (-> & -> & Epl).
        exists [], m', (scan ARITH_RE src (S pos) rest (Nat.max (m_end m') (S pos))).
        split; [reflexivity|]. split; [exists pre', lead'; auto|].
        split; [intros m0 []|].
        intros m0 H0. apply after_resume in H0; [lia | exact Hrest'].
    + assert (pos = List.length pre \/ (pos < List.length pre)%nat) as [->|Lt] by lia.
      * exfalso.
        rewrite Hrest, Hsrc, skipn_app, skipn_all, Nat.sub_diag in Em.
        cbn [skipn app] in Em.
        rewrite <- Hsrc in Em.
        rewrite (@match_at_complete src pre lead s post bol_pre Hlead Hwf) in Em.
        discriminate.
      * apply IH; lia.
Qed.

Lemma scan_yields (n : nat) :
  forall pos rest resume,
    (List.length pre - pos <= n)%nat ->
    (pos <= List.length pre)%nat ->
    (resume <= List.length pre)%nat ->
    rest = skipn pos src ->
    yields src pre lead s post (scan ARITH_RE src pos rest resume).
Proof.
  assert (Hlen : (List.length pre < List.length src)%nat).
  { rewrite Hsrc, !length_app. simpl. lia. }
  induction n as [|n IH]; intros pos rest resume Hn Hpos Hres Hrest;
    (destruct rest as [|c rest];
     [exfalso; apply (f_equal (@List.length char)) in Hrest;
      rewrite length_skipn in Hrest; simpl in Hrest; lia|]);
    apply scan_step; auto.
  - intros resume' H. lia.
  - intros resume' H1 H2. apply IH; try lia.
    replace (S pos) with (1 + pos)%nat by lia.
    rewrite <- skipn_skipn, <- Hrest. reflexivity.
Qed.

Lemma finditer_yields : yields src pre lead s post (finditer ARITH_RE src).
Proof.
  apply (scan_yields (n := List.length pre)); try lia. reflexivity.
Qed.

End Overlap.

End Unique.

(* ================================================================== *)
(** * The properties of the scanner *)
(* ================================================================== *)

Module Claims.

Import PyFacts Matches Loop Complete Unique.

Lemma nth_error_last (h : store) (u : Unit) :
  nth_error (h ++ [u]) (List.length h) = Some u.
Proof. rewrite nth_error_app2, Nat.sub_diag by lia. reflexivity. Qed.

Lemma Forall2_in_l (A B : Type) (R : A -> B -> Prop) (la : list A) (lb : list B) :
  Forall2 R la lb -> Forall2 (fun a b => In a la /\ R a b) la lb.
Proof.
  intros F. induction F as [|a b la lb H F IH]; constructor.
  - split; [left; reflexivity | exact H].
  - eapply Forall2_impl; [|exact IH]. intros a' b' [Hin HR].
    split; [right; exact Hin | exact HR].
Qed.

Lemma Forall2_Forall_r (A B : Type) (R : A -> B -> Prop) (P : B -> Prop)
    (la : list A) (lb : list B) :
  (forall a b, R a b -> P b) -> Forall2 R la lb -> Forall P lb.
Proof.
  intros H F. induction F; constructor; eauto.
Qed.

Lemma reported_in (ms : list Match) (m : Match) :
  In m (reported ms) <-> In m ms /\ skipped m = false.
Proof.
  unfold reported. rewrite filter_In.
  destruct (skipped m); simpl; intuition congruence.
Qed.

Lemma scan_unit_reports (h : store) (unit : ref) (u : Unit) :
  nth_error h unit = Some u ->
  exists fs,
    Forall2 (reports u (source u)) (reported (finditer ARITH_RE (source u))) fs
    /\ scan_unit unit h = Ok (List.length h, h ++ [with_findings (if_any fs) u]).
Proof.
  intros Hr. destruct (findings_ok u) as (fs & Hfs & F).
  destruct (scan_unit_run h unit Hr) as (fs' & Hfs' & Hrun).
  rewrite Hfs in Hfs'. injection Hfs' as <-. exists fs. auto.
Qed.

Lemma scanUnit_reports (h : store) (unit : ref) (u : Unit) :
  nth_error h unit = Some u ->
  exists fs,
    Forall2 (reports u (source u)) (reported (finditer ARITH_RE (source u))) fs
    /\ scanUnit h unit = Ok (with_findings (if_any fs) u).
Proof.
  intros Hr. destruct (scan_unit_reports h unit Hr) as (fs & F & Hrun).
  exists fs. split; [exact F|].
  unfold scanUnit, bindM, load. rewrite Hrun, nth_error_last. reflexivity.
Qed.

Lemma scanUnit_run (h : store) (unit : ref) (u : Unit) :
  nth_error h unit = Some u ->
  exists fs,
    scan_matches u (source u) [] (finditer ARITH_RE (source u)) = Ok fs
    /\ Forall2 (reports u (source u)) (reported (finditer ARITH_RE (source u))) fs
    /\ scanUnit h unit = Ok (with_findings (if_any fs) u).
Proof.
  intros Hr. destruct (findings_ok u) as (fs & Hfs & F).
  destruct (scanUnit_reports h unit Hr) as (fs' & F' & Hrun).
  destruct (scan_unit_run h unit Hr) as (fs'' & Hfs'' & Hrun'').
  exists fs. split; [exact Hfs|]. split; [exact F|].
  unfold scanUnit, bindM, load. rewrite Hrun''.
  rewrite nth_error_last. unfold source in Hfs. rewrite Hfs in Hfs''.
  injection Hfs'' as <-. reflexivity.
Qed.

(** What the loop body reads from a match that it reports. *)
Lemma reported_kind (src : str) (m : Match) (pre lead : str) (s : Statement)
    (post : str) :
  occurrence src m pre lead s post ->
  skipped m = false ->
  strip (text s) = text s
  /\ startswith (upper (text s)) (keyword (s_kind s)) = true.
Proof.
  intros Hocc Hs. split; [exact (strip_text (occ_wr Hocc))|].
  rewrite (upper_own (occ_wr Hocc)), <- (skipped_occ Hocc), Hs. reflexivity.
Qed.

(** C3. For every match that the scan of a unit detects, that is, every
    match of the pattern but those that the loop passes over, the finding
    built for it carries the suggestion
    [Replace '<matched text>' with '<target> <operator> <value>'.], where
    the matched text, the value and the target are the groups of the match
    and the operator is read from the table ADD [+=], SUBTRACT [-=],
    MULTIPLY [*=], DIVIDE [/=] at the kind that the loop body reads from
    the matched text; for SUBTRACT this is [<target> -= <value>], the
    operands in the order of the statement.  The findings are those of
    these matches, one for each, in order. *)
Theorem suggestion_format (h : store) (unit : ref) (u : Unit) :
  nth_error h unit = Some u ->
  exists u' fs,
    scanUnit h unit = Ok u'
    /\ findings u' = if_any fs
    /\ Forall2
         (fun m f =>
            exists k stmt value target,
              group m "stmt" = Ok (Some stmt)
              /\ strip stmt = stmt
              /\ startswith (upper stmt) (keyword k) = true
              /\ group m (val_group k) = Ok (Some value)
              /\ group m (target_group k) = Ok (Some target)
              /\ suggestion f
                 = Some ("Replace '" ++ stmt ++ "' with '" ++ target
                           ++ " " ++ operator k ++ " " ++ value ++ "'.")
              /\ (k = SUBTRACT ->
                  suggestion f
                  = Some ("Replace '" ++ stmt ++ "' with '" ++ target
                            ++ " -= " ++ value ++ "'.")))
         (reported (finditer ARITH_RE (source u))) fs.
Proof.
  intros Hr. destruct (scanUnit_reports h unit Hr) as (fs & F & Hrun).
  exists (with_findings (if_any fs) u), fs.
  split; [exact Hrun|]. split; [reflexivity|].
  eapply Forall2_impl; [|exact (Forall2_in_l F)].
  intros m f (Hin & pre & lead & s & post & Hocc & ->).
  apply reported_in in Hin. destruct Hin as [_ Hs].
  destruct (reported_kind Hocc Hs) as [Hstrip Hup].
  exists (s_kind s), (text s), (s_value s), (s_target s).
  split; [exact (group_stmt Hocc)|].
  split; [exact Hstrip|]. split; [exact Hup|].
  split; [exact (group_value Hocc)|].
  split; [exact (group_target Hocc)|].
  split; [reflexivity|].
  intros Hk. cbn [suggestion finding_of]. rewrite Hk. reflexivity.
Qed.

(** The suggestion for the statement of [accent_unit], whose value is a
    letter outside ASCII. *)
Lemma suggestion_format_witness :
  nth_error unicode_store 1%nat = Some accent_unit
  /\ (exists u' fs,
       scanUnit unicode_store 1%nat = Ok u'
       /\ findings u' = if_any fs
       /\ Forall2
            (fun m f =>
               exists k stmt value target,
                 group m "stmt" = Ok (Some stmt)
                 /\ strip stmt = stmt
                 /\ startswith (upper stmt) (keyword k) = true
                 /\ group m (val_group k) = Ok (Some value)
                 /\ group m (target_group k) = Ok (Some target)
                 /\ suggestion f
                    = Some ("Replace '" ++ stmt ++ "' with '" ++ target
                              ++ " " ++ operator k ++ " " ++ value ++ "'.")
                 /\ (k = SUBTRACT ->
                     suggestion f
                     = Some ("Replace '" ++ stmt ++ "' with '" ++ target
                               ++ " -= " ++ value ++ "'.")))
            (reported (finditer ARITH_RE (source accent_unit))) fs).
Proof.
  assert (H1 : nth_error unicode_store 1%nat = Some accent_unit)
    by (vm_compute; reflexivity).
  split; [exact H1|].
  exact (@suggestion_format unicode_store 1%nat accent_unit H1).
Defined.

(** C10. Every finding of a scan has severity [error], the issue type
    [Obsolete<Kind>Usage] and the message
    [Obsolete '<Kind>' statement detected.] for the kind of its match (the
    one whose form took part in the match, and whose keyword the loop body
    reads from the matched text), an ending line equal to its starting
    line, and the program name, include name, type and block name of the
    unit it belongs to. *)
Theorem finding_fields (h : store) (unit : ref) (u : Unit) :
  nth_error h unit = Some u ->
  exists u' fs,
    scanUnit h unit = Ok u'
    /\ findings u' = if_any fs
    /\ Forall2
         (fun m f =>
            exists k stmt value,
              group m "stmt" = Ok (Some stmt)
              /\ startswith (upper stmt) (keyword k) = true
              /\ group m (val_group k) = Ok (Some value)
              /\ severity f = Some (chars "error")
              /\ issues_type f = Some ("Obsolete" ++ keyword k ++ "Usage")
              /\ message f
                 = Some ("Obsolete '" ++ keyword k ++ "' statement detected.")
              /\ (exists line, starting_line f = Some line
                               /\ ending_line f = Some line)
              /\ prog_name f = Some (pgm_name u)
              /\ incl_name f = Some (inc_name u)
              /\ types f = Some (type u)
              /\ blockname f = name u)
         (reported (finditer ARITH_RE (source u))) fs.
Proof.
  intros Hr. destruct (scanUnit_reports h unit Hr) as (fs & F & Hrun).
  exists (with_findings (if_any fs) u), fs.
  split; [exact Hrun|]. split; [reflexivity|].
  eapply Forall2_impl; [|exact (Forall2_in_l F)].
  intros m f (Hin & pre & lead & s & post & Hocc & ->).
  apply reported_in in Hin. destruct Hin as [_ Hs].
  destruct (reported_kind Hocc Hs) as [_ Hup].
  exists (s_kind s), (text s), (s_value s).
  split; [exact (group_stmt Hocc)|]. split; [exact Hup|].
  split; [exact (group_value Hocc)|]. cbn.
  repeat (split; [solve [auto | eexists; eauto]|]). reflexivity.
Qed.

(** The fields of the findings of [two_statement_unit]. *)
Lemma finding_fields_witness :
  nth_error sample_store 0%nat = Some two_statement_unit
  /\ (exists u' fs,
       scanUnit sample_store 0%nat = Ok u'
       /\ findings u' = if_any fs
       /\ Forall2
            (fun m f =>
               exists k stmt value,
                 group m "stmt" = Ok (Some stmt)
                 /\ startswith (upper stmt) (keyword k) = true
                 /\ group m (val_group k) = Ok (Some value)
                 /\ severity f = Some (chars "error")
                 /\ issues_type f = Some ("Obsolete" ++ keyword k ++ "Usage")
                 /\ message f
                    = Some ("Obsolete '" ++ keyword k ++ "' statement detected.")
                 /\ (exists line, starting_line f = Some line
                                  /\ ending_line f = Some line)
                 /\ prog_name f = Some (pgm_name two_statement_unit)
                 /\ incl_name f = Some (inc_name two_statement_unit)
                 /\ types f = Some (type two_statement_unit)
                 /\ blockname f = name two_statement_unit)
            (reported (finditer ARITH_RE (source two_statement_unit))) fs).
Proof.
  assert (H1 : nth_error sample_store 0%nat = Some two_statement_unit)
    by (vm_compute; reflexivity).
  split; [exact H1|].
  exact (@finding_fields sample_store 0%nat two_statement_unit H1).
Defined.

(** C4. The unit of program [P1] that starts at line 100 and holds the two
    statements [ADD 1 TO X.] and [SUBTRACT 2 FROM Y.] on consecutive lines
    gets exactly two findings, in this order: [ObsoleteADDUsage] at line
    100 and [ObsoleteSUBTRACTUsage] at line 101. *)
Theorem end_to_end (h : store) (unit : ref) (u : Unit) :
  nth_error h unit = Some u ->
  pgm_name u = chars "P1" ->
  start_line u = 100 ->
  code u = Some (chars "ADD 1 TO X." ++ LF :: chars "SUBTRACT 2 FROM Y.") ->
  exists u' f1 f2,
    scanUnit h unit = Ok u'
    /\ findings u' = Some [f1; f2]
    /\ starting_line f1 = Some 100
    /\ issues_type f1 = Some (chars "ObsoleteADDUsage")
    /\ starting_line f2 = Some 101
    /\ issues_type f2 = Some (chars "ObsoleteSUBTRACTUsage").
Proof.
  intros Hr Hp Hl Hc.
  destruct (scan_unit_run h unit Hr) as (fs & Hfs & Hrun).
  destruct u as [pn inc ty nm ci sl el cd fd]. cbn in Hp, Hl, Hc. subst pn sl cd.
  vm_compute in Hfs. injection Hfs as <-.
  eexists _, _, _. split.
  - unfold scanUnit, bindM, load. rewrite Hrun, nth_error_last. reflexivity.
  - cbn. repeat split; reflexivity.
Qed.

(** The scenario itself, in a store that holds other units too. *)
Lemma end_to_end_witness :
  nth_error sample_store 0%nat = Some two_statement_unit
  /\ pgm_name two_statement_unit = chars "P1"
  /\ start_line two_statement_unit = 100
  /\ code two_statement_unit = Some (chars "ADD 1 TO X." ++ LF :: chars "SUBTRACT 2 FROM Y.")
  /\ (exists u' f1 f2,
       scanUnit sample_store 0%nat = Ok u'
       /\ findings u' = Some [f1; f2]
       /\ starting_line f1 = Some 100
       /\ issues_type f1 = Some (chars "ObsoleteADDUsage")
       /\ starting_line f2 = Some 101
       /\ issues_type f2 = Some (chars "ObsoleteSUBTRACTUsage")).
Proof.
  assert (H1 : nth_error sample_store 0%nat = Some two_statement_unit)
    by (vm_compute; reflexivity).
  assert (H2 : pgm_name two_statement_unit = chars "P1")
    by (vm_compute; reflexivity).
  assert (H3 : start_line two_statement_unit = 100)
    by (vm_compute; reflexivity).
  assert (H4 : code two_statement_unit = Some (chars "ADD 1 TO X." ++ LF :: chars "SUBTRACT 2 FROM Y."))
    by (vm_compute; reflexivity).
  split; [exact H1|].
  split; [exact H2|].
  split; [exact H3|].
  split; [exact H4|].
  exact (@end_to_end sample_store 0%nat two_statement_unit H1 H2 H3 H4).
Defined.

(** C6. [scan_unit] returns a new instance: its program name, include name,
    type, name, class implementation, start line, end line and code are
    those of the argument, its findings are the findings of the reported
    matches in order, or [None] when there is none, and every instance that
    was in the store before the call, the argument among them, is as it
    was. *)
Theorem scan_unit_frame (h : store) (unit : ref) (u : Unit) :
  nth_error h unit = Some u ->
  exists out h' u' fs,
    scan_unit unit h = Ok (out, h')
    /\ nth_error h out = None
    /\ out <> unit
    /\ nth_error h' out = Some u'
    /\ pgm_name u' = pgm_name u
    /\ inc_name u' = inc_name u
    /\ type u' = type u
    /\ name u' = name u
    /\ class_implementation u' = class_implementation u
    /\ start_line u' = start_line u
    /\ end_line u' = end_line u
    /\ code u' = code u
    /\ detects u fs
    /\ Forall2 (reports u (source u))
               (reported (finditer ARITH_RE (source u))) fs
    /\ findings u' = match fs with [] => None | _ :: _ => Some fs end
    /\ nth_error h' unit = Some u
    /\ (forall r v, nth_error h r = Some v -> nth_error h' r = Some v).
Proof.
  intros Hr. destruct (scanUnit_run h unit Hr) as (fs & Hfs & F & _).
  destruct (scan_unit_run h unit Hr) as (fs' & Hfs' & Hrun).
  unfold source in Hfs. rewrite Hfs in Hfs'. injection Hfs' as <-.
  assert (Hlt : (unit < List.length h)%nat)
    by (apply nth_error_Some; congruence).
  assert (Hold : forall r v, nth_error h r = Some v ->
                             nth_error (h ++ [with_findings (if_any fs) u]) r = Some v).
  { intros r v Hv. rewrite nth_error_app1; [exact Hv|].
    apply nth_error_Some. congruence. }
  exists (List.length h), (h ++ [with_findings (if_any fs) u]),
         (with_findings (if_any fs) u), fs.
  split; [exact Hrun|].
  split; [apply nth_error_None; lia|].
  split; [lia|].
  split; [apply nth_error_last|].
  do 8 (split; [reflexivity|]).
  split; [exact Hfs|].
  split; [exact F|].
  split; [destruct fs; reflexivity|].
  split; [apply Hold; exact Hr | exact Hold].
Qed.

(** A scan of the last unit of [sample_store]. *)
Lemma scan_unit_frame_witness :
  nth_error sample_store 3%nat = Some blank_line_unit
  /\ (exists out h' u' fs,
       scan_unit 3%nat sample_store = Ok (out, h')
       /\ nth_error sample_store out = None
       /\ out <> 3%nat
       /\ nth_error h' out = Some u'
       /\ pgm_name u' = pgm_name blank_line_unit
       /\ inc_name u' = inc_name blank_line_unit
       /\ type u' = type blank_line_unit
       /\ name u' = name blank_line_unit
       /\ class_implementation u' = class_implementation blank_line_unit
       /\ start_line u' = start_line blank_line_unit
       /\ end_line u' = end_line blank_line_unit
       /\ code u' = code blank_line_unit
       /\ detects blank_line_unit fs
       /\ Forall2 (reports blank_line_unit (source blank_line_unit))
                  (reported (finditer ARITH_RE (source blank_line_unit))) fs
       /\ findings u' = match fs with [] => None | _ :: _ => Some fs end
       /\ nth_error h' 3%nat = Some blank_line_unit
       /\ (forall r v, nth_error sample_store r = Some v -> nth_error h' r = Some v)).
Proof.
  assert (H1 : nth_error sample_store 3%nat = Some blank_line_unit)
    by (vm_compute; reflexivity).
  split; [exact H1|].
  exact (@scan_unit_frame sample_store 3%nat blank_line_unit H1).
Defined.

Lemma no_match_without_period (src : str) :
  ~ In period src -> finditer ARITH_RE src = [].
Proof.
  intros Hn. destruct (finditer ARITH_RE src) as [|m ms] eqn:E; [reflexivity|].
  exfalso. apply Hn.
  destruct (@finditer_occurrence src m) as (pre & lead & s & post & Hocc).
  - rewrite E. left. reflexivity.
  - rewrite (occ_src Hocc). rewrite !in_app_iff. right. right. right. left.
    reflexivity.
Qed.

Lemma no_finding_run (h : store) (unit : ref) (u : Unit) :
  nth_error h unit = Some u ->
  detects u [] ->
  scan_unit unit h = Ok (List.length h, h ++ [with_findings None u]).
Proof.
  intros Hr Hd. destruct (scan_unit_run h unit Hr) as (fs & Hfs & Hrun).
  unfold detects, source in Hd. rewrite Hd in Hfs. injection Hfs as <-.
  exact Hrun.
Qed.

(** C8. No text makes the scan raise.  A unit without text, or with the
    empty text, has no match and comes back with [None] as its findings;
    so does a unit whose text has no period, such as the statement
    [ADD 1 TO X] that lacks its final period, and the unit whose text is
    [COMPUTE X = 1 + 2.]. *)
Theorem quiet_failure (h : store) (unit : ref) (u : Unit) :
  nth_error h unit = Some u ->
  exists u',
    scanUnit h unit = Ok u'
    /\ (code u = None \/ code u = Some [] ->
        finditer ARITH_RE (source u) = [] /\ findings u' = None)
    /\ (~ In period (source u) ->
        finditer ARITH_RE (source u) = [] /\ findings u' = None)
    /\ (code u = Some (chars "ADD 1 TO X") ->
        finditer ARITH_RE (source u) = [] /\ findings u' = None)
    /\ (code u = Some (chars "COMPUTE X = 1 + 2.") ->
        finditer ARITH_RE (source u) = [] /\ findings u' = None).
Proof.
  intros Hr. destruct (scanUnit_reports h unit Hr) as (fs & F & Hrun).
  exists (with_findings (if_any fs) u). split; [exact Hrun|].
  assert (K : finditer ARITH_RE (source u) = [] ->
              finditer ARITH_RE (source u) = []
              /\ findings (with_findings (if_any fs) u) = None).
  { intros E. split; [exact E|]. rewrite E in F. inversion F. reflexivity. }
  split; [|split; [|split]].
  - intros Hc. apply K. unfold source. destruct Hc as [-> | ->]; reflexivity.
  - intros Hn. apply K, no_match_without_period, Hn.
  - intros Hc. apply K. unfold source. rewrite Hc. vm_compute. reflexivity.
  - intros Hc. apply K. unfold source. rewrite Hc. vm_compute. reflexivity.
Qed.

(** A scan of [compute_unit]. *)
Lemma quiet_failure_witness :
  nth_error sample_store 2%nat = Some compute_unit
  /\ (exists u',
       scanUnit sample_store 2%nat = Ok u'
       /\ (code compute_unit = None \/ code compute_unit = Some [] ->
           finditer ARITH_RE (source compute_unit) = [] /\ findings u' = None)
       /\ (~ In period (source compute_unit) ->
           finditer ARITH_RE (source compute_unit) = [] /\ findings u' = None)
       /\ (code compute_unit = Some (chars "ADD 1 TO X") ->
           finditer ARITH_RE (source compute_unit) = [] /\ findings u' = None)
       /\ (code compute_unit = Some (chars "COMPUTE X = 1 + 2.") ->
           finditer ARITH_RE (source compute_unit) = [] /\ findings u' = None)).
Proof.
  assert (H1 : nth_error sample_store 2%nat = Some compute_unit)
    by (vm_compute; reflexivity).
  split; [exact H1|].
  exact (@quiet_failure sample_store 2%nat compute_unit H1).
Defined.

Lemma scan_matches_findings (v : option (list Finding)) (u : Unit) (src : str)
    (ms : list Match) :
  forall fs, scan_matches (with_findings v u) src fs ms = scan_matches u src fs ms.
Proof.
  induction ms as [|m ms IH]; intros fs; [reflexivity|].
  simpl. assert (E : scan_match (with_findings v u) src fs m = scan_match u src fs m)
    by reflexivity.
  rewrite E. destruct (scan_match u src fs m); simpl; [apply IH | reflexivity].
Qed.

(** C9. Scanning is repeatable: a second scan of the same unit, and a scan
    of the unit that the first scan returned, both return the findings of
    the first scan, in the same order. *)
Theorem scan_twice (h : store) (unit : ref) (u : Unit) :
  nth_error h unit = Some u ->
  exists out1 h1 u1,
    scan_unit unit h = Ok (out1, h1)
    /\ nth_error h1 out1 = Some u1
    /\ (exists out2 h2 u2,
          scan_unit unit h1 = Ok (out2, h2)
          /\ nth_error h2 out2 = Some u2
          /\ findings u2 = findings u1)
    /\ (exists out3 h3 u3,
          scan_unit out1 h1 = Ok (out3, h3)
          /\ nth_error h3 out3 = Some u3
          /\ findings u3 = findings u1).
Proof.
  intros Hr. destruct (scan_unit_run h unit Hr) as (fs & Hfs & Hrun).
  set (u1 := with_findings (if_any fs) u) in *.
  set (h1 := h ++ [u1]) in *.
  assert (Hr1 : nth_error h1 unit = Some u).
  { unfold h1. rewrite nth_error_app1; [exact Hr|].
    apply nth_error_Some. congruence. }
  assert (Ho1 : nth_error h1 (List.length h) = Some u1) by apply nth_error_last.
  exists (List.length h), h1, u1.
  split; [exact Hrun|]. split; [exact Ho1|]. split.
  - destruct (scan_unit_run h1 unit Hr1) as (fs2 & Hfs2 & Hrun2).
    rewrite Hfs in Hfs2. injection Hfs2 as <-.
    eexists _, _, _. split; [exact Hrun2|].
    split; [apply nth_error_last | reflexivity].
  - destruct (scan_unit_run h1 (List.length h) Ho1) as (fs3 & Hfs3 & Hrun3).
    unfold u1 in Hfs3. cbn [code with_findings] in Hfs3.
    rewrite scan_matches_findings, Hfs in Hfs3. injection Hfs3 as <-.
    eexists _, _, _. split; [exact Hrun3|].
    split; [apply nth_error_last | reflexivity].
Qed.

(** Two scans of [two_statement_unit], and a scan of the copy. *)
Lemma scan_twice_witness :
  nth_error sample_store 0%nat = Some two_statement_unit
  /\ (exists out1 h1 u1,
       scan_unit 0%nat sample_store = Ok (out1, h1)
       /\ nth_error h1 out1 = Some u1
       /\ (exists out2 h2 u2,
             scan_unit 0%nat h1 = Ok (out2, h2)
             /\ nth_error h2 out2 = Some u2
             /\ findings u2 = findings u1)
       /\ (exists out3 h3 u3,
             scan_unit out1 h1 = Ok (out3, h3)
             /\ nth_error h3 out3 = Some u3
             /\ findings u3 = findings u1)).
Proof.
  assert (H1 : nth_error sample_store 0%nat = Some two_statement_unit)
    by (vm_compute; reflexivity).
  split; [exact H1|].
  exact (@scan_twice sample_store 0%nat two_statement_unit H1).
Defined.

(** The line that a finding reports: the start line of the unit plus the
    line feeds before the start of the match, which is the start of the
    blanks in front of the statement.  The statement itself starts that
    many lines further down as there are line feeds among those blanks. *)
Lemma reported_line (u : Unit) (src : str) (m : Match) (f : Finding) :
  reports u src m f ->
  exists pre lead s post,
    occurrence src m pre lead s post
    /\ starting_line f = Some (start_line u + count LF pre)
    /\ starting_line f
       = Some (start_line u + count LF (pre ++ lead) - count LF lead).
Proof.
  intros (pre & lead & s & post & Hocc & ->).
  exists pre, lead, s, post. split; [exact Hocc|]. split; [reflexivity|].
  cbn. rewrite count_app. f_equal. lia.
Qed.

(** C2, at two units with an empty line in front of a statement.  The
    unit [blank_line_unit] starts at line 10 and its statement stands on
    the second line of its text, line 11 of the file: the group [stmt]
    starts at offset 1, after one line feed.  The match starts at offset 0,
    so the finding reports line 10, and its snippet is the empty first
    line.  In [spaced_unit] the second statement stands on the third line
    of the text, line 12 of the file, and is reported at line 11. *)
Theorem line_after_blank_line :
  (exists u' f m,
      scanUnit [blank_line_unit] 0%nat = Ok u'
      /\ findings u' = Some [f]
      /\ finditer ARITH_RE (source blank_line_unit) = [m]
      /\ lookup (m_marks m) "stmt" = Some (1%nat, 11%nat)
      /\ count LF (slice (source blank_line_unit) 0 1) = 1
      /\ Re.start m = 0
      /\ starting_line f = Some 10
      /\ snippet f = Some [])
  /\ (exists u' f1 f2 m1 m2,
        scanUnit [spaced_unit] 0%nat = Ok u'
        /\ findings u' = Some [f1; f2]
        /\ finditer ARITH_RE (source spaced_unit) = [m1; m2]
        /\ lookup (m_marks m2) "stmt" = Some (13%nat, 23%nat)
        /\ count LF (slice (source spaced_unit) 0 13) = 2
        /\ Re.start m2 = 12
        /\ starting_line f1 = Some 10
        /\ starting_line f2 = Some 11
        /\ snippet f2 = Some []).
Proof.
  split.
  - eexists _, _, _. vm_compute. repeat split; reflexivity.
  - eexists _, _, _, _, _. vm_compute. repeat split; reflexivity.
Qed.

Lemma scan_matches_app (u : Unit) (src : str) (ms1 ms2 : list Match) :
  forall fs,
    scan_matches u src fs (ms1 ++ ms2)
    = (fs' <- scan_matches u src fs ms1 ;; scan_matches u src fs' ms2).
Proof.
  induction ms1 as [|m ms1 IH]; intros fs; cbn [app scan_matches bind];
    [reflexivity|].
  destruct (scan_match u src fs m); cbn [bind]; [apply IH | reflexivity].
Qed.

(** A well-formed statement at the start of a line has its match and its
    finding. *)
Lemma statement_found (u : Unit) (pre lead : str) (s : Statement) (post : str)
    (fs : list Finding) :
  source u = pre ++ lead ++ text s ++ period :: post ->
  (pre = [] \/ exists p, pre = p ++ [LF]) ->
  forallb isspace lead = true ->
  well_formed s ->
  detects u fs ->
  exists m pre0 lead0 fs1 fs2,
    In m (reported (finditer ARITH_RE (source u)))
    /\ occurrence (source u) m pre0 lead0 s post
    /\ pre0 ++ lead0 = pre ++ lead
    /\ fs = fs1 ++ finding_of u (source u) pre0 s :: fs2.
Proof.
  intros Hsrc Hpre Hlead Hwf Hd.
  destruct (@finditer_yields (source u) pre lead s post Hsrc Hpre Hlead
              (well_formed_written Hwf))
    as (ms1 & m & ms2 & E & (pre0 & lead0 & Hocc & Epl) & _ & _).
  assert (Hall : forall m', In m' (finditer ARITH_RE (source u)) ->
                   exists p l s' q, occurrence (source u) m' p l s' q)
    by (intros m'; apply finditer_occurrence).
  rewrite E in Hall.
  destruct (@scan_matches_ok u (source u) ms1
              (fun m' Hm' => Hall m' (in_or_app _ _ _ (or_introl Hm'))) [])
    as (fs1 & H1 & _).
  destruct (@scan_matches_ok u (source u) ms2
              (fun m' Hm' => Hall m' (in_or_app ms1 (m :: ms2) m'
                                        (or_intror (in_cons m m' ms2 Hm'))))
              (fs1 ++ [finding_of u (source u) pre0 s]))
    as (fs2 & H2 & _).
  unfold detects in Hd. rewrite E, scan_matches_app, H1 in Hd.
  cbn [bind app scan_matches] in Hd.
  rewrite (scan_match_ok u Hocc fs1 Hwf) in Hd. cbn [bind] in Hd.
  rewrite H2 in Hd. injection Hd as <-.
  exists m, pre0, lead0, fs1, fs2.
  split; [|split; [exact Hocc|split; [exact Epl|]]].
  - apply reported_in. split.
    + rewrite E. apply in_or_app. right. left. reflexivity.
    + exact (skipped_well_formed Hocc Hwf).
  - rewrite <- app_assoc. reflexivity.
Qed.

(** The snippet of the finding of a match is the line around the start of
    the match. *)
Lemma snippet_of (u : Unit) (src : str) (m : Match) (pre lead : str)
    (s : Statement) (post : str) :
  occurrence src m pre lead s post ->
  exists a line b,
    src = a ++ line ++ b
    /\ extract_exact_line src (Re.start m) = line
    /\ snippet (finding_of u src pre s) = Some line
    /\ replace LF (chars "\n") line = line
    /\ ~ In LF line
    /\ (a = [] \/ exists a', a = a' ++ [LF])
    /\ (b = [] \/ exists b', b = LF :: b')
    /\ len a <= Re.start m <= len a + len line.
Proof.
  intros Hocc.
  destruct (extract_exact_line_spec pre (lead ++ text s ++ period :: post))
    as (a & l1 & l2 & b & Hpre & Hsuf & Hx & Hn & Ha & Hb).
  rewrite <- (occ_src Hocc) in Hx.
  exists a, (l1 ++ l2), b. cbn [snippet finding_of].
  rewrite (match_start Hocc), Hx, (@replace_absent LF _ _ Hn).
  split; [rewrite (occ_src Hocc), Hpre, Hsuf, <- !app_assoc; reflexivity|].
  do 4 (split; [auto|]). split; [exact Ha|]. split; [exact Hb|].
  rewrite Hpre, !len_app.
  pose proof (len_nonneg l1). pose proof (len_nonneg l2). lia.
Qed.

(** C5. The snippet of a finding is the line of the text around the start
    of its match: it has no line feed (so that escaping line feeds leaves it
    as it is), the text before it is empty or ends with a line feed, the
    text after it is empty or starts with one, and the start of the match
    lies within it.  A well-formed statement at the start of a line is
    detected whatever line feeds stand among the blanks between its words:
    it has a match and a finding, with the line around the start of the
    match for snippet.  So the statement of the text [ADD], line feed,
    [ 1 TO X.] is detected, with the snippet [ADD]. *)
Theorem snippet_line (h : store) (unit : ref) (u : Unit) :
  nth_error h unit = Some u ->
  exists u' fs,
    scanUnit h unit = Ok u'
    /\ findings u' = if_any fs
    /\ Forall2
         (fun m f =>
            exists a line b,
              source u = a ++ line ++ b
              /\ snippet f = Some (replace LF (chars "\n") line)
              /\ replace LF (chars "\n") line = line
              /\ ~ In LF line
              /\ (a = [] \/ exists a', a = a' ++ [LF])
              /\ (b = [] \/ exists b', b = LF :: b')
              /\ len a <= Re.start m <= len a + len line)
         (reported (finditer ARITH_RE (source u))) fs
    /\ (forall pre lead s post,
          source u = pre ++ lead ++ text s ++ period :: post ->
          (pre = [] \/ exists p, pre = p ++ [LF]) ->
          forallb isspace lead = true ->
          well_formed s ->
          exists m f,
            In m (reported (finditer ARITH_RE (source u)))
            /\ In f fs
            /\ group m "stmt" = Ok (Some (text s))
            /\ suggestion f
               = Some ("Replace '" ++ text s ++ "' with '" ++ s_target s
                         ++ " " ++ operator (s_kind s) ++ " " ++ s_value s
                         ++ "'.")
            /\ snippet f
               = Some (extract_exact_line (source u) (Re.start m)))
    /\ (code u = Some (chars "ADD" ++ LF :: chars " 1 TO X.") ->
        exists m f,
          finditer ARITH_RE (source u) = [m]
          /\ fs = [f]
          /\ Re.start m = 0
          /\ Re.end_ m = 12
          /\ snippet f = Some (chars "ADD")).
Proof.
  intros Hr. destruct (scanUnit_run h unit Hr) as (fs & Hfs & F & Hrun).
  exists (with_findings (if_any fs) u), fs.
  split; [exact Hrun|]. split; [reflexivity|]. split; [|split].
  - eapply Forall2_impl; [|exact F].
    intros m f (pre & lead & s & post & Hocc & ->).
    destruct (snippet_of u Hocc)
      as (a & line & b & Hs & _ & Hsn & Hrep & Hn & Ha & Hb & Hin).
    exists a, line, b. rewrite Hrep.
    split; [exact Hs|]. split; [exact Hsn|]. split; [reflexivity|].
    split; [exact Hn|]. split; [exact Ha|]. split; [exact Hb | exact Hin].
  - intros pre lead s post Hsrc Hpre Hlead Hwf.
    destruct (@statement_found u pre lead s post fs Hsrc Hpre Hlead Hwf Hfs)
      as (m & pre0 & lead0 & fs1 & fs2 & Hin & Hocc & _ & ->).
    exists m, (finding_of u (source u) pre0 s).
    split; [exact Hin|].
    split; [apply in_or_app; right; left; reflexivity|].
    split; [exact (group_stmt Hocc)|]. split; [reflexivity|].
    destruct (snippet_of u Hocc) as (a & line & b & _ & Hx & Hsn & _).
    rewrite Hsn, Hx. reflexivity.
  - intros Hc. clear F Hrun Hr.
    destruct u as [pn inc ty nm ci sl el cd fd]. cbn in Hc. subst cd.
    vm_compute in Hfs. injection Hfs as <-.
    eexists _, _. vm_compute. repeat split; reflexivity.
Qed.

(** The snippet of the statement of [two_line_unit]. *)
Lemma snippet_line_witness :
  nth_error sample_store 1%nat = Some two_line_unit
  /\ (exists u' fs,
       scanUnit sample_store 1%nat = Ok u'
       /\ findings u' = if_any fs
       /\ Forall2
            (fun m f =>
               exists a line b,
                 source two_line_unit = a ++ line ++ b
                 /\ snippet f = Some (replace LF (chars "\n") line)
                 /\ replace LF (chars "\n") line = line
                 /\ ~ In LF line
                 /\ (a = [] \/ exists a', a = a' ++ [LF])
                 /\ (b = [] \/ exists b', b = LF :: b')
                 /\ len a <= Re.start m <= len a + len line)
            (reported (finditer ARITH_RE (source two_line_unit))) fs
       /\ (forall pre lead s post,
             source two_line_unit = pre ++ lead ++ text s ++ period :: post ->
             (pre = [] \/ exists p, pre = p ++ [LF]) ->
             forallb isspace lead = true ->
             well_formed s ->
             exists m f,
               In m (reported (finditer ARITH_RE (source two_line_unit)))
               /\ In f fs
               /\ group m "stmt" = Ok (Some (text s))
               /\ suggestion f
                  = Some ("Replace '" ++ text s ++ "' with '" ++ s_target s
                            ++ " " ++ operator (s_kind s) ++ " " ++ s_value s
                            ++ "'.")
               /\ snippet f
                  = Some (extract_exact_line (source two_line_unit) (Re.start m)))
       /\ (code two_line_unit = Some (chars "ADD" ++ LF :: chars " 1 TO X.") ->
           exists m f,
             finditer ARITH_RE (source two_line_unit) = [m]
             /\ fs = [f]
             /\ Re.start m = 0
             /\ Re.end_ m = 12
             /\ snippet f = Some (chars "ADD"))).
Proof.
  assert (H1 : nth_error sample_store 1%nat = Some two_line_unit)
    by (vm_compute; reflexivity).
  split; [exact H1|].
  exact (@snippet_line sample_store 1%nat two_line_unit H1).
Defined.

Lemma scan_unit_scanned (h : store) (unit : ref) (u : Unit) :
  nth_error h unit = Some u ->
  scan_unit unit h = Ok (List.length h, h ++ [scanned u]).
Proof.
  intros Hr. destruct (scan_unit_run h unit Hr) as (fs & Hfs & Hrun).
  unfold scanned, source. rewrite Hfs. exact Hrun.
Qed.

Lemma arithmetic_array_loop_run (units : list ref) :
  forall (us : list Unit) (h : store) (results : list ref),
    Forall2 (fun r u => nth_error h r = Some u) units us ->
    arithmetic_array_loop units results h
    = Ok (results ++ kept (List.length h) us, h ++ map scanned us).
Proof.
  induction units as [|r units IH]; intros us h results F; inversion F; subst.
  - simpl. rewrite !app_nil_r. reflexivity.
  - rename y into u. rename l' into us'.
    cbn [arithmetic_array_loop]. unfold bindM at 1.
    rewrite (scan_unit_scanned h r H1). unfold bindM at 1. unfold load at 1.
    rewrite nth_error_last.
    assert (F' : Forall2 (fun r' v => nth_error (h ++ [scanned u]) r' = Some v)
                         units us').
    { eapply Forall2_impl; [|exact H3]. intros r' u' Hr'.
      rewrite nth_error_app1; [exact Hr'|]. apply nth_error_Some. congruence. }
    rewrite (@IH us' (h ++ [scanned u]) _ F').
    rewrite length_app. simpl List.length. rewrite Nat.add_1_r.
    cbn [kept map]. rewrite <- !app_assoc. simpl.
    destruct (truthy _); rewrite <- ?app_assoc; reflexivity.
Qed.

Lemma kept_range (us : list Unit) :
  forall base o, In o (kept base us) ->
    exists i u, o = (base + i)%nat /\ nth_error us i = Some u
                /\ truthy (findings (scanned u)) = true.
Proof.
  induction us as [|u us IH]; intros base o Hin; cbn [kept] in Hin;
    [destruct Hin|].
  apply in_app_iff in Hin. destruct Hin as [Hin|Hin].
  - destruct (truthy (findings (scanned u))) eqn:T; [|destruct Hin].
    destruct Hin as [<-|[]]. exists 0%nat, u. rewrite Nat.add_0_r. auto.
  - apply IH in Hin. destruct Hin as (i & u' & -> & Hi & T).
    exists (S i), u'. split; [lia | auto].
Qed.

(** C7. For a unit in which the scan detects no finding (the loop over
    the matches ends with the empty list): the single-unit operation
    returns its copy with [None] as findings, not the empty list; the batch
    operation, run on any list of units that holds it, creates its copy,
    again with [None] as findings, and leaves that copy out of the list it
    returns, every member of which has at least one finding.  Such a unit
    is one whose text has no match, or only matches that the loop passes
    over. *)
Theorem zero_findings (h : store) (unit : ref) (u : Unit) :
  nth_error h unit = Some u ->
  detects u [] ->
  reported (finditer ARITH_RE (source u)) = []
  /\ (exists out h' u',
      arithmetic_single unit h = Ok (out, h')
      /\ nth_error h' out = Some u'
      /\ findings u' = None
      /\ findings u' <> Some [])
  /\ (forall before after,
        (forall r, In r (before ++ after) -> nth_error h r <> None) ->
        exists outs h' u',
          arithmetic_array (before ++ unit :: after) h = Ok (outs, h')
          /\ nth_error h' (List.length h + List.length before)%nat = Some u'
          /\ code u' = code u
          /\ findings u' = None
          /\ ~ In (List.length h + List.length before)%nat outs
          /\ (forall o, In o outs ->
                exists v f fs, nth_error h' o = Some v
                               /\ findings v = Some (f :: fs))).
Proof.
  intros Hr Hm.
  pose proof (no_finding_run h unit Hr Hm) as Hrun.
  assert (Hs : scanned u = with_findings None u).
  { unfold scanned. unfold detects in Hm. rewrite Hm. reflexivity. }
  split.
  { destruct (scanUnit_run h unit Hr) as (fs & Hfs & F & _).
    unfold detects in Hm. rewrite Hm in Hfs. injection Hfs as <-.
    inversion F. reflexivity. }
  split.
  - exists (List.length h), (h ++ [with_findings None u]), (with_findings None u).
    split; [exact Hrun|]. split; [apply nth_error_last|].
    split; [reflexivity | discriminate].
  - intros before after Hvalid.
    assert (V : forall l, (forall r, In r l -> nth_error h r <> None) ->
                          exists us, Forall2 (fun r u => nth_error h r = Some u) l us).
    { induction l as [|r l IHl]; intros Hl.
      - exists []. constructor.
      - destruct (nth_error h r) as [v|] eqn:E;
          [|exfalso; apply (Hl r); [left; reflexivity | exact E]].
        destruct IHl as (us & Hus); [intros r' Hr'; apply Hl; right; exact Hr'|].
        exists (v :: us). constructor; assumption. }
    destruct (V before) as (ub & Fb);
      [intros r Hin; apply Hvalid, in_app_iff; left; exact Hin|].
    destruct (V after) as (ua & Fa);
      [intros r Hin; apply Hvalid, in_app_iff; right; exact Hin|].
    assert (F : Forall2 (fun r u => nth_error h r = Some u)
                        (before ++ unit :: after) (ub ++ u :: ua))
      by (apply Forall2_app; [exact Fb | constructor; assumption]).
    pose proof (Forall2_length Fb) as Lb.
    exists (kept (List.length h) (ub ++ u :: ua)),
           (h ++ map scanned (ub ++ u :: ua)), (scanned u).
    split; [unfold arithmetic_array;
            rewrite (@arithmetic_array_loop_run _ _ h [] F); reflexivity|].
    split.
    { rewrite nth_error_app2 by lia.
      replace (List.length h + List.length before - List.length h)%nat
        with (List.length (map scanned ub)) by (rewrite length_map; lia).
      rewrite map_app, nth_error_app2, Nat.sub_diag by lia. reflexivity. }
    split; [rewrite Hs; reflexivity|].
    split; [rewrite Hs; reflexivity|].
    split.
    { intros Hin. apply kept_range in Hin. destruct Hin as (i & v & Hi & Hv & T).
      assert (i = List.length ub) by lia. subst i.
      rewrite nth_error_app2, Nat.sub_diag in Hv by lia.
      injection Hv as <-. rewrite Hs in T. discriminate. }
    intros o Hin. apply kept_range in Hin. destruct Hin as (i & v & -> & Hv & T).
    exists (scanned v).
    destruct (findings (scanned v)) as [[|f fs]|] eqn:E; try discriminate.
    exists f, fs. split; [|reflexivity].
    rewrite nth_error_app2 by lia.
    replace (List.length h + i - List.length h)%nat with i by lia.
    apply map_nth_error. exact Hv.
Qed.

(** [dotted_unit], whose only match is passed over, alone and in a batch. *)
Lemma zero_findings_witness :
  nth_error unicode_store 0%nat = Some dotted_unit
  /\ detects dotted_unit []
  /\ (reported (finditer ARITH_RE (source dotted_unit)) = []
     /\ (exists out h' u',
         arithmetic_single 0%nat unicode_store = Ok (out, h')
         /\ nth_error h' out = Some u'
         /\ findings u' = None
         /\ findings u' <> Some [])
     /\ (forall before after,
           (forall r, In r (before ++ after) -> nth_error unicode_store r <> None) ->
           exists outs h' u',
             arithmetic_array (before ++ 0%nat :: after) unicode_store = Ok (outs, h')
             /\ nth_error h' (List.length unicode_store + List.length before)%nat = Some u'
             /\ code u' = code dotted_unit
             /\ findings u' = None
             /\ ~ In (List.length unicode_store + List.length before)%nat outs
             /\ (forall o, In o outs ->
                   exists v f fs, nth_error h' o = Some v
                                  /\ findings v = Some (f :: fs)))).
Proof.
  assert (H1 : nth_error unicode_store 0%nat = Some dotted_unit)
    by (vm_compute; reflexivity).
  assert (H2 : detects dotted_unit [])
    by (vm_compute; reflexivity).
  split; [exact H1|].
  split; [exact H2|].
  exact (@zero_findings unicode_store 0%nat dotted_unit H1 H2).
Defined.

Lemma add_1_to_x_wf : well_formed add_1_to_x.
Proof. well_formed_by_computation. Qed.

Lemma subtract_rate_wf : well_formed subtract_rate.
Proof. well_formed_by_computation. Qed.

(** C1 as stated fails.  The well-formed statement [ADD 1 TO X.] that
    follows another statement on the same line is not matched, and of two
    statements on one line only the first is. *)
Lemma statement_mid_line_missed :
  well_formed add_1_to_x
  /\ text add_1_to_x = chars "ADD 1 TO X"
  /\ finditer ARITH_RE
       (chars "MOVE 1 TO Y. " ++ text add_1_to_x ++ chars ".") = []
  /\ map (fun m => (m_start m, m_end m))
       (finditer ARITH_RE
          (chars "ADD 2 TO Y. " ++ text add_1_to_x ++ chars "."))
     = [(0%nat, 11%nat)].
Proof.
  split; [exact add_1_to_x_wf|]. vm_compute. repeat split; reflexivity.
Qed.

(** C1, amended.  A well-formed statement of one of the four kinds that
    stands at the start of the text or of a line, after blanks only, and is
    followed by a period, gets exactly one match: the groups [stmt], value
    and target of that match are the statement, its value and its target
    as written, and the loop body reads the kind of the statement from it;
    every other match ends before the line of the statement or starts
    after its period.  Letters of the keywords match in either case, and
    the blanks between the words may hold line feeds. *)
Theorem statement_at_line_start (pre lead : str) (s : Statement) (post : str) :
  (pre = [] \/ exists p, pre = p ++ [LF]) ->
  forallb isspace lead = true ->
  well_formed s ->
  let src := pre ++ lead ++ text s ++ period :: post in
  let a := (List.length pre + List.length lead)%nat in
  exists ms1 m ms2,
    finditer ARITH_RE src = ms1 ++ m :: ms2
    /\ group m "stmt" = Ok (Some (text s))
    /\ group m (val_group (s_kind s)) = Ok (Some (s_value s))
    /\ group m (target_group (s_kind s)) = Ok (Some (s_target s))
    /\ classify m (text s)
       = Ok (Some (chars (keyword (s_kind s)),
                   Some (s_value s), Some (s_target s)))
    /\ lookup (m_marks m) "stmt" = Some (a, (a + List.length (text s))%nat)
    /\ m_end m = S (a + List.length (text s))
    /\ (forall m', In m' ms1 -> (m_end m' <= List.length pre)%nat)
    /\ (forall m', In m' ms2 -> (m_end m <= m_start m')%nat).
Proof.
  intros Hpre Hlead Hwf src a.
  destruct (@finditer_yields src pre lead s post eq_refl Hpre Hlead
              (well_formed_written Hwf))
    as (ms1 & m & ms2 & E & (pre0 & lead0 & Hocc & Epl) & B & A).
  exists ms1, m, ms2.
  assert (La : (List.length pre0 + List.length lead0)%nat = a)
    by (unfold a; rewrite <- !length_app, Epl; reflexivity).
  split; [exact E|].
  split; [exact (group_stmt Hocc)|].
  split; [exact (group_value Hocc)|].
  split; [exact (group_target Hocc)|].
  split; [exact (classify_ok Hocc Hwf)|].
  split; [|split; [|split; [exact B | exact A]]].
  - rewrite (occ_match Hocc). cbn [m_marks match_of spans lookup].
    rewrite String.eqb_refl, La. reflexivity.
  - rewrite (occ_match Hocc). cbn [m_end match_of]. rewrite La. reflexivity.
Qed.

(** The theorem at work, on a statement in mixed case that spans two lines
    and is indented on a line of its own between two other lines. *)
Lemma statement_at_line_start_witness :
  let pre := chars "ADD 1 TO X." ++ [LF] in
  let lead := chars "   " in
  let post := LF :: chars "ADD 2 TO Z." in
  let src := pre ++ lead ++ text subtract_rate ++ period :: post in
  (pre = [] \/ exists p, pre = p ++ [LF])
  /\ forallb isspace lead = true
  /\ well_formed subtract_rate
  /\ exists ms1 m ms2,
       finditer ARITH_RE src = ms1 ++ m :: ms2
       /\ group m "stmt" = Ok (Some (text subtract_rate))
       /\ group m "sub_val" = Ok (Some (chars "Rate"))
       /\ group m "sub_target" = Ok (Some (chars "TOTAL_2"))
       /\ classify m (text subtract_rate)
          = Ok (Some (chars "SUBTRACT", Some (chars "Rate"),
                      Some (chars "TOTAL_2")))
       /\ lookup (m_marks m) "stmt" = Some (15%nat, 43%nat)
       /\ m_end m = 44%nat
       /\ (forall m', In m' ms1 -> (m_end m' <= 12)%nat)
       /\ (forall m', In m' ms2 -> (m_end m <= m_start m')%nat).
Proof.
  intros pre lead post src.
  assert (H1 : pre = [] \/ exists p, pre = p ++ [LF])
    by (right; exists (chars "ADD 1 TO X."); reflexivity).
  assert (H2 : forallb isspace lead = true) by reflexivity.
  split; [exact H1|]. split; [exact H2|]. split; [exact subtract_rate_wf|].
  exact (@statement_at_line_start pre lead subtract_rate post H1 H2
           subtract_rate_wf).
Defined.

End Claims.

(* ================================================================== *)
(** * Further properties of the pattern, the helpers and the batch *)
(* ================================================================== *)

Module Extras.

Import PyFacts Matches Loop Complete Unique.

Lemma bol_prefix (src pre rest : str) :
  src = pre ++ rest ->
  at_bol ARITH_RE src (List.length pre) = true ->
  pre = [] \/ exists p, pre = p ++ [LF].
Proof.
  intros Hsrc Hb. destruct pre as [|c pre] using rev_ind; [left; reflexivity|].
  right. exists pre. rewrite length_app, Nat.add_1_r in Hb.
  cbn [at_bol MULTILINE ARITH_RE andb] in Hb.
  rewrite Hsrc, <- app_assoc, nth_error_app2, Nat.sub_diag in Hb by lia.
  simpl in Hb. apply eqc_true in Hb. subst c. reflexivity.
Qed.

(** X1. Every match that [finditer] yields for [ARITH_RE] is a statement
    with its period, which stands at the start of the text or of a line
    with nothing but blanks in front of it: the match starts at that line
    start, ends just after the period, and its groups are the statement,
    its value and its target.  The statement is written as the pattern
    takes it: blanks and word characters are those of Unicode, and the
    letters of the keyword and of the linking word may be in either case
    or one of U+0130, U+0131 and U+017F, which the pattern takes for I
    and S. *)
Theorem every_match_is_a_statement (src : str) (m : Match) :
  In m (finditer ARITH_RE src) ->
  exists pre lead s post,
    src = pre ++ lead ++ text s ++ period :: post
    /\ (pre = [] \/ exists p, pre = p ++ [LF])
    /\ forallb isspace lead = true
    /\ written s
    /\ m_start m = List.length pre
    /\ m_end m = S (List.length pre + List.length lead + List.length (text s))
    /\ group m "stmt" = Ok (Some (text s))
    /\ group m (val_group (s_kind s)) = Ok (Some (s_value s))
    /\ group m (target_group (s_kind s)) = Ok (Some (s_target s))
    /\ keyword_text m = s_keyword s.
Proof.
  intros Hin. apply finditer_occurrence in Hin.
  destruct Hin as (pre & lead & s & post & Hocc).
  exists pre, lead, s, post.
  split; [exact (occ_src Hocc)|].
  split; [exact (bol_prefix _ _ (occ_src Hocc) (occ_bol Hocc))|].
  split; [exact (occ_lead Hocc)|].
  split; [exact (occ_wr Hocc)|].
  split; [rewrite (occ_match Hocc); reflexivity|].
  split; [rewrite (occ_match Hocc); reflexivity|].
  split; [exact (group_stmt Hocc)|].
  split; [exact (group_value Hocc)|].
  split; [exact (group_target Hocc) | exact (keyword_text_occ Hocc)].
Qed.

(** The match of [dotted_unit], whose keyword is written with U+0130. *)
Lemma every_match_is_a_statement_witness :
  In (match_of (source dotted_unit) 0 [] dotted_divide) (finditer ARITH_RE (source dotted_unit))
  /\ (exists pre lead s post,
       (source dotted_unit) = pre ++ lead ++ text s ++ period :: post
       /\ (pre = [] \/ exists p, pre = p ++ [LF])
       /\ forallb isspace lead = true
       /\ written s
       /\ m_start (match_of (source dotted_unit) 0 [] dotted_divide) = List.length pre
       /\ m_end (match_of (source dotted_unit) 0 [] dotted_divide) = S (List.length pre + List.length lead + List.length (text s))
       /\ group (match_of (source dotted_unit) 0 [] dotted_divide) "stmt" = Ok (Some (text s))
       /\ group (match_of (source dotted_unit) 0 [] dotted_divide) (val_group (s_kind s)) = Ok (Some (s_value s))
       /\ group (match_of (source dotted_unit) 0 [] dotted_divide) (target_group (s_kind s)) = Ok (Some (s_target s))
       /\ keyword_text (match_of (source dotted_unit) 0 [] dotted_divide) = s_keyword s).
Proof.
  assert (H1 : In (match_of (source dotted_unit) 0 [] dotted_divide) (finditer ARITH_RE (source dotted_unit)))
    by (vm_compute; left; reflexivity).
  split; [exact H1|].
  exact (@every_match_is_a_statement (source dotted_unit) (match_of (source dotted_unit) 0 [] dotted_divide) H1).
Defined.

Lemma scan_sorted (src : str) :
  forall rest pos resume,
    rest = skipn pos src ->
    StronglySorted precedes (scan ARITH_RE src pos rest resume).
Proof.
  induction rest as [|c rest IH]; intros pos resume Hr; cbn [scan].
  - destruct (Nat.ltb pos resume); [constructor|].
    destruct (match_at ARITH_RE src pos []); repeat constructor.
  - assert (Hr' : rest = skipn (S pos) src).
    { replace (S pos) with (1 + pos)%nat by lia.
      rewrite <- skipn_skipn, <- Hr. reflexivity. }
    destruct (Nat.ltb pos resume); [apply IH, Hr'|].
    destruct (match_at ARITH_RE src pos (c :: rest)) as [m|]; [|apply IH, Hr'].
    constructor; [apply IH, Hr'|].
    apply Forall_forall. intros m' Hm'.
    apply after_resume in Hm'; [|exact Hr']. unfold precedes. lia.
Qed.

(** X2. The matches of a text come in the order of the text and do not
    overlap: each one ends before any later one starts, none is empty, and
    all lie within the text. *)
Theorem matches_in_order (src : str) :
  StronglySorted precedes (finditer ARITH_RE src)
  /\ Forall (fun m => (m_start m < m_end m <= List.length src)%nat)
            (finditer ARITH_RE src).
Proof.
  split; [apply scan_sorted; reflexivity|].
  apply Forall_forall. intros m Hm. apply finditer_occurrence in Hm.
  destruct Hm as (pre & lead & s & post & Hocc).
  rewrite (occ_match Hocc). cbn [m_start m_end match_of].
  rewrite (occ_src Hocc), !length_app. simpl. lia.
Qed.

Lemma sorted_filter (A : Type) (R : A -> A -> Prop) (p : A -> bool)
    (l : list A) :
  StronglySorted R l -> StronglySorted R (filter p l).
Proof.
  intros S. induction S as [|a l S IH Ha]; cbn [filter]; [constructor|].
  destruct (p a); [|exact IH].
  constructor; [exact IH|].
  apply Forall_forall. intros b Hb. apply filter_In in Hb.
  rewrite Forall_forall in Ha. apply Ha, Hb.
Qed.

Lemma sorted_reported (src : str) :
  StronglySorted precedes (reported (finditer ARITH_RE src)).
Proof. apply sorted_filter, scan_sorted. reflexivity. Qed.

Lemma reported_length (ms : list Match) :
  (List.length (reported ms) <= List.length ms)%nat.
Proof.
  induction ms as [|m ms IH]; cbn [reported filter]; [lia|].
  fold (reported ms). destruct (skipped m); simpl; lia.
Qed.

Lemma count_prefix (c : char) (src p1 r1 p2 r2 : str) :
  src = p1 ++ r1 -> src = p2 ++ r2 ->
  (List.length p1 <= List.length p2)%nat ->
  count c p1 <= count c p2 <= count c src.
Proof.
  intros H1 H2 L. rewrite H1 in H2.
  destruct (@app_split _ _ _ _ H2 L) as (d & -> & ->).
  rewrite H1, !count_app.
  pose proof (count_nonneg c d). pose proof (count_nonneg c r2).
  pose proof (count_nonneg c p1). lia.
Qed.

Lemma sorted_along (A B : Type) (R : A -> B -> Prop) (P : A -> A -> Prop)
    (Q : B -> B -> Prop) :
  (forall a1 a2 b1 b2, R a1 b1 -> R a2 b2 -> P a1 a2 -> Q b1 b2) ->
  forall la lb, Forall2 R la lb -> StronglySorted P la -> StronglySorted Q lb.
Proof.
  intros H la lb F. induction F as [|a b la lb Hab F IH]; intros S.
  - constructor.
  - apply StronglySorted_inv in S. destruct S as [S Ha].
    constructor; [apply IH, S|].
    clear IH S. induction F as [|a' b' la lb Hab' F IH]; constructor.
    + apply Forall_inv in Ha. eapply H; eauto.
    + apply IH. apply Forall_inv_tail in Ha. exact Ha.
Qed.

(** X3. The findings of a unit come in line order: the starting line of a
    finding is never greater than that of a later one, and every starting
    line lies between the start line of the unit and that line plus the
    number of line feeds of the text. *)
Theorem findings_in_line_order (h : store) (unit : ref) (u : Unit) :
  nth_error h unit = Some u ->
  exists u' fs,
    scanUnit h unit = Ok u'
    /\ findings u' = if_any fs
    /\ StronglySorted line_le fs
    /\ Forall
         (fun f =>
            exists a, starting_line f = Some a
                      /\ start_line u <= a <= start_line u + count LF (source u))
         fs.
Proof.
  intros Hr. destruct (Claims.scanUnit_reports h unit Hr) as (fs & F & Hrun).
  exists (with_findings (if_any fs) u), fs.
  split; [exact Hrun|]. split; [reflexivity|]. split.
  - eapply sorted_along; [|exact F | apply sorted_reported].
    intros m1 m2 f1 f2 (p1 & l1 & s1 & q1 & O1 & ->) (p2 & l2 & s2 & q2 & O2 & ->) Hp.
    unfold precedes in Hp. rewrite (occ_match O1), (occ_match O2) in Hp.
    cbn [m_start m_end match_of] in Hp.
    exists (start_line u + count LF p1), (start_line u + count LF p2).
    split; [reflexivity|]. split; [reflexivity|].
    assert (L : (List.length p1 <= List.length p2)%nat) by lia.
    pose proof (@count_prefix LF _ _ _ _ _ (occ_src O1) (occ_src O2) L). lia.
  - clear Hrun. induction F as [|m f ms fs (p & l & s & q & O & ->) F IH];
      constructor; [|exact IH].
    exists (start_line u + count LF p). split; [reflexivity|].
    pose proof (@count_prefix LF _ _ _ _ _ (occ_src O) (occ_src O) (Nat.le_refl _)).
    pose proof (count_nonneg LF p). lia.
Qed.

(** The two findings of [two_statement_unit]. *)
Lemma findings_in_line_order_witness :
  nth_error sample_store 0%nat = Some two_statement_unit
  /\ (exists u' fs,
       scanUnit sample_store 0%nat = Ok u'
       /\ findings u' = if_any fs
       /\ StronglySorted line_le fs
       /\ Forall
            (fun f =>
               exists a, starting_line f = Some a
                         /\ start_line two_statement_unit <= a <= start_line two_statement_unit + count LF (source two_statement_unit))
            fs).
Proof.
  assert (H1 : nth_error sample_store 0%nat = Some two_statement_unit)
    by (vm_compute; reflexivity).
  split; [exact H1|].
  exact (@findings_in_line_order sample_store 0%nat two_statement_unit H1).
Defined.

Lemma count_skipn_le (c : char) (src : str) (a b : nat) :
  (a <= b)%nat -> count c (skipn b src) <= count c (skipn a src).
Proof.
  intros L. replace b with ((b - a) + a)%nat by lia.
  rewrite <- skipn_skipn. generalize (skipn a src) as l. intros l.
  rewrite <- (firstn_skipn (b - a) l) at 2. rewrite count_app.
  pose proof (count_nonneg c (firstn (b - a) l)). lia.
Qed.

Lemma count_match (src : str) (q : nat) (m : Match) :
  match_at ARITH_RE src q (skipn q src) = Some m ->
  1 + count period (skipn (m_end m) src) <= count period (skipn q src).
Proof.
  intros H. apply match_at_occurrence in H.
  destruct H as (pre & lead & s & post & Hocc & <-).
  rewrite (occ_match Hocc). cbn [m_end match_of]. rewrite (occ_src Hocc).
  set (body := lead ++ text s ++ [period]).
  assert (E : pre ++ lead ++ text s ++ period :: post = pre ++ body ++ post)
    by (unfold body; rewrite <- !app_assoc; reflexivity).
  rewrite E.
  assert (S1 : skipn (List.length pre) (pre ++ body ++ post) = body ++ post)
    by (rewrite skipn_app, skipn_all, Nat.sub_diag; reflexivity).
  assert (S2 : skipn (S (List.length pre + List.length lead
                           + List.length (text s))) (pre ++ body ++ post)
               = post).
  { replace (S (List.length pre + List.length lead + List.length (text s)))
      with (List.length (pre ++ body))
      by (unfold body; rewrite !length_app; simpl; lia).
    rewrite app_assoc, skipn_app, skipn_all, Nat.sub_diag. reflexivity. }
  rewrite S1, S2. unfold body. rewrite !count_app. simpl count.
  pose proof (count_nonneg period lead).
  pose proof (count_nonneg period (text s)). lia.
Qed.

Lemma scan_count (src : str) :
  forall rest pos resume,
    rest = skipn pos src ->
    Z.of_nat (List.length (scan ARITH_RE src pos rest resume))
    <= count period (skipn (Nat.max pos resume) src).
Proof.
  induction rest as [|c rest IH]; intros pos resume Hr; cbn [scan].
  - assert (N : match_at ARITH_RE src pos [] = None).
    { destruct (match_at ARITH_RE src pos []) as [m|] eqn:E; [|reflexivity].
      apply match_at_sound in E.
      destruct E as (l0 & s0 & r0 & _ & _ & _ & E & _).
      destruct l0; [destruct (text s0)|]; discriminate. }
    rewrite N. destruct (Nat.ltb pos resume); simpl; apply count_nonneg.
  - assert (Hr' : rest = skipn (S pos) src).
    { replace (S pos) with (1 + pos)%nat by lia.
      rewrite <- skipn_skipn, <- Hr. reflexivity. }
    destruct (Nat.ltb_spec pos resume) as [L|L].
    + specialize (IH (S pos) resume Hr').
      replace (Nat.max (S pos) resume) with (Nat.max pos resume) in IH by lia.
      exact IH.
    + destruct (match_at ARITH_RE src pos (c :: rest)) as [m|] eqn:E.
      * specialize (IH (S pos) (Nat.max (m_end m) (S pos)) Hr').
        rewrite Hr in E. pose proof (count_match _ _ E) as C.
        assert (Hm : (pos < m_end m)%nat).
        { apply match_at_occurrence in E.
          destruct E as (pre & lead & s & post & Hocc & Hq).
          rewrite (occ_match Hocc). cbn [m_end match_of]. lia. }
        replace (Nat.max (S pos) (Nat.max (m_end m) (S pos))) with (m_end m)
          in IH by lia.
        replace (Nat.max pos resume) with pos by lia.
        cbn [List.length]. lia.
      * specialize (IH (S pos) resume Hr').
        replace (Nat.max (S pos) resume) with (S pos) in IH by lia.
        replace (Nat.max pos resume) with pos by lia.
        pose proof (@count_skipn_le period src pos (S pos)). lia.
Qed.

(** X4. A unit never gets more findings than its text has periods. *)
Theorem findings_bounded_by_periods (h : store) (unit : ref) (u : Unit) :
  nth_error h unit = Some u ->
  exists u' fs,
    scanUnit h unit = Ok u'
    /\ findings u' = if_any fs
    /\ Z.of_nat (List.length fs) <= count period (source u).
Proof.
  intros Hr. destruct (Claims.scanUnit_reports h unit Hr) as (fs & F & Hrun).
  exists (with_findings (if_any fs) u), fs.
  split; [exact Hrun|]. split; [reflexivity|].
  rewrite <- (Forall2_length F).
  pose proof (reported_length (finditer ARITH_RE (source u))) as L.
  pose proof (@scan_count (source u) (source u) 0%nat 0%nat eq_refl) as C.
  cbn [Nat.max skipn] in C. unfold finditer in *. lia.
Qed.

(** [two_statement_unit] has two periods and two findings. *)
Lemma findings_bounded_by_periods_witness :
  nth_error sample_store 0%nat = Some two_statement_unit
  /\ (exists u' fs,
       scanUnit sample_store 0%nat = Ok u'
       /\ findings u' = if_any fs
       /\ Z.of_nat (List.length fs) <= count period (source two_statement_unit)).
Proof.
  assert (H1 : nth_error sample_store 0%nat = Some two_statement_unit)
    by (vm_compute; reflexivity).
  split; [exact H1|].
  exact (@findings_bounded_by_periods sample_store 0%nat two_statement_unit H1).
Defined.

Lemma match_at_end (src : str) (pos : nat) :
  match_at ARITH_RE src pos [] = None.
Proof.
  destruct (match_at ARITH_RE src pos []) as [m|] eqn:E; [|reflexivity].
  apply match_at_sound in E.
  destruct E as (l0 & s0 & r0 & _ & _ & _ & E & _).
  destruct l0; [destruct (text s0)|]; discriminate.
Qed.

Lemma match_at_mid_line (src : str) (pos : nat) (rest : str) :
  at_bol ARITH_RE src pos = false -> match_at ARITH_RE src pos rest = None.
Proof.
  intros H. unfold match_at. rewrite ARITH_RE_forms, run_Cat. cbn [run].
  rewrite H. reflexivity.
Qed.

(** Offsets inside the previous match are passed over. *)
Lemma scan_skip (p : Pattern) (src w : str) :
  forall pos rest resume,
    (pos + List.length w <= resume)%nat ->
    scan p src pos (w ++ rest) resume
    = scan p src (pos + List.length w) rest resume.
Proof.
  induction w as [|c w IH]; intros pos rest resume L; simpl.
  - rewrite Nat.add_0_r. reflexivity.
  - simpl in L. destruct (Nat.ltb_spec pos resume) as [L'|L']; [|lia].
    rewrite IH by lia. f_equal. lia.
Qed.

Lemma scan_program (src : str) (ls : list (str * Statement)) :
  forall pre resume,
    src = pre ++ program ls ->
    (pre = [] \/ exists p, pre = p ++ [LF]) ->
    (resume <= List.length pre)%nat ->
    Forall well_formed_line ls ->
    scan ARITH_RE src (List.length pre) (program ls) resume
    = matches_at src (List.length pre) ls.
Proof.
  induction ls as [|[lead s] ls IH]; intros pre resume Hsrc Hpre Hres Hwf.
  - change (program []) with (@nil char). cbn [scan matches_at].
    rewrite match_at_end.
    destruct (Nat.ltb (List.length pre) resume); reflexivity.
  - apply Forall_cons_iff in Hwf. destruct Hwf as [[Hlead Hs] Hwf].
    cbn [fst snd] in Hlead, Hs.
    assert (Hprog : program ((lead, s) :: ls)
                    = lead ++ text s ++ period :: LF :: program ls).
    { unfold program. cbn [map List.concat]. unfold render. cbn [fst snd].
      rewrite <- !app_assoc. reflexivity. }
    rewrite Hprog in Hsrc |- *.
    assert (Hbol : at_bol ARITH_RE src (List.length pre) = true)
      by (exact (@bol_pre src pre lead s (LF :: program ls) Hsrc Hpre)).
    pose proof (@match_at_complete src pre lead s (LF :: program ls)
                  Hbol Hlead (well_formed_written Hs)) as Hm.
    set (e := S (List.length pre + List.length lead + List.length (text s))).
    assert (Hrest : exists c w,
               lead ++ text s ++ period :: LF :: program ls
               = c :: w ++ LF :: program ls
               /\ S (List.length pre + List.length w) = e).
    { assert (Ht : exists x t, text s = x :: t).
      { destruct (keyword_head (well_formed_written Hs)) as (x & kw & Hkw & _).
        unfold text. rewrite Hkw. simpl. eauto. }
      destruct lead as [|c lead].
      - destruct Ht as (x & t & Ht). exists x, (t ++ [period]).
        split; [simpl; rewrite Ht; simpl; rewrite <- app_assoc; reflexivity|].
        unfold e. rewrite Ht, length_app. simpl. lia.
      - exists c, (lead ++ text s ++ [period]).
        split; [simpl; rewrite <- !app_assoc; reflexivity|].
        unfold e. rewrite !length_app. simpl. lia. }
    destruct Hrest as (c & w & Hrest & He).
    rewrite Hrest in Hm |- *. cbn [scan].
    destruct (Nat.ltb_spec (List.length pre) resume) as [L|_]; [lia|].
    rewrite Hm. cbn [matches_at fst snd]. f_equal.
    cbn [m_end match_of]. fold e.
    replace (Nat.max e (S (List.length pre))) with e by (unfold e; lia).
    rewrite scan_skip by lia.
    replace (S (List.length pre) + List.length w)%nat with e by lia.
    (* the line feed after the period is not the start of a line *)
    cbn [scan]. rewrite Nat.ltb_irrefl.
    rewrite match_at_mid_line.
    + assert (Hpre' : src = (pre ++ lead ++ text s ++ period :: [LF])
                            ++ program ls)
        by (rewrite Hsrc; repeat (rewrite <- app_assoc; simpl); reflexivity).
      assert (Hlen : List.length (pre ++ lead ++ text s ++ period :: [LF])
                     = S e)
        by (unfold e; rewrite !length_app; simpl; lia).
      assert (Hlen' : (List.length pre + List.length (render (lead, s)))%nat
                      = S e)
        by (unfold e, render; cbn [fst snd]; rewrite !length_app; simpl; lia).
      rewrite Hlen', <- Hlen.
      apply IH; [exact Hpre' | | lia | exact Hwf].
      right. exists (pre ++ lead ++ text s ++ [period]).
      rewrite <- !app_assoc. reflexivity.
    + unfold e. cbn [at_bol MULTILINE ARITH_RE andb].
      rewrite Hsrc.
      replace (pre ++ lead ++ text s ++ period :: LF :: program ls)
        with ((pre ++ lead ++ text s) ++ period :: LF :: program ls)
        by (rewrite <- !app_assoc; reflexivity).
      rewrite nth_error_app2 by (rewrite !length_app; lia).
      rewrite !length_app.
      replace (List.length pre + List.length lead + List.length (text s)
               - (List.length pre + (List.length lead + List.length (text s))))%nat
        with 0%nat by lia.
      reflexivity.
Qed.

Lemma scan_matches_program (u : Unit) (src : str) (ls : list (str * Statement)) :
  forall pre fs,
    src = pre ++ program ls ->
    (pre = [] \/ exists p, pre = p ++ [LF]) ->
    Forall well_formed_line ls ->
    scan_matches u src fs (matches_at src (List.length pre) ls)
    = Ok (fs ++ findings_at u src pre ls).
Proof.
  induction ls as [|[lead s] ls IH]; intros pre fs Hsrc Hpre Hwf.
  - simpl. rewrite app_nil_r. reflexivity.
  - apply Forall_cons_iff in Hwf. destruct Hwf as [[Hlead Hs] Hwf].
    cbn [fst snd] in Hlead, Hs.
    assert (Hprog : program ((lead, s) :: ls)
                    = lead ++ text s ++ period :: LF :: program ls).
    { unfold program. cbn [map List.concat]. unfold render. cbn [fst snd].
      rewrite <- !app_assoc. reflexivity. }
    rewrite Hprog in Hsrc.
    assert (Hocc : occurrence src (match_of src (List.length pre) lead s)
                              pre lead s (LF :: program ls)).
    { constructor; auto using well_formed_written.
      exact (@bol_pre src pre lead s _ Hsrc Hpre). }
    cbn [matches_at findings_at scan_matches fst snd].
    rewrite (scan_match_ok u Hocc fs Hs). cbn [bind].
    assert (Hpre' : src = (pre ++ render (lead, s)) ++ program ls).
    { rewrite Hsrc. unfold render. cbn [fst snd].
      repeat (rewrite <- app_assoc; simpl). reflexivity. }
    rewrite <- length_app.
    rewrite (IH (pre ++ render (lead, s)) _ Hpre' ); [| |exact Hwf].
    + rewrite <- app_assoc. reflexivity.
    + right. exists (pre ++ lead ++ text s ++ [period]). unfold render.
      cbn [fst snd]. repeat (rewrite <- app_assoc; simpl). reflexivity.
Qed.

Lemma findings_at_length (u : Unit) (src : str) (ls : list (str * Statement)) :
  forall pre, List.length (findings_at u src pre ls) = List.length ls.
Proof.
  induction ls as [|l ls IH]; intros pre; simpl; [reflexivity|].
  rewrite IH. reflexivity.
Qed.

(** X5. In a text made of well-formed statements, one to a line, each
    after blanks only and followed by its period, every statement is
    detected: the matches and the findings of the unit are those of the
    statements, one for each, in the order of the text. *)
Theorem all_statements_detected (h : store) (unit : ref) (u : Unit)
    (ls : list (str * Statement)) :
  nth_error h unit = Some u ->
  code u = Some (program ls) ->
  Forall well_formed_line ls ->
  exists u',
    scanUnit h unit = Ok u'
    /\ finditer ARITH_RE (program ls) = matches_at (program ls) 0 ls
    /\ findings u' = if_any (findings_at u (program ls) [] ls)
    /\ List.length (findings_at u (program ls) [] ls) = List.length ls.
Proof.
  intros Hr Hc Hwf.
  destruct (Claims.scanUnit_run h unit Hr) as (fs & Hfs & _ & Hrun).
  assert (Hsrc : source u = program ls).
  { unfold source. rewrite Hc. destruct (program ls); reflexivity. }
  rewrite Hsrc in Hfs.
  assert (Hm : finditer ARITH_RE (program ls) = matches_at (program ls) 0 ls).
  { apply (@scan_program (program ls) ls [] 0%nat); auto. }
  rewrite Hm in Hfs.
  pose proof (@scan_matches_program u (program ls) ls [] [] eq_refl
                (or_introl eq_refl) Hwf) as Hp.
  cbn [List.length app] in Hp. rewrite Hp in Hfs. injection Hfs as <-.
  exists (with_findings (if_any (findings_at u (program ls) [] ls)) u).
  split; [exact Hrun|]. split; [exact Hm|]. split; [reflexivity|].
  apply findings_at_length.
Qed.

(** The two lines of [statements]. *)
Lemma all_statements_detected_witness :
  nth_error [statements_unit] 0%nat = Some statements_unit
  /\ code statements_unit = Some (program statements)
  /\ Forall well_formed_line statements
  /\ (exists u',
       scanUnit [statements_unit] 0%nat = Ok u'
       /\ finditer ARITH_RE (program statements) = matches_at (program statements) 0 statements
       /\ findings u' = if_any (findings_at statements_unit (program statements) [] statements)
       /\ List.length (findings_at statements_unit (program statements) [] statements) = List.length statements).
Proof.
  assert (H1 : nth_error [statements_unit] 0%nat = Some statements_unit)
    by reflexivity.
  assert (H2 : code statements_unit = Some (program statements))
    by reflexivity.
  assert (H3 : Forall well_formed_line statements)
    by (repeat apply Forall_cons; try apply Forall_nil;
        (split; [reflexivity | well_formed_by_computation])).
  split; [exact H1|]. split; [exact H2|]. split; [exact H3|].
  exact (@all_statements_detected [statements_unit] 0%nat statements_unit
           statements H1 H2 H3).
Defined.

Lemma eqs_true (a : str) : forall b, eqs a b = true <-> a = b.
Proof.
  induction a as [|x a IH]; intros [|y b]; simpl; split; intros H;
    try reflexivity; try discriminate.
  - apply andb_true_iff in H. destruct H as [Hx Hab].
    apply eqc_true in Hx. apply IH in Hab. congruence.
  - injection H as -> ->. apply andb_true_iff. split; [apply eqc_true | apply IH];
      reflexivity.
Qed.

Lemma getitem_operators (ty : str) :
  (exists k, ty = chars (keyword k)
             /\ getitem operators ty = Ok (chars (operator k)))
  \/ ((forall k, ty <> chars (keyword k))
      /\ getitem operators ty = Raise KeyError).
Proof.
  unfold operators. cbn [getitem].
  destruct (eqs (chars "ADD") ty) eqn:E1;
    [apply eqs_true in E1; left; exists ADD; auto|].
  destruct (eqs (chars "SUBTRACT") ty) eqn:E2;
    [apply eqs_true in E2; left; exists SUBTRACT; auto|].
  destruct (eqs (chars "MULTIPLY") ty) eqn:E3;
    [apply eqs_true in E3; left; exists MULTIPLY; auto|].
  destruct (eqs (chars "DIVIDE") ty) eqn:E4;
    [apply eqs_true in E4; left; exists DIVIDE; auto|].
  right. split; [|reflexivity].
  intros k Hk. symmetry in Hk. apply eqs_true in Hk.
  destruct k; cbn [keyword] in Hk; congruence.
Qed.

(** X6. [make_finding] builds a finding exactly when the statement type is
    one of [ADD], [SUBTRACT], [MULTIPLY], [DIVIDE] in upper case, and then
    with the operator of that type; for any other type, whatever the other
    arguments, it raises [KeyError]. *)
Theorem make_finding_key (unit : Unit) (src : str) (start end_ : Z)
    (stmt_type : str) (value target : option str) (original_stmt : str) :
  (exists k f,
      stmt_type = chars (keyword k)
      /\ make_finding unit src start end_ stmt_type value target original_stmt
         = Ok f
      /\ issues_type f = Some ("Obsolete" ++ chars (keyword k) ++ "Usage")
      /\ suggestion f
         = Some ("Replace '" ++ original_stmt ++ "' with '" ++ fmt target
                   ++ " " ++ operator k ++ " " ++ fmt value ++ "'."))
  \/ ((forall k, stmt_type <> chars (keyword k))
      /\ make_finding unit src start end_ stmt_type value target original_stmt
         = Raise KeyError).
Proof.
  unfold make_finding.
  destruct (getitem_operators stmt_type) as [(k & -> & G) | (N & G)];
    rewrite G; cbn [bind].
  - left. eexists k, _. repeat split; reflexivity.
  - right. split; [exact N | reflexivity].
Qed.

Lemma make_finding_moved (d : Z) (u v : Unit) (src : str) (start end_ : Z)
    (ty : str) (value target : option str) (stmt : str) :
  moved d u v ->
  make_finding v src start end_ ty value target stmt
  = match make_finding u src start end_ ty value target stmt with
    | Ok f => Ok (move_finding d f)
    | Raise e => Raise e
    end.
Proof.
  intros [Hp Hi Ht Hn Hc Hl]. unfold make_finding.
  destruct (getitem operators ty); cbn [bind]; [|reflexivity].
  unfold move_finding. cbn. rewrite Hp, Hi, Ht, Hn, Hl.
  do 2 f_equal; f_equal; lia.
Qed.

Lemma scan_matches_moved (d : Z) (u v : Unit) (src : str) (ms : list Match) :
  moved d u v ->
  forall fs,
    scan_matches v src (map (move_finding d) fs) ms
    = match scan_matches u src fs ms with
      | Ok fs' => Ok (map (move_finding d) fs')
      | Raise e => Raise e
      end.
Proof.
  intros Hm. induction ms as [|m ms IH]; intros fs; [reflexivity|].
  cbn [scan_matches]. unfold scan_match.
  destruct (group m "stmt") as [g|]; cbn [bind]; [|reflexivity].
  destruct (stripped g) as [stmt|]; cbn [bind]; [|reflexivity].
  destruct (classify m stmt) as [[[[ty value] target]|]|]; cbn [bind];
    [| apply IH | reflexivity].
  rewrite (make_finding_moved _ _ _ _ _ _ _ Hm).
  destruct (make_finding u src (start m) (end_ m) ty value target stmt) as [f|];
    cbn [bind]; [|reflexivity].
  rewrite <- IH, map_app. reflexivity.
Qed.

(** X7. The scan reads the program name, include name, type, name, code
    and start line of a unit and nothing else: a unit that agrees with
    another on the first five and starts [d] lines further down gets the
    same findings, each [d] lines further down.  End line, class
    implementation and incoming findings have no influence. *)
Theorem findings_move_with_start_line (d : Z) (h1 h2 : store) (r1 r2 : ref)
    (u v : Unit) :
  nth_error h1 r1 = Some u ->
  nth_error h2 r2 = Some v ->
  moved d u v ->
  exists u' v',
    scanUnit h1 r1 = Ok u'
    /\ scanUnit h2 r2 = Ok v'
    /\ findings v' = option_map (map (move_finding d)) (findings u').
Proof.
  intros H1 H2 Hm.
  destruct (Claims.scanUnit_run h1 r1 H1) as (fs & Hfs & _ & Hrun1).
  destruct (Claims.scanUnit_run h2 r2 H2) as (gs & Hgs & _ & Hrun2).
  assert (Hsrc : source v = source u)
    by (unfold source; rewrite (moved_code Hm); reflexivity).
  rewrite Hsrc in Hgs.
  pose proof (scan_matches_moved (source u) (finditer ARITH_RE (source u)) Hm [])
    as E.
  cbn [map] in E. rewrite Hfs, Hgs in E. injection E as ->.
  eexists _, _. split; [exact Hrun1|]. split; [exact Hrun2|].
  destruct fs; reflexivity.
Qed.

(** [two_statement_unit] and [moved_unit], which starts 150 lines later. *)
Lemma findings_move_with_start_line_witness :
  nth_error sample_store 0%nat = Some two_statement_unit
  /\ nth_error [moved_unit] 0%nat = Some moved_unit
  /\ moved 150 two_statement_unit moved_unit
  /\ (exists u' v',
       scanUnit sample_store 0%nat = Ok u'
       /\ scanUnit [moved_unit] 0%nat = Ok v'
       /\ findings v' = option_map (map (move_finding 150)) (findings u')).
Proof.
  assert (H1 : nth_error sample_store 0%nat = Some two_statement_unit)
    by reflexivity.
  assert (H2 : nth_error [moved_unit] 0%nat = Some moved_unit)
    by reflexivity.
  assert (H3 : moved 150 two_statement_unit moved_unit)
    by (constructor; reflexivity).
  split; [exact H1|]. split; [exact H2|]. split; [exact H3|].
  exact (@findings_move_with_start_line 150 sample_store [moved_unit]
           0%nat 0%nat two_statement_unit moved_unit H1 H2 H3).
Defined.

Lemma scanned_truthy (u : Unit) :
  truthy (findings (scanned u)) = true
  <-> reported (finditer ARITH_RE (source u)) <> [].
Proof.
  destruct (findings_ok u) as (fs & Hfs & F).
  unfold scanned, source in *. rewrite Hfs.
  cbn [findings with_findings].
  revert F. generalize (reported (finditer ARITH_RE (or_empty (code u)))).
  intros l F. destruct F as [|m f ms fs' _ _]; simpl; split; intros H;
    try discriminate; try reflexivity.
  exfalso. apply H. reflexivity.
Qed.

Lemma kept_member (us : list Unit) :
  forall base i u,
    nth_error us i = Some u ->
    truthy (findings (scanned u)) = true ->
    In (base + i)%nat (kept base us).
Proof.
  induction us as [|v us IH]; intros base [|i] u Hi T; simpl in Hi;
    try discriminate; cbn [kept]; apply in_app_iff.
  - injection Hi as ->. rewrite T. left. rewrite Nat.add_0_r. left. reflexivity.
  - right. replace (base + S i)%nat with (S base + i)%nat by lia.
    eapply IH; eauto.
Qed.

Lemma kept_sorted (us : list Unit) :
  forall base, StronglySorted lt (kept base us).
Proof.
  induction us as [|u us IH]; intros base; cbn [kept]; [constructor|].
  assert (F : Forall (lt base) (kept (S base) us)).
  { apply Forall_forall. intros o Ho. apply Claims.kept_range in Ho.
    destruct Ho as (i & v & -> & _). lia. }
  destruct (truthy (findings (scanned u))); simpl; [constructor|]; auto.
Qed.

(** X8. The batch operation scans every unit of its list, one new instance
    each, appended to the store in the order of the list and equal to what
    the single-unit scan returns for that unit; the instances that were
    there stay as they were.  It returns, in the order of the list, the
    references of exactly those new instances whose text has at least one
    reported match, a match whose keyword is written without U+0130. *)
Theorem batch_keeps_matching_units (h : store) (units : list ref)
    (us : list Unit) :
  Forall2 (fun r u => nth_error h r = Some u) units us ->
  exists outs h',
    arithmetic_array units h = Ok (outs, h')
    /\ List.length h' = (List.length h + List.length units)%nat
    /\ (forall r v, nth_error h r = Some v -> nth_error h' r = Some v)
    /\ (forall i r u,
          nth_error units i = Some r -> nth_error us i = Some u ->
          exists c,
            scanUnit h r = Ok c
            /\ nth_error h' (List.length h + i)%nat = Some c
            /\ (In (List.length h + i)%nat outs
                <-> reported (finditer ARITH_RE (source u)) <> []))
    /\ StronglySorted lt outs
    /\ Forall (fun o => (List.length h <= o < List.length h')%nat) outs.
Proof.
  intros F.
  exists (kept (List.length h) us), (h ++ map scanned us).
  split; [unfold arithmetic_array;
          rewrite (@Claims.arithmetic_array_loop_run _ _ h [] F); reflexivity|].
  pose proof (Forall2_length F) as L. unfold ref in *.
  split; [rewrite length_app, length_map; lia|].
  split.
  { intros r v Hv. rewrite nth_error_app1; [exact Hv|].
    apply nth_error_Some. congruence. }
  split.
  { intros i r u Hr Hu.
    assert (Hru : nth_error h r = Some u).
    { clear L. revert i Hr Hu. induction F as [|r0 u0 units us H0 F IH];
        intros [|i] Hr Hu; simpl in *; try discriminate.
      - congruence.
      - eapply IH; eauto. }
    exists (scanned u). split; [|split].
    - unfold scanUnit, bindM, load.
      rewrite (Claims.scan_unit_scanned h r Hru), Claims.nth_error_last.
      reflexivity.
    - rewrite nth_error_app2 by lia.
      replace (List.length h + i - List.length h)%nat with i by lia.
      apply map_nth_error. exact Hu.
    - rewrite <- scanned_truthy. split.
      + intros Hin. apply Claims.kept_range in Hin.
        destruct Hin as (j & w & Hj & Hw & T).
        assert (j = i) by lia. subst j. congruence.
      + intros T. eapply kept_member; eauto. }
  split; [apply kept_sorted|].
  apply Forall_forall. intros o Ho. apply Claims.kept_range in Ho.
  destruct Ho as (i & v & -> & Hv & _).
  assert (i < List.length us)%nat by (apply nth_error_Some; congruence).
  rewrite length_app, length_map. lia.
Qed.

(** A batch of the two units of [unicode_store]: the copy of [accent_unit]
    is kept, the copy of [dotted_unit] is not. *)
Lemma batch_keeps_matching_units_witness :
  Forall2 (fun r u => nth_error unicode_store r = Some u) [1; 0]%nat [accent_unit; dotted_unit]
  /\ (exists outs h',
       arithmetic_array [1; 0]%nat unicode_store = Ok (outs, h')
       /\ List.length h' = (List.length unicode_store + List.length [1; 0]%nat)%nat
       /\ (forall r v, nth_error unicode_store r = Some v -> nth_error h' r = Some v)
       /\ (forall i r u,
             nth_error [1; 0]%nat i = Some r -> nth_error [accent_unit; dotted_unit] i = Some u ->
             exists c,
               scanUnit unicode_store r = Ok c
               /\ nth_error h' (List.length unicode_store + i)%nat = Some c
               /\ (In (List.length unicode_store + i)%nat outs
                   <-> reported (finditer ARITH_RE (source u)) <> []))
       /\ StronglySorted lt outs
       /\ Forall (fun o => (List.length unicode_store <= o < List.length h')%nat) outs).
Proof.
  assert (H1 : Forall2 (fun r u => nth_error unicode_store r = Some u) [1; 0]%nat [accent_unit; dotted_unit])
    by (repeat constructor).
  split; [exact H1|].
  exact (@batch_keeps_matching_units unicode_store [1; 0]%nat [accent_unit; dotted_unit] H1).
Defined.

Lemma line_split (x : str) :
  forall x' r r',
    x ++ r = x' ++ r' ->
    ~ In LF x -> ~ In LF x' ->
    (r = [] \/ exists t, r = LF :: t) ->
    (r' = [] \/ exists t, r' = LF :: t) ->
    x = x' /\ r = r'.
Proof.
  induction x as [|c x IH]; intros [|c' x'] r r' E Hx Hx' Hr Hr'; simpl in *.
  - auto.
  - exfalso. subst r. destruct Hr as [E | (t & E)]; [discriminate|].
    injection E as -> _. tauto.
  - exfalso. subst r'. destruct Hr' as [E | (t & E)]; [discriminate|].
    injection E as -> _. tauto.
  - injection E as -> E. destruct (IH x' r r' E) as [-> ->]; tauto.
Qed.

Lemma line_split_left (l : str) (a a' l' : str) :
  a ++ l = a' ++ l' ->
  ~ In LF l -> ~ In LF l' ->
  (a = [] \/ exists p, a = p ++ [LF]) ->
  (a' = [] \/ exists p, a' = p ++ [LF]) ->
  a = a' /\ l = l'.
Proof.
  intros E Hl Hl' Ha Ha'.
  assert (R : rev l ++ rev a = rev l' ++ rev a')
    by (rewrite <- !rev_app_distr, E; reflexivity).
  assert (I : forall x y : str, rev x = rev y -> x = y).
  { intros x y H. rewrite <- (rev_involutive x), H. apply rev_involutive. }
  assert (T : forall b : str, (b = [] \/ exists p, b = p ++ [LF]) ->
                              rev b = [] \/ exists t, rev b = LF :: t).
  { intros b [-> | (p & ->)]; [left; reflexivity|].
    right. exists (rev p). rewrite rev_app_distr. reflexivity. }
  apply line_split in R; auto.
  - destruct R as [R1 R2]. apply I in R1, R2. auto.
  - intros H. apply Hl, in_rev, H.
  - intros H. apply Hl', in_rev, H.
Qed.

(** X9. For an offset within the text, [extract_exact_line] returns the
    line that holds the offset: a piece of the text without line feed,
    between a line feed (or the start of the text) and a line feed (or the
    end of the text), and it returns that same line for every offset from
    the start of the line to its end. *)
Theorem extract_exact_line_window (src : str) (start : Z) :
  0 <= start <= len src ->
  exists a line b,
    src = a ++ line ++ b
    /\ extract_exact_line src start = line
    /\ ~ In LF line
    /\ (a = [] \/ exists p, a = p ++ [LF])
    /\ (b = [] \/ exists t, b = LF :: t)
    /\ len a <= start <= len a + len line
    /\ (forall start',
          len a <= start' <= len a + len line ->
          extract_exact_line src start' = line).
Proof.
  intros Hs.
  assert (cut : forall k : Z, 0 <= k <= len src ->
            exists pre suf, src = pre ++ suf /\ len pre = k).
  { intros k Hk. exists (firstn (Z.to_nat k) src), (skipn (Z.to_nat k) src).
    split; [symmetry; apply firstn_skipn|].
    unfold len in *. rewrite length_firstn. lia. }
  destruct (cut start Hs) as (pre & suf & Hsrc & Hlen).
  destruct (extract_exact_line_spec pre suf)
    as (a & l1 & l2 & b & Hpre & Hsuf & Hx & Hn & Ha & Hb).
  exists a, (l1 ++ l2), b.
  assert (Esrc : src = a ++ (l1 ++ l2) ++ b)
    by (rewrite Hsrc, Hpre, Hsuf, <- !app_assoc; reflexivity).
  split; [exact Esrc|].
  split; [rewrite Hsrc, <- Hlen; exact Hx|].
  split; [exact Hn|]. split; [exact Ha|]. split; [exact Hb|].
  split.
  { rewrite <- Hlen, Hpre, !len_app.
    pose proof (len_nonneg l1). pose proof (len_nonneg l2). lia. }
  intros start' Hs'.
  assert (Hr : 0 <= start' <= len src).
  { rewrite Esrc, !len_app. rewrite len_app in Hs'.
    pose proof (len_nonneg a). pose proof (len_nonneg b). lia. }
  destruct (cut start' Hr) as (pre' & suf' & Hsrc' & Hlen').
  destruct (extract_exact_line_spec pre' suf')
    as (a' & m1 & m2 & b' & Hpre' & Hsuf' & Hx' & Hn' & Ha' & Hb').
  rewrite Hsrc', <- Hlen', Hx'.
  (* both decompositions cut the same line out of the text *)
  assert (L1 : (List.length a <= List.length pre')%nat)
    by (unfold len in *; lia).
  rewrite Esrc in Hsrc'.
  destruct (@app_split _ _ _ _ Hsrc' L1) as (d & Hd & Hrest).
  assert (L2 : (List.length d <= List.length (l1 ++ l2))%nat).
  { rewrite Hd in Hlen'. unfold len in *. rewrite !length_app in *. lia. }
  symmetry in Hrest.
  destruct (@app_split _ _ _ _ Hrest L2) as (d2 & Hline & Hsuf2).
  assert (Nd : ~ In LF d /\ ~ In LF d2).
  { rewrite Hline in Hn. rewrite in_app_iff in Hn. tauto. }
  assert (N1 : ~ In LF m1 /\ ~ In LF m2).
  { rewrite in_app_iff in Hn'. tauto. }
  rewrite Hpre' in Hd. symmetry in Hd.
  destruct (@line_split_left _ _ _ _ Hd (proj1 Nd) (proj1 N1) Ha Ha')
    as [_ <-].
  rewrite Hsuf' in Hsuf2. symmetry in Hsuf2.
  destruct (@line_split _ _ _ _ Hsuf2 (proj2 Nd) (proj2 N1) Hb Hb')
    as [<- _].
  symmetry. exact Hline.
Qed.

(** Offset 9 of [three_lines] lies in the second line. *)
Lemma extract_exact_line_window_witness :
  0 <= 9 <= len three_lines
  /\ (exists a line b,
       three_lines = a ++ line ++ b
       /\ extract_exact_line three_lines 9 = line
       /\ ~ In LF line
       /\ (a = [] \/ exists p, a = p ++ [LF])
       /\ (b = [] \/ exists t, b = LF :: t)
       /\ len a <= 9 <= len a + len line
       /\ (forall start',
             len a <= start' <= len a + len line ->
             extract_exact_line three_lines start' = line)).
Proof.
  assert (H1 : 0 <= 9 <= len three_lines) by (vm_compute; split; discriminate).
  split; [exact H1|].
  exact (@extract_exact_line_window three_lines 9 H1).
Defined.

Lemma count_absent (c : char) (l : str) : ~ In c l -> count c l = 0.
Proof.
  induction l as [|x l IH]; simpl; intros H; [reflexivity|].
  destruct (eqc x c) eqn:E; [apply eqc_true in E; tauto|].
  rewrite IH by tauto. reflexivity.
Qed.

Lemma lines_of_line (line b : str) :
  ~ In LF line -> (b = [] \/ exists t, b = LF :: t) ->
  exists ls, lines_of (line ++ b) = line :: ls.
Proof.
  induction line as [|x line IH]; intros Hn Hb; simpl.
  - destruct Hb as [-> | (t & ->)]; simpl; eauto.
  - destruct (eqc x LF) eqn:E; [apply eqc_true in E; simpl in Hn; tauto|].
    destruct IH as (ls & ->); [simpl in Hn; tauto | exact Hb|]. eauto.
Qed.

Lemma lines_of_prefix (a : str) :
  forall rest,
    (a = [] \/ exists p, a = p ++ [LF]) ->
    exists ls,
      lines_of (a ++ rest) = ls ++ lines_of rest
      /\ Z.of_nat (List.length ls) = count LF a.
Proof.
  induction a as [|x a IH]; intros rest Ha.
  - exists []. split; reflexivity.
  - assert (Ha' : a = [] \/ exists p, a = p ++ [LF]).
    { destruct Ha as [Ha | (p & Ha)]; [discriminate|].
      destruct p as [|y p]; simpl in Ha; injection Ha as -> ->; eauto. }
    destruct (IH rest Ha') as (ls & Hls & Hlen).
    simpl. rewrite Hls. destruct (eqc x LF) eqn:E.
    + exists ([] :: ls). split; [reflexivity|]. simpl List.length. lia.
    + destruct Ha' as [-> | (p & Hp)].
      * destruct Ha as [Ha | (p & Ha)]; [discriminate|].
        destruct p as [|y p]; simpl in Ha; [|destruct p; discriminate].
        injection Ha as ->. discriminate.
      * destruct ls as [|l ls].
        -- exfalso. simpl in Hlen. rewrite Hp, count_app in Hlen. simpl in Hlen.
           pose proof (count_nonneg LF p). lia.
        -- exists ((x :: l) :: ls). split; [reflexivity|]. simpl in *. lia.
Qed.

(** X10. The snippet of a finding and its starting line agree: the snippet
    is the line of the text whose number, counted from the start line of
    the unit, is the starting line of the finding. *)
Theorem snippet_is_reported_line (h : store) (unit : ref) (u : Unit) :
  nth_error h unit = Some u ->
  exists u' fs,
    scanUnit h unit = Ok u'
    /\ findings u' = if_any fs
    /\ Forall
         (fun f =>
            exists a,
              starting_line f = Some a
              /\ snippet f
                 = nth_error (lines_of (source u)) (Z.to_nat (a - start_line u)))
         fs.
Proof.
  intros Hr. destruct (Claims.scanUnit_reports h unit Hr) as (fs & F & Hrun).
  exists (with_findings (if_any fs) u), fs.
  split; [exact Hrun|]. split; [reflexivity|].
  clear Hrun. induction F as [|m f ms fs (pre & lead & s & post & O & ->) F IH];
    constructor; [|exact IH].
  exists (start_line u + count LF pre). split; [reflexivity|].
  cbn [snippet finding_of].
  destruct (extract_exact_line_spec pre (lead ++ text s ++ period :: post))
    as (a & l1 & l2 & b & Hpre & Hsuf & Hx & Hn & Ha & Hb).
  rewrite (occ_src O), Hx, (@replace_absent _ _ _ Hn).
  replace (start_line u + count LF pre - start_line u) with (count LF pre) by lia.
  assert (Hc : count LF pre = count LF a).
  { rewrite Hpre, count_app, (@count_absent LF l1); [lia|].
    rewrite in_app_iff in Hn. tauto. }
  rewrite Hc, Hpre, Hsuf, <- app_assoc.
  destruct (@lines_of_prefix a (l1 ++ l2 ++ b) Ha) as (ls & -> & Hlen).
  rewrite <- Hlen, Nat2Z.id, nth_error_app2, Nat.sub_diag by lia.
  rewrite app_assoc.
  destruct (@lines_of_line _ b Hn Hb) as (ls' & ->). reflexivity.
Qed.

(** The snippet of the statement of [two_line_unit]. *)
Lemma snippet_is_reported_line_witness :
  nth_error sample_store 1%nat = Some two_line_unit
  /\ (exists u' fs,
       scanUnit sample_store 1%nat = Ok u'
       /\ findings u' = if_any fs
       /\ Forall
            (fun f =>
               exists a,
                 starting_line f = Some a
                 /\ snippet f
                    = nth_error (lines_of (source two_line_unit)) (Z.to_nat (a - start_line two_line_unit)))
            fs).
Proof.
  assert (H1 : nth_error sample_store 1%nat = Some two_line_unit)
    by (vm_compute; reflexivity).
  split; [exact H1|].
  exact (@snippet_is_reported_line sample_store 1%nat two_line_unit H1).
Defined.

(** X11. The starting line of a finding is counted at the start of its
    match, not at the statement: it is the line of the statement's keyword
    (start line of the unit plus the line feeds before the group [stmt])
    less the line feeds among the blanks that the match holds in front of
    the keyword. *)
Theorem starting_line_lags_by_blank_lines (h : store) (unit : ref) (u : Unit) :
  nth_error h unit = Some u ->
  exists u' fs,
    scanUnit h unit = Ok u'
    /\ findings u' = if_any fs
    /\ Forall2
         (fun m f =>
            exists a e,
              lookup (m_marks m) "stmt" = Some (a, e)
              /\ forallb isspace (slice (source u) (Re.start m) (Z.of_nat a))
                 = true
              /\ starting_line f
                 = Some (start_line u
                         + count LF (slice (source u) 0 (Z.of_nat a))
                         - count LF (slice (source u) (Re.start m)
                                       (Z.of_nat a))))
         (reported (finditer ARITH_RE (source u))) fs.
Proof.
  intros Hr. destruct (Claims.scanUnit_reports h unit Hr) as (fs & F & Hrun).
  exists (with_findings (if_any fs) u), fs.
  split; [exact Hrun|]. split; [reflexivity|].
  eapply Forall2_impl; [|exact F].
  intros m f (pre & lead & s & post & O & ->).
  exists (List.length pre + List.length lead)%nat,
         (List.length pre + List.length lead + List.length (text s))%nat.
  assert (S1 : slice (source u) 0 (Z.of_nat (List.length pre + List.length lead))
               = pre ++ lead).
  { rewrite (occ_src O), app_assoc, <- length_app. apply slice_prefix. }
  assert (S2 : slice (source u) (Re.start m)
                 (Z.of_nat (List.length pre + List.length lead)) = lead).
  { rewrite (match_start O), (occ_src O). unfold len.
    apply slice_at; reflexivity. }
  rewrite S1, S2.
  split; [rewrite (occ_match O); cbn [m_marks match_of spans lookup];
          rewrite String.eqb_refl; reflexivity|].
  split; [exact (occ_lead O)|].
  cbn [starting_line finding_of]. rewrite count_app. f_equal. lia.
Qed.

(** The statement of [blank_line_unit], which follows a blank line. *)
Lemma starting_line_lags_by_blank_lines_witness :
  nth_error sample_store 3%nat = Some blank_line_unit
  /\ (exists u' fs,
       scanUnit sample_store 3%nat = Ok u'
       /\ findings u' = if_any fs
       /\ Forall2
            (fun m f =>
               exists a e,
                 lookup (m_marks m) "stmt" = Some (a, e)
                 /\ forallb isspace (slice (source blank_line_unit) (Re.start m) (Z.of_nat a))
                    = true
                 /\ starting_line f
                    = Some (start_line blank_line_unit
                            + count LF (slice (source blank_line_unit) 0 (Z.of_nat a))
                            - count LF (slice (source blank_line_unit) (Re.start m)
                                          (Z.of_nat a))))
            (reported (finditer ARITH_RE (source blank_line_unit))) fs).
Proof.
  assert (H1 : nth_error sample_store 3%nat = Some blank_line_unit)
    by (vm_compute; reflexivity).
  split; [exact H1|].
  exact (@starting_line_lags_by_blank_lines sample_store 3%nat blank_line_unit H1).
Defined.

Lemma filter_all (A : Type) (p : A -> bool) (l : list A) :
  (forall a, In a l -> p a = true) -> filter p l = l.
Proof.
  induction l as [|a l IH]; intros H; cbn [filter]; [reflexivity|].
  rewrite (H a (or_introl eq_refl)), IH; [reflexivity|].
  intros b Hb. apply H. right. exact Hb.
Qed.

Lemma existsb_app_false (c : char) (a b : str) :
  existsb (eqc c) (a ++ b) = false ->
  existsb (eqc c) a = false /\ existsb (eqc c) b = false.
Proof. rewrite existsb_app. apply orb_false_iff. Qed.

Lemma kind_eq_dec (a b : kind) : a = b \/ a <> b.
Proof. destruct a, b; (left; reflexivity) || (right; discriminate). Qed.

(** X12. The loop passes over a match exactly when the keyword of the
    match is written with U+0130, the capital I with a dot above: the
    pattern takes that character for the letter I, [upper] leaves it as it
    is, and then the text of the statement in upper case starts with none
    of the four keywords, so that the turn of the loop adds nothing.  For
    every other match the text in upper case starts with the keyword of
    its kind and the turn adds one finding. *)
Theorem dotted_keyword_passed_over (unit : Unit) (src : str) (m : Match)
    (fs : list Finding) :
  In m (finditer ARITH_RE src) ->
  exists stmt,
    group m "stmt" = Ok (Some stmt)
    /\ strip stmt = stmt
    /\ (existsb (eqc dotted_I) (keyword_text m) = true ->
        (forall k, startswith (upper stmt) (keyword k) = false)
        /\ classify m stmt = Ok None
        /\ scan_match unit src fs m = Ok fs)
    /\ (existsb (eqc dotted_I) (keyword_text m) = false ->
        exists k f,
          startswith (upper stmt) (keyword k) = true
          /\ group m (val_group k) <> Ok None
          /\ scan_match unit src fs m = Ok (fs ++ [f])).
Proof.
  intros Hin. apply finditer_occurrence in Hin.
  destruct Hin as (pre & lead & s & post & Hocc).
  pose proof (occ_wr Hocc) as Hwr.
  exists (text s). split; [exact (group_stmt Hocc)|].
  split; [exact (strip_text Hwr)|].
  pose proof (classify_occ Hocc) as Hc.
  pose proof (scan_match_occ unit Hocc fs) as Hm.
  pose proof (upper_own Hwr) as Own.
  rewrite <- (keyword_text_occ Hocc) in Own.
  unfold skipped in Hc, Hm.
  split; intros Hk; rewrite Hk in *; cbn [negb] in Own.
  - split; [|split; assumption].
    intros k. destruct (kind_eq_dec k (s_kind s)) as [-> | Hne];
      [exact Own | exact (upper_other Hwr Hne)].
  - exists (s_kind s), (finding_of unit src pre s).
    split; [exact Own|]. split; [|exact Hm].
    rewrite (group_value Hocc). discriminate.
Qed.

(** The match of [dotted_unit]. *)
Lemma dotted_keyword_passed_over_witness :
  In (match_of (source dotted_unit) 0 [] dotted_divide) (finditer ARITH_RE (source dotted_unit))
  /\ (exists stmt,
       group (match_of (source dotted_unit) 0 [] dotted_divide) "stmt" = Ok (Some stmt)
       /\ strip stmt = stmt
       /\ (existsb (eqc dotted_I) (keyword_text (match_of (source dotted_unit) 0 [] dotted_divide)) = true ->
           (forall k, startswith (upper stmt) (keyword k) = false)
           /\ classify (match_of (source dotted_unit) 0 [] dotted_divide) stmt = Ok None
           /\ scan_match dotted_unit (source dotted_unit) [] (match_of (source dotted_unit) 0 [] dotted_divide) = Ok [])
       /\ (existsb (eqc dotted_I) (keyword_text (match_of (source dotted_unit) 0 [] dotted_divide)) = false ->
           exists k f,
             startswith (upper stmt) (keyword k) = true
             /\ group (match_of (source dotted_unit) 0 [] dotted_divide) (val_group k) <> Ok None
             /\ scan_match dotted_unit (source dotted_unit) [] (match_of (source dotted_unit) 0 [] dotted_divide) = Ok ([] ++ [f]))).
Proof.
  assert (H1 : In (match_of (source dotted_unit) 0 [] dotted_divide) (finditer ARITH_RE (source dotted_unit)))
    by (vm_compute; left; reflexivity).
  split; [exact H1|].
  exact (@dotted_keyword_passed_over dotted_unit (source dotted_unit) (match_of (source dotted_unit) 0 [] dotted_divide) [] H1).
Defined.

Lemma all_reported (src : str) :
  existsb (eqc dotted_I) src = false ->
  reported (finditer ARITH_RE src) = finditer ARITH_RE src.
Proof.
  intros Hn. apply filter_all. intros m Hm.
  apply finditer_occurrence in Hm.
  destruct Hm as (pre & lead & s & post & Hocc).
  rewrite (skipped_occ Hocc).
  rewrite (occ_src Hocc) in Hn. unfold text in Hn.
  apply existsb_app_false in Hn. destruct Hn as [_ Hn].
  apply existsb_app_false in Hn. destruct Hn as [_ Hn].
  apply existsb_app_false in Hn. destruct Hn as [Hn _].
  apply existsb_app_false in Hn. destruct Hn as [Hn _].
  rewrite Hn. reflexivity.
Qed.

(** X13. In a text without U+0130 every match is reported: the findings of
    the unit are as many as the matches and come in their order, each at
    the line counted at the start of its match. *)
Theorem one_finding_per_match (h : store) (unit : ref) (u : Unit) :
  nth_error h unit = Some u ->
  existsb (eqc dotted_I) (source u) = false ->
  exists u' fs,
    scanUnit h unit = Ok u'
    /\ findings u' = if_any fs
    /\ List.length fs = List.length (finditer ARITH_RE (source u))
    /\ Forall2
         (fun m f =>
            exists stmt,
              group m "stmt" = Ok (Some stmt)
              /\ starting_line f
                 = Some (start_line u
                         + count LF (slice (source u) 0 (Re.start m)))
              /\ exists tail,
                   suggestion f
                   = Some ("Replace '" ++ stmt ++ "' with '" ++ tail))
         (finditer ARITH_RE (source u)) fs.
Proof.
  intros Hr Hn. destruct (Claims.scanUnit_reports h unit Hr) as (fs & F & Hrun).
  rewrite (all_reported _ Hn) in F.
  exists (with_findings (if_any fs) u), fs.
  split; [exact Hrun|]. split; [reflexivity|].
  split; [symmetry; exact (Forall2_length F)|].
  eapply Forall2_impl; [|exact F].
  intros m f (pre & lead & s & post & Hocc & ->).
  exists (text s). split; [exact (group_stmt Hocc)|]. split.
  - cbn [starting_line finding_of]. rewrite (match_start Hocc).
    rewrite (occ_src Hocc), slice_prefix. reflexivity.
  - eexists. cbn [suggestion finding_of]. reflexivity.
Qed.

(** [accent_unit] has no U+0130, one match and one finding. *)
Lemma one_finding_per_match_witness :
  nth_error unicode_store 1%nat = Some accent_unit
  /\ existsb (eqc dotted_I) (source accent_unit) = false
  /\ (exists u' fs,
       scanUnit unicode_store 1%nat = Ok u'
       /\ findings u' = if_any fs
       /\ List.length fs = List.length (finditer ARITH_RE (source accent_unit))
       /\ Forall2
            (fun m f =>
               exists stmt,
                 group m "stmt" = Ok (Some stmt)
                 /\ starting_line f
                    = Some (start_line accent_unit
                            + count LF (slice (source accent_unit) 0 (Re.start m)))
                 /\ exists tail,
                      suggestion f
                      = Some ("Replace '" ++ stmt ++ "' with '" ++ tail))
            (finditer ARITH_RE (source accent_unit)) fs).
Proof.
  assert (H1 : nth_error unicode_store 1%nat = Some accent_unit)
    by (vm_compute; reflexivity).
  assert (H2 : existsb (eqc dotted_I) (source accent_unit) = false)
    by (vm_compute; reflexivity).
  split; [exact H1|].
  split; [exact H2|].
  exact (@one_finding_per_match unicode_store 1%nat accent_unit H1 H2).
Defined.

End Extras.
